(** * ST3215 serial-bus servo driver: packet engine, batch write and motion maths

    A shallow embedding of the C++ sources
    [protocol_packet_handler.cpp], [port_handler.cpp], [group_sync_write.cpp],
    [group_sync_read.cpp] and [st3215.cpp], together with the properties
    their design document states about them and further properties read off
    the code.

    Conventions.
    - A byte, and every fixed-width integer, is a [Z]; the conversions the
      C++ types perform are written out ([to_uint8], [to_uint16], [to_int16],
      [size_sub]).
    - A [std::vector<uint8_t>] is a [list Z]; sizes and indices are [nat].
      Indexing a vector out of range, and an exception that leaves the
      function, end the run with [Fault].
    - The serial device is the environment.  [PortHandler] carries, next to
      the two fields the protocol code reads ([serial_fd_], [is_using_]), a
      script of what the device will do: the bytes already in the kernel
      receive queue, the bursts that land before each later [read], the
      values later [write] calls return, and how many [isPacketTimeout] polls
      still come before the deadline.  Every system call is appended to
      [io_log].
    - [while (true)] loops run on fuel; the fuel handed to them is computed
      from the script and shown to suffice. *)

From Stdlib Require Import ZArith List Bool Lia Reals Lra.
From stdpp Require Import base option list gmap sorting.

Open Scope Z_scope.

(** ** values.h *)

Definition TXPACKET_MAX_LEN : Z := 250.
Definition RXPACKET_MAX_LEN : Z := 250.

Definition MIN_POSITION : Z := 0.
Definition MAX_POSITION : Z := 4095.

Definition MAX_SPEED : Z := 3400.
Definition MAX_CORRECTION : Z := 2047.

Definition PKT_HEADER_0 : nat := 0.
Definition PKT_HEADER_1 : nat := 1.
Definition PKT_ID : nat := 2.
Definition PKT_LENGTH : nat := 3.
Definition PKT_INSTRUCTION : nat := 4.
Definition PKT_ERROR : nat := 4.
Definition PKT_PARAMETER0 : nat := 5.

Definition BROADCAST_ID : Z := 254.

Definition INST_PING : Z := 1.
Definition INST_READ : Z := 2.
Definition INST_WRITE : Z := 3.

Definition COMM_SUCCESS : Z := 0.
Definition COMM_PORT_BUSY : Z := -1.
Definition COMM_TX_FAIL : Z := -2.
Definition COMM_RX_FAIL : Z := -3.
Definition COMM_TX_ERROR : Z := -4.
Definition COMM_RX_WAITING : Z := -5.
Definition COMM_RX_TIMEOUT : Z := -6.
Definition COMM_RX_CORRUPT : Z := -7.
Definition COMM_NOT_AVAILABLE : Z := -9.

Definition STS_MODEL_L : Z := 3.
Definition STS_LOCK : Z := 55.
Definition STS_PRESENT_POSITION_L : Z := 56.

(** ** Fixed-width integers *)

Definition to_uint8 (z : Z) : Z := z mod 256.
Definition to_uint16 (z : Z) : Z := z mod 65536.
Definition to_int16 (z : Z) : Z := (z + 32768) mod 65536 - 32768.
Definition to_uint32 (z : Z) : Z := z mod 4294967296.

(** [size_t] is 64 bits wide; [a - b] on two sizes wraps. *)
Definition SIZE_MOD : Z := 2 ^ 64.
Definition size_sub (a b : nat) : Z := (Z.of_nat a - Z.of_nat b) mod SIZE_MOD.

(** [std::vector<uint8_t>::max_size()]. *)
Definition VECTOR_MAX_SIZE : Z := 2 ^ 63 - 1.

Definition is_byte (b : Z) : Prop := 0 <= b < 256.

(** ** Outcomes of a run *)

Inductive outcome (A : Type) : Type :=
| Ok (a : A)
| Fault
| OutOfFuel.

Arguments Ok {A} a.
Arguments Fault {A}.
Arguments OutOfFuel {A}.

#[global] Instance outcome_ret : MRet outcome := fun A a => Ok a.

#[global] Instance outcome_bind : MBind outcome := fun A B f m =>
  match m with
  | Ok a => f a
  | Fault => Fault
  | OutOfFuel => OutOfFuel
  end.

(** [v[i]] as an rvalue. *)
Definition at_ (v : list Z) (i : nat) : outcome Z :=
  match v !! i with
  | Some x => Ok x
  | None => Fault
  end.

(** [v[i] = x]. *)
Definition set_at (v : list Z) (i : nat) (x : Z) : outcome (list Z) :=
  if (i <? length v)%nat then Ok (<[i := x]> v) else Fault.

(** ** port_handler.cpp *)

Inductive io_event : Type :=
| EvFlush
| EvWrite (packet : list Z) (accepted : Z)
| EvRead (requested : nat) (delivered : list Z)
| EvDeadline (expired : bool)
| EvSetTimeout (packet_length : Z).

Record PortHandler : Type := mkPort {
  serial_fd_ : Z;
  is_using_ : bool;
  rx_fifo : list Z;
  rx_line : list (list Z);
  tx_accept : list Z;
  deadline_polls : nat;
  timer_script : list nat;
  io_log : list io_event
}.

Definition isUsing (p : PortHandler) : bool := is_using_ p.

Definition setUsing (using_flag : bool) (p : PortHandler) : PortHandler :=
  mkPort (serial_fd_ p) using_flag (rx_fifo p) (rx_line p) (tx_accept p)
         (deadline_polls p) (timer_script p) (io_log p).

Definition clearPort (p : PortHandler) : PortHandler :=
  if serial_fd_ p =? -1 then p
  else mkPort (serial_fd_ p) (is_using_ p) [] (rx_line p) (tx_accept p)
              (deadline_polls p) (timer_script p) (EvFlush :: io_log p).

Definition readPort (length_ : Z) (p : PortHandler)
  : outcome (list Z * PortHandler) :=
  if VECTOR_MAX_SIZE <? length_ then Fault
  else if negb (serial_fd_ p =? -1) && (0 <? length_) then
    let queued := rx_fifo p ++ hd [] (rx_line p) in
    let n := Z.to_nat length_ in
    Ok (take n queued,
        mkPort (serial_fd_ p) (is_using_ p) (drop n queued) (tl (rx_line p))
               (tx_accept p) (deadline_polls p) (timer_script p)
               (EvRead n (take n queued) :: io_log p))
  else Ok ([], p).

Definition writePort (packet : list Z) (p : PortHandler) : Z * PortHandler :=
  if (serial_fd_ p =? -1) || (length packet =? 0)%nat then (0, p)
  else
    let size := Z.of_nat (length packet) in
    let bytes_written := Z.min (hd size (tx_accept p)) size in
    (if bytes_written <? 0 then 0 else bytes_written,
     mkPort (serial_fd_ p) (is_using_ p) (rx_fifo p) (rx_line p)
            (tl (tx_accept p)) (deadline_polls p) (timer_script p)
            (EvWrite packet bytes_written :: io_log p)).

Definition setPacketTimeout (packet_length : Z) (p : PortHandler)
  : PortHandler :=
  mkPort (serial_fd_ p) (is_using_ p) (rx_fifo p) (rx_line p) (tx_accept p)
         (hd 0%nat (timer_script p)) (tl (timer_script p))
         (EvSetTimeout packet_length :: io_log p).

Definition isPacketTimeout (p : PortHandler) : bool * PortHandler :=
  match deadline_polls p with
  | O =>
      (true,
       mkPort (serial_fd_ p) (is_using_ p) (rx_fifo p) (rx_line p)
              (tx_accept p) 0 (timer_script p) (EvDeadline true :: io_log p))
  | S n =>
      (false,
       mkPort (serial_fd_ p) (is_using_ p) (rx_fifo p) (rx_line p)
              (tx_accept p) n (timer_script p) (EvDeadline false :: io_log p))
  end.

(** Bytes the device has sent or will send and the driver has not read. *)
Definition pending (p : PortHandler) : list Z := rx_fifo p ++ concat (rx_line p).

(** ** protocol_packet_handler.cpp: byte-order helpers *)

Definition makeWord (sts_end_ a b : Z) : Z :=
  if sts_end_ =? 0
  then to_uint16 (Z.lor (Z.land a 255) (Z.shiftl (Z.land b 255) 8))
  else to_uint16 (Z.lor (Z.land b 255) (Z.shiftl (Z.land a 255) 8)).

Definition lobyte (sts_end_ w : Z) : Z :=
  if sts_end_ =? 0 then Z.land w 255 else Z.land (Z.shiftr w 8) 255.

Definition hibyte (sts_end_ w : Z) : Z :=
  if sts_end_ =? 0 then Z.land (Z.shiftr w 8) 255 else Z.land w 255.

Definition makeDWord (a b : Z) : Z :=
  to_uint32 (Z.lor (Z.land a 65535) (Z.shiftl (Z.land b 65535) 16)).

(** [b] is a bit number below 31, where [1 << b] is an [int]. *)
Definition toHost (a b : Z) : Z :=
  if negb (Z.land a (Z.shiftl 1 b) =? 0)
  then to_int16 (- Z.land a (Z.lnot (Z.shiftl 1 b)))
  else to_int16 a.

(** ** protocol_packet_handler.cpp: txPacket *)

(** [for (idx = from; idx < from + count; ++idx) checksum += v[idx];]
    with [checksum] a [uint8_t]. *)
Fixpoint checksum_loop (v : list Z) (idx count : nat) (checksum : Z)
  : outcome Z :=
  match count with
  | O => Ok checksum
  | S count' =>
      b ← at_ v idx;
      checksum_loop v (S idx) count' (to_uint8 (checksum + b))
  end.

Definition txPacket (txpacket : list Z) (p : PortHandler)
  : outcome (Z * list Z * PortHandler) :=
  len ← at_ txpacket PKT_LENGTH;
  let total_packet_length := Z.to_nat (len + 4) in
  if isUsing p then Ok (COMM_PORT_BUSY, txpacket, p)
  else
    let p := setUsing true p in
    if TXPACKET_MAX_LEN <? Z.of_nat total_packet_length
    then Ok (COMM_TX_ERROR, txpacket, setUsing false p)
    else
      txpacket ← set_at txpacket PKT_HEADER_0 255;
      txpacket ← set_at txpacket PKT_HEADER_1 255;
      checksum ← checksum_loop txpacket 2 (total_packet_length - 1 - 2) 0;
      txpacket ← set_at txpacket (total_packet_length - 1)
                        (Z.land (Z.lnot checksum) 255);
      let p := clearPort p in
      let '(written_packet_length, p) := writePort txpacket p in
      if negb (Z.of_nat total_packet_length =? written_packet_length)
      then Ok (COMM_TX_FAIL, txpacket, setUsing false p)
      else Ok (COMM_SUCCESS, txpacket, p).

(** ** protocol_packet_handler.cpp: rxPacket *)

(** [for (idx = from; idx < from + count; ++idx)
       if (v[idx] == 0xFF && v[idx + 1] == 0xFF) break;]
    and the value of [idx] after the loop. *)
Fixpoint header_scan (v : list Z) (idx count : nat) : outcome nat :=
  match count with
  | O => Ok idx
  | S count' =>
      a ← at_ v idx;
      if a =? 255 then
        b ← at_ v (S idx);
        if b =? 255 then Ok idx else header_scan v (S idx) count'
      else header_scan v (S idx) count'
  end.

(** One pass through the body of [while (true)]: either [continue] (or fall
    through to the next iteration) with the new locals, or [break]. *)
Inductive rx_step : Type :=
| RxContinue (rxpacket : list Z) (wait_length : nat) (p : PortHandler)
| RxBreak (rxpacket : list Z) (result : Z) (p : PortHandler).

Definition rx_body (rxpacket : list Z) (wait_length : nat) (p : PortHandler)
  : outcome rx_step :=
  '(new_data, p) ← readPort (size_sub wait_length (length rxpacket)) p;
  let rxpacket := rxpacket ++ new_data in
  let rx_length := length rxpacket in
  if (wait_length <=? rx_length)%nat then
    idx ← header_scan rxpacket 0 (rx_length - 1);
    if (idx =? 0)%nat then
      id ← at_ rxpacket PKT_ID;
      invalid ←
        (if 253 <? id then Ok true
         else
           len ← at_ rxpacket PKT_LENGTH;
           if RXPACKET_MAX_LEN <? len then Ok true
           else err ← at_ rxpacket PKT_ERROR; Ok (127 <? err));
      if invalid : bool then
        match rxpacket with
        | [] => Fault
        | _ :: rest => Ok (RxContinue rest wait_length p)
        end
      else
        len ← at_ rxpacket PKT_LENGTH;
        let exact := Z.to_nat (len + Z.of_nat PKT_LENGTH + 1) in
        if negb (wait_length =? exact)%nat then
          Ok (RxContinue rxpacket exact p)
        else if (rx_length <? wait_length)%nat then
          let '(expired, p) := isPacketTimeout p in
          if expired then
            Ok (RxBreak rxpacket
                  (if (rx_length =? 0)%nat then COMM_RX_TIMEOUT
                   else COMM_RX_CORRUPT) p)
          else Ok (RxContinue rxpacket wait_length p)
        else
          checksum ← checksum_loop rxpacket 2 (wait_length - 1 - 2) 0;
          let checksum := Z.land (Z.lnot checksum) 255 in
          last_byte ← at_ rxpacket (wait_length - 1);
          Ok (RxBreak rxpacket
                (if last_byte =? checksum then COMM_SUCCESS
                 else COMM_RX_CORRUPT) p)
    else Ok (RxContinue (drop idx rxpacket) wait_length p)
  else
    let '(expired, p) := isPacketTimeout p in
    if expired then
      Ok (RxBreak rxpacket
            (if (rx_length =? 0)%nat then COMM_RX_TIMEOUT
             else COMM_RX_CORRUPT) p)
    else Ok (RxContinue rxpacket wait_length p).

Fixpoint rx_loop (fuel : nat) (rxpacket : list Z) (wait_length : nat)
  (p : PortHandler) : outcome (list Z * Z * PortHandler) :=
  match fuel with
  | O => OutOfFuel
  | S fuel' =>
      step ← rx_body rxpacket wait_length p;
      match step with
      | RxContinue rxpacket wait_length p => rx_loop fuel' rxpacket wait_length p
      | RxBreak rxpacket result p => Ok (rxpacket, result, p)
      end
  end.

Definition rx_fuel (p : PortHandler) : nat :=
  S (S (length (pending p) + deadline_polls p)).

Definition rxPacket (p : PortHandler) : outcome (list Z * Z * PortHandler) :=
  '(rxpacket, result, p) ← rx_loop (rx_fuel p) [] 6 p;
  Ok (rxpacket, result, setUsing false p).

(** ** protocol_packet_handler.cpp: txRxPacket and the typed transactions *)

(** The reception loop of [txRxPacket]: re-invoke [rxPacket] until it fails
    or the reply carries the address of the request. *)
Fixpoint txrx_loop (fuel : nat) (txpacket : list Z) (p : PortHandler)
  : outcome (list Z * Z * PortHandler) :=
  match fuel with
  | O => OutOfFuel
  | S fuel' =>
      '(rxpacket, result, p) ← rxPacket p;
      if negb (result =? COMM_SUCCESS) then Ok (rxpacket, result, p)
      else if (PKT_ID <? length rxpacket)%nat then
        tx_id ← at_ txpacket PKT_ID;
        rx_id ← at_ rxpacket PKT_ID;
        if tx_id =? rx_id then Ok (rxpacket, result, p)
        else txrx_loop fuel' txpacket p
      else txrx_loop fuel' txpacket p
  end.

Definition txRxPacket (txpacket : list Z) (p : PortHandler)
  : outcome (list Z * Z * Z * PortHandler) :=
  '(result, txpacket, p) ← txPacket txpacket p;
  if negb (result =? COMM_SUCCESS) then Ok ([], result, 0, p)
  else
    id ← at_ txpacket PKT_ID;
    if id =? BROADCAST_ID then Ok ([], result, 0, setUsing false p)
    else
      inst ← at_ txpacket PKT_INSTRUCTION;
      p ← (if inst =? INST_READ then
             n ← at_ txpacket (PKT_PARAMETER0 + 1);
             Ok (setPacketTimeout (n + 6) p)
           else Ok (setPacketTimeout 6 p));
      '(rxpacket, result, p) ← txrx_loop (S (length (pending p))) txpacket p;
      if (result =? COMM_SUCCESS) && (PKT_ERROR <? length rxpacket)%nat then
        tx_id ← at_ txpacket PKT_ID;
        rx_id ← at_ rxpacket PKT_ID;
        if tx_id =? rx_id then
          error ← at_ rxpacket PKT_ERROR;
          Ok (rxpacket, result, error, p)
        else Ok (rxpacket, result, 0, p)
      else Ok (rxpacket, result, 0, p).

Definition readTxRx (sts_id address length_ : Z) (p : PortHandler)
  : outcome (list Z * Z * Z * PortHandler) :=
  if BROADCAST_ID <=? sts_id then Ok ([], COMM_NOT_AVAILABLE, 0, p)
  else
    let txpacket := [0; 0; sts_id; 4; INST_READ; address; length_; 0] in
    '(rxpacket, result, error, p) ← txRxPacket txpacket p;
    if (result =? COMM_SUCCESS)
       && (PKT_PARAMETER0 + Z.to_nat length_ <=? length rxpacket)%nat then
      error ← at_ rxpacket PKT_ERROR;
      Ok (take (Z.to_nat length_) (drop PKT_PARAMETER0 rxpacket),
          result, error, p)
    else Ok ([], result, error, p).

Definition read2ByteTxRx (sts_end_ sts_id address : Z) (p : PortHandler)
  : outcome (Z * Z * Z * PortHandler) :=
  '(data, result, error, p) ← readTxRx sts_id address 2 p;
  if (result =? COMM_SUCCESS) && (2 <=? length data)%nat then
    d0 ← at_ data 0;
    d1 ← at_ data 1;
    Ok (makeWord sts_end_ d0 d1, result, error, p)
  else Ok (0, result, error, p).

(** [for (i = from; i < from + count; ++i)
       txpacket[PKT_PARAMETER0 + 1 + i] = data[i];] *)
Fixpoint copy_loop (txpacket data : list Z) (i count : nat)
  : outcome (list Z) :=
  match count with
  | O => Ok txpacket
  | S count' =>
      d ← at_ data i;
      txpacket ← set_at txpacket (PKT_PARAMETER0 + 1 + i) d;
      copy_loop txpacket data (S i) count'
  end.

(** The packet [writeTxOnly] and [writeTxRx] build before transmitting. *)
Definition write_packet (sts_id address length_ : Z) (data : list Z)
  : outcome (list Z) :=
  let txpacket := replicate (Z.to_nat (length_ + 7)) 0 in
  txpacket ← set_at txpacket PKT_ID sts_id;
  txpacket ← set_at txpacket PKT_LENGTH (to_uint8 (length_ + 3));
  txpacket ← set_at txpacket PKT_INSTRUCTION INST_WRITE;
  txpacket ← set_at txpacket PKT_PARAMETER0 address;
  copy_loop txpacket data 0 (Z.to_nat length_).

Definition writeTxRx (sts_id address length_ : Z) (data : list Z)
  (p : PortHandler) : outcome (Z * Z * PortHandler) :=
  txpacket ← write_packet sts_id address length_ data;
  '(_, result, error, p) ← txRxPacket txpacket p;
  Ok (result, error, p).

Definition ping (sts_end_ sts_id : Z) (p : PortHandler)
  : outcome (Z * Z * Z * PortHandler) :=
  if BROADCAST_ID <=? sts_id then Ok (0, COMM_NOT_AVAILABLE, 0, p)
  else
    let txpacket := [0; 0; sts_id; 2; INST_PING; 0] in
    '(_, result, error, p) ← txRxPacket txpacket p;
    if result =? COMM_SUCCESS then
      '(data, result, error, p) ← readTxRx sts_id 3 2 p;
      if (result =? COMM_SUCCESS) && (2 <=? length data)%nat then
        d0 ← at_ data 0;
        d1 ← at_ data 1;
        Ok (makeWord sts_end_ d0 d1, result, error, p)
      else Ok (0, result, error, p)
    else Ok (0, result, error, p).

Definition writeTxOnly (sts_id address length_ : Z) (data : list Z)
  (p : PortHandler) : outcome (Z * PortHandler) :=
  txpacket ← write_packet sts_id address length_ data;
  '(result, _, p) ← txPacket txpacket p;
  Ok (result, setUsing false p).

(** ** st3215.cpp: discovery and sign-magnitude writes *)

Definition pingServo (sts_end_ sts_id : Z) (p : PortHandler)
  : outcome (bool * PortHandler) :=
  '(model, comm, error, p) ← ping sts_end_ sts_id p;
  if negb (comm =? COMM_SUCCESS) || (model =? 0) || negb (error =? 0)
  then Ok (false, p)
  else Ok (true, p).


(** [txpacket[1] |= (1 << bit)] on a two-byte payload. *)
Definition or_sign (txpacket : list Z) (bit : Z) : outcome (list Z) :=
  hi ← at_ txpacket 1;
  set_at txpacket 1 (to_uint8 (Z.lor hi (Z.shiftl 1 bit))).

(** The payload [correctPosition] hands to [writeTxRx]. *)
Definition correctPosition_txpacket (sts_end_ correction : Z)
  : outcome (list Z) :=
  let corr := to_uint16 (Z.abs correction) in
  let corr := if MAX_CORRECTION <? corr then MAX_CORRECTION else corr in
  let txpacket := [lobyte sts_end_ corr; hibyte sts_end_ corr] in
  if correction <? 0 then or_sign txpacket 3 else Ok txpacket.


(** The payload [rotate] hands to [writeTxRx]. *)
Definition rotate_txpacket (sts_end_ speed : Z) : outcome (list Z) :=
  let abs_speed := to_uint16 (Z.abs speed) in
  let abs_speed := if MAX_SPEED <? abs_speed then MAX_SPEED else abs_speed in
  let txpacket := [lobyte sts_end_ abs_speed; hibyte sts_end_ abs_speed] in
  if speed <? 0 then or_sign txpacket 7 else Ok txpacket.


(** ** st3215.cpp: the scan, and reading back position and correction *)

(** [for (int id = from; id < from + count; ++id)
       if (pingServo(static_cast<uint8_t>(id)))
         servos.push_back(static_cast<uint8_t>(id));] *)
Fixpoint listServos_loop (sts_end_ id : Z) (count : nat) (servos : list Z)
  (p : PortHandler) : outcome (list Z * PortHandler) :=
  match count with
  | O => Ok (servos, p)
  | S count' =>
      '(present, p) ← pingServo sts_end_ (to_uint8 id) p;
      let servos :=
        if present : bool then servos ++ [to_uint8 id] else servos in
      listServos_loop sts_end_ (id + 1) count' servos p
  end.

Definition listServos (sts_end_ : Z) (p : PortHandler)
  : outcome (list Z * PortHandler) :=
  listServos_loop sts_end_ 0 254 [] p.

Definition readPosition (sts_end_ sts_id : Z) (p : PortHandler)
  : outcome (option Z * PortHandler) :=
  '(position, comm, error, p) ←
    read2ByteTxRx sts_end_ sts_id STS_PRESENT_POSITION_L p;
  if (comm =? COMM_SUCCESS) && (error =? 0) then Ok (Some position, p)
  else Ok (None, p).

(** What [readCorrection] makes of the register value it has read. *)
Definition readCorrection_bits (correction : Z) : Z :=
  let mask := 2047 in
  let bits := to_int16 (Z.land correction mask) in
  if negb (Z.land correction 2048 =? 0)
  then to_int16 (-1 * Z.land bits 2047)
  else bits.

(** ** st3215.cpp: the range arithmetic of tareServo

    [min_pos] and [max_pos] are [uint16_t]; the arithmetic is done in [int]
    (no wrap-around for 16-bit operands, division truncates towards zero);
    [corr] is an [int16_t]. *)

Definition tare_distance (min_pos max_pos : Z) : Z :=
  if max_pos <=? min_pos
  then (MAX_POSITION - min_pos + max_pos) ÷ 2
  else (max_pos - min_pos) ÷ 2.

Definition tare_corr (min_pos : Z) : Z :=
  if MAX_POSITION ÷ 2 <? min_pos
  then to_int16 (min_pos - MAX_POSITION - 1)
  else to_int16 min_pos.

(** ** st3215.cpp: the wait estimate of moveTo

    [double] arithmetic is read as arithmetic on the reals.  The two agree
    where the acceleration is not 0 and every intermediate value is a
    [double] the operations compute without rounding, as at the input the
    statement below is about.  They differ where the code divides by an
    acceleration of 0, and where rounding moves [distance_acc] across
    [distance] and so picks the other profile; nothing is stated about the
    wait at such inputs. *)

Definition moveTo_distance (position curr_pos : Z) : Z :=
  to_uint16 (Z.abs (position - curr_pos)).

Definition moveTo_time_wait (position curr_pos speed acc : Z) : R :=
  let distance := IZR (moveTo_distance position curr_pos) in
  let time_to_speed := (IZR speed / (IZR acc * 100))%R in
  let distance_acc :=
    (0.5 * (IZR acc * 100) * time_to_speed * time_to_speed)%R in
  if Rge_dec distance_acc distance
  then sqrt (2 * distance / IZR acc)
  else
    let remain_distance := (distance - distance_acc)%R in
    (time_to_speed + remain_distance / IZR speed)%R.

(** The estimate as the design document words it: the acceleration is
    scaled to steps/s² in both profiles. *)
Definition documented_time_wait (position curr_pos speed acc : Z) : R :=
  let d := IZR (moveTo_distance position curr_pos) in
  let v := IZR speed in
  let a := (IZR acc * 100)%R in
  let t_acc := (v / a)%R in
  let d_acc := (0.5 * a * t_acc * t_acc)%R in
  if Rge_dec d_acc d then sqrt (2 * d / a) else (t_acc + (d - d_acc) / v)%R.

(** ** group_sync_write.cpp *)

Record GroupSyncWrite : Type := mkGroupSyncWrite {
  start_address_ : Z;
  data_length_ : Z;
  is_param_changed_ : bool;
  param_ : list Z;
  data_dict_ : gmap Z (list Z)
}.

Definition addParam (sts_id : Z) (data : list Z) (g : GroupSyncWrite)
  : bool * GroupSyncWrite :=
  match data_dict_ g !! sts_id with
  | Some _ => (false, g)
  | None =>
      if data_length_ g <? Z.of_nat (length data) then (false, g)
      else
        (true,
         mkGroupSyncWrite (start_address_ g) (data_length_ g) true (param_ g)
                          (<[sts_id := data]> (data_dict_ g)))
  end.

(** The entries of a [std::map] in the order a range-for visits them:
    ascending by key. *)
Definition key_le (a b : Z * list Z) : Prop := a.1 <= b.1.

#[global] Instance key_le_dec (a b : Z * list Z) : Decision (key_le a b) :=
  Z_le_dec a.1 b.1.

Definition map_entries (m : gmap Z (list Z)) : list (Z * list Z) :=
  merge_sort key_le (map_to_list m).

(** [for (const auto& [sts_id, data] : data_dict_)] of [makeParam]. *)
Fixpoint makeParam_loop (entries : list (Z * list Z)) (param_ : list Z)
  : list Z :=
  match entries with
  | [] => param_
  | (sts_id, data) :: entries =>
      if (length data =? 0)%nat then param_
      else makeParam_loop entries (param_ ++ sts_id :: data)
  end.

Definition makeParam (g : GroupSyncWrite) : GroupSyncWrite :=
  if (size (data_dict_ g) =? 0)%nat then g
  else
    mkGroupSyncWrite (start_address_ g) (data_length_ g) (is_param_changed_ g)
      (makeParam_loop (map_entries (data_dict_ g)) []) (data_dict_ g).

Definition removeParam (sts_id : Z) (g : GroupSyncWrite) : GroupSyncWrite :=
  match data_dict_ g !! sts_id with
  | None => g
  | Some _ =>
      mkGroupSyncWrite (start_address_ g) (data_length_ g) true (param_ g)
                       (delete sts_id (data_dict_ g))
  end.

Definition changeParam (sts_id : Z) (data : list Z) (g : GroupSyncWrite)
  : bool * GroupSyncWrite :=
  match data_dict_ g !! sts_id with
  | None => (false, g)
  | Some _ =>
      if data_length_ g <? Z.of_nat (length data) then (false, g)
      else
        (true,
         mkGroupSyncWrite (start_address_ g) (data_length_ g) true (param_ g)
                          (<[sts_id := data]> (data_dict_ g)))
  end.

Definition clearParam (g : GroupSyncWrite) : GroupSyncWrite :=
  mkGroupSyncWrite (start_address_ g) (data_length_ g) (is_param_changed_ g)
                   (param_ g) ∅.

(** The arguments of a call of [syncWriteTxOnly]. *)
Record sync_write_call : Type := mkSyncWriteCall {
  call_start_address : Z;
  call_data_length : Z;
  call_param : list Z;
  call_param_length : Z
}.

(** [GroupSyncWrite::txPacket], up to the call of [syncWriteTxOnly] it ends
    in: the result is [COMM_NOT_AVAILABLE] or the arguments of that call. *)
Definition GroupSyncWrite_txPacket (g : GroupSyncWrite)
  : (Z + sync_write_call) * GroupSyncWrite :=
  if (size (data_dict_ g) =? 0)%nat then (inl COMM_NOT_AVAILABLE, g)
  else
    let g :=
      if is_param_changed_ g || (length (param_ g) =? 0)%nat
      then makeParam g else g in
    (inr (mkSyncWriteCall (start_address_ g) (data_length_ g) (param_ g)
            (Z.of_nat (size (data_dict_ g)) * (1 + data_length_ g))),
     g).

(** ** group_sync_read.cpp *)

Module SyncRead.

Record GroupSyncRead : Type := mkGroupSyncRead {
  start_address_ : Z;
  data_length_ : Z;
  last_result_ : bool;
  is_param_changed_ : bool;
  param_ : list Z;
  data_dict_ : gmap Z (list Z)
}.

Definition addParam (sts_id : Z) (g : GroupSyncRead) : bool * GroupSyncRead :=
  match data_dict_ g !! sts_id with
  | Some _ => (false, g)
  | None =>
      (true,
       mkGroupSyncRead (start_address_ g) (data_length_ g) (last_result_ g)
                       true (param_ g) (<[sts_id := []]> (data_dict_ g)))
  end.

Definition removeParam (sts_id : Z) (g : GroupSyncRead) : GroupSyncRead :=
  match data_dict_ g !! sts_id with
  | None => g
  | Some _ =>
      mkGroupSyncRead (start_address_ g) (data_length_ g) (last_result_ g)
                      true (param_ g) (delete sts_id (data_dict_ g))
  end.

Definition clearParam (g : GroupSyncRead) : GroupSyncRead :=
  mkGroupSyncRead (start_address_ g) (data_length_ g) (last_result_ g)
                  (is_param_changed_ g) (param_ g) ∅.

(** The inner [while] of [readRx]: shift bytes through [headpacket] until
    it holds 0xFF 0xFF [sts_id] or the buffer ends.  [h1] and [h0] are
    [headpacket[1]] and [headpacket[0]]; [count] is [rx_length - rx_index]. *)
Fixpoint head_loop (rxpacket : list Z) (sts_id : Z) (count rx_index : nat)
  (h1 h0 : Z) : outcome nat :=
  match count with
  | O => Ok rx_index
  | S count' =>
      b ← at_ rxpacket rx_index;
      let '(h2, h1, h0) := (h1, h0, b) in
      let rx_index := S rx_index in
      if (h2 =? 255) && (h1 =? 255) && (h0 =? sts_id) then Ok rx_index
      else head_loop rxpacket sts_id count' rx_index h1 h0
  end.

(** [for (i = 0; i < data_length; ++i) { data.push_back(rxpacket[rx_index]);
       calSum += rxpacket[rx_index]; rx_index++; }] *)
Fixpoint data_loop (rxpacket : list Z) (count rx_index : nat) (data : list Z)
  (calSum : Z) : outcome (list Z * Z * nat) :=
  match count with
  | O => Ok (data, calSum, rx_index)
  | S count' =>
      b ← at_ rxpacket rx_index;
      data_loop rxpacket count' (S rx_index) (data ++ [b])
                (to_uint8 (calSum + b))
  end.

Fixpoint readRx_loop (fuel : nat) (rxpacket : list Z) (sts_id data_length : Z)
  (rx_index : nat) : outcome (list Z * Z) :=
  match fuel with
  | O => OutOfFuel
  | S fuel' =>
      let rx_length := length rxpacket in
      if Z.of_nat rx_index + 6 + data_length <=? Z.of_nat rx_length then
        rx_index ←
          head_loop rxpacket sts_id (rx_length - rx_index) rx_index 0 0;
        if Z.of_nat rx_length <? Z.of_nat rx_index + 3 + data_length
        then Ok ([], COMM_RX_CORRUPT)
        else
          len ← at_ rxpacket rx_index;
          if negb (len =? to_uint8 (data_length + 2))
          then readRx_loop fuel' rxpacket sts_id data_length (S rx_index)
          else
            let rx_index := S rx_index in
            error_byte ← at_ rxpacket rx_index;
            let rx_index := S rx_index in
            let calSum := to_uint8 (sts_id + (data_length + 2) + error_byte) in
            '(data, calSum, rx_index) ←
              data_loop rxpacket (Z.to_nat data_length) rx_index
                        [error_byte] calSum;
            let calSum := Z.land (Z.lnot calSum) 255 in
            last ← at_ rxpacket rx_index;
            if negb (calSum =? last) then Ok ([], COMM_RX_CORRUPT)
            else Ok (data, COMM_SUCCESS)
      else Ok ([], COMM_RX_CORRUPT)
  end.

Definition readRx (rxpacket : list Z) (sts_id data_length : Z)
  : outcome (list Z * Z) :=
  readRx_loop (S (length rxpacket)) rxpacket sts_id data_length 0.

(** [for (auto& [sts_id, stored_data] : data_dict_)] of [rxPacket]. *)
Fixpoint store_loop (entries : list (Z * list Z)) (rxpacket : list Z)
  (data_length : Z) (dict : gmap Z (list Z)) (last_result : bool)
  : outcome (gmap Z (list Z) * bool) :=
  match entries with
  | [] => Ok (dict, last_result)
  | (sts_id, _) :: entries =>
      '(data, read_result) ← readRx rxpacket sts_id data_length;
      store_loop entries rxpacket data_length (<[sts_id := data]> dict)
        (if negb (read_result =? COMM_SUCCESS) then false else last_result)
  end.

(** [GroupSyncRead::rxPacket], given what [syncReadRx] returned. *)
Definition rxPacket (syncReadRx : Z * list Z) (g : GroupSyncRead)
  : outcome (Z * GroupSyncRead) :=
  let g := mkGroupSyncRead (start_address_ g) (data_length_ g) true
             (is_param_changed_ g) (param_ g) (data_dict_ g) in
  if (size (data_dict_ g) =? 0)%nat then Ok (COMM_NOT_AVAILABLE, g)
  else
    let '(rx_result, rxpacket) := syncReadRx in
    let result := rx_result in
    if data_length_ g + 6 <=? Z.of_nat (length rxpacket) then
      '(dict, last_result) ←
        store_loop (map_entries (data_dict_ g)) rxpacket (data_length_ g)
                   (data_dict_ g) (last_result_ g);
      Ok (result,
          mkGroupSyncRead (start_address_ g) (data_length_ g) last_result
            (is_param_changed_ g) (param_ g) dict)
    else
      Ok (result,
          mkGroupSyncRead (start_address_ g) (data_length_ g) false
            (is_param_changed_ g) (param_ g) (data_dict_ g)).

Definition isAvailable (sts_id address data_length : Z) (g : GroupSyncRead)
  : bool * Z :=
  match data_dict_ g !! sts_id with
  | None => (false, 0)
  | Some stored_data =>
      if (address <? start_address_ g)
         || (start_address_ g + data_length_ g - data_length <? address)
      then (false, 0)
      else
        match stored_data with
        | [] => (false, 0)
        | first :: _ =>
            if Z.of_nat (length stored_data) <? data_length + 1
            then (false, 0)
            else (true, first)
        end
  end.

(** [data_dict_[sts_id]] adds an empty entry for an address the session
    does not hold. *)
Definition getData (sts_end_ sts_id address data_length : Z)
  (g : GroupSyncRead) : outcome (Z * GroupSyncRead) :=
  let '(stored_data, g) :=
    match data_dict_ g !! sts_id with
    | Some stored_data => (stored_data, g)
    | None =>
        ([], mkGroupSyncRead (start_address_ g) (data_length_ g)
               (last_result_ g) (is_param_changed_ g) (param_ g)
               (<[sts_id := []]> (data_dict_ g)))
    end in
  let offset := Z.to_nat (to_uint8 (address - start_address_ g + 1)) in
  if data_length =? 1 then
    d0 ← at_ stored_data offset;
    Ok (d0, g)
  else if data_length =? 2 then
    d0 ← at_ stored_data offset;
    d1 ← at_ stored_data (offset + 1);
    Ok (makeWord sts_end_ d0 d1, g)
  else if data_length =? 4 then
    d0 ← at_ stored_data offset;
    d1 ← at_ stored_data (offset + 1);
    d2 ← at_ stored_data (offset + 2);
    d3 ← at_ stored_data (offset + 3);
    Ok (makeDWord (makeWord sts_end_ d0 d1) (makeWord sts_end_ d2 d3), g)
  else Ok (0, g).

End SyncRead.

(** ** Vocabulary of the statements *)

(** Sum of a run of bytes, not truncated. *)
Definition sum_bytes (l : list Z) : Z := foldr Z.add 0 l.

(** The frame [txPacket] makes of a vector whose length byte is [len]: the
    sync bytes, the bytes from the address through the last parameter, and
    the checksum of those. *)
Definition instruction_frame (txpacket : list Z) (len : Z) : list Z :=
  let body := take (Z.to_nat len + 1) (drop 2 txpacket) in
  255 :: 255 :: body ++ [Z.land (Z.lnot (sum_bytes body)) 255].

(** What [writePort] reports for a packet of [size] bytes on [p]. *)
Definition write_report (size : nat) (p : PortHandler) : Z :=
  (writePort (replicate size 0) p).1.

(** Number of bytes the reads among [evs] delivered. *)
Fixpoint bytes_read (evs : list io_event) : nat :=
  match evs with
  | [] => 0
  | EvRead _ delivered :: evs => length delivered + bytes_read evs
  | _ :: evs => bytes_read evs
  end.

(** [rxpacket] begins with a sync pair and a header that passes the three
    range checks of [rxPacket], and [wait_length] is the total length that
    header declares. *)
Definition header_locked (rxpacket : list Z) (wait_length : nat) : bool :=
  match rxpacket with
  | h0 :: h1 :: id :: len :: err :: _ =>
      (h0 =? 255) && (h1 =? 255) && negb (253 <? id)
      && negb (RXPACKET_MAX_LEN <? len) && negb (127 <? err)
      && (wait_length =? Z.to_nat (len + Z.of_nat PKT_LENGTH + 1))%nat
  | _ => false
  end.

(** Variant of the loop of [rxPacket]: bytes not yet discarded, polls left
    before the deadline, and one more while the header is not settled. *)
Definition rx_measure (rxpacket : list Z) (wait_length : nat) (p : PortHandler) : nat :=
  length rxpacket + length (pending p) + deadline_polls p
  + (if header_locked rxpacket wait_length then 0 else 1).

(** The six ways through the body of the loop of [rxPacket]. *)
Inductive rx_body_case (rxpacket : list Z) (wait_length : nat) (p : PortHandler)
  : rx_step → Prop :=
| RxDeadline new_data p1 :
    readPort (size_sub wait_length (length rxpacket)) p = Ok (new_data, p1) →
    (length (rxpacket ++ new_data) < wait_length)%nat →
    deadline_polls p1 = 0%nat →
    rx_body_case rxpacket wait_length p
      (RxBreak (rxpacket ++ new_data)
         (if (length (rxpacket ++ new_data) =? 0)%nat
          then COMM_RX_TIMEOUT else COMM_RX_CORRUPT)
         (isPacketTimeout p1).2)
| RxPoll new_data p1 n :
    readPort (size_sub wait_length (length rxpacket)) p = Ok (new_data, p1) →
    (length (rxpacket ++ new_data) < wait_length)%nat →
    deadline_polls p1 = S n →
    rx_body_case rxpacket wait_length p
      (RxContinue (rxpacket ++ new_data) wait_length (isPacketTimeout p1).2)
| RxSkip new_data p1 idx :
    readPort (size_sub wait_length (length rxpacket)) p = Ok (new_data, p1) →
    (wait_length <= length (rxpacket ++ new_data))%nat →
    header_scan (rxpacket ++ new_data) 0 (length (rxpacket ++ new_data) - 1)
    = Ok idx →
    idx ≠ 0%nat →
    rx_body_case rxpacket wait_length p
      (RxContinue (drop idx (rxpacket ++ new_data)) wait_length p1)
| RxReject new_data p1 h0 rest :
    readPort (size_sub wait_length (length rxpacket)) p = Ok (new_data, p1) →
    (wait_length <= length (rxpacket ++ new_data))%nat →
    header_scan (rxpacket ++ new_data) 0 (length (rxpacket ++ new_data) - 1)
    = Ok 0%nat →
    rxpacket ++ new_data = h0 :: rest →
    (∀ w, header_locked (rxpacket ++ new_data) w = false) →
    (3 <= length (rxpacket ++ new_data))%nat →
    rx_body_case rxpacket wait_length p (RxContinue rest wait_length p1)
| RxResize new_data p1 exact :
    readPort (size_sub wait_length (length rxpacket)) p = Ok (new_data, p1) →
    (wait_length <= length (rxpacket ++ new_data))%nat →
    header_locked (rxpacket ++ new_data) exact = true →
    wait_length ≠ exact →
    rx_body_case rxpacket wait_length p
      (RxContinue (rxpacket ++ new_data) exact p1)
| RxChecked new_data p1 checksum last_byte :
    readPort (size_sub wait_length (length rxpacket)) p = Ok (new_data, p1) →
    (wait_length <= length (rxpacket ++ new_data))%nat →
    header_locked (rxpacket ++ new_data) wait_length = true →
    checksum_loop (rxpacket ++ new_data) 2 (wait_length - 1 - 2) 0
    = Ok checksum →
    (rxpacket ++ new_data) !! (wait_length - 1)%nat = Some last_byte →
    rx_body_case rxpacket wait_length p
      (RxBreak (rxpacket ++ new_data)
         (if last_byte =? Z.land (Z.lnot checksum) 255
          then COMM_SUCCESS else COMM_RX_CORRUPT) p1).

(** Since the log read [log0] no poll has found the deadline passed, and
    the buffer is empty exactly when no byte has been delivered. *)
Definition rx_log_inv (log0 : list io_event) (rxpacket : list Z)
  (p : PortHandler) : Prop :=
  ∃ evs, io_log p = evs ++ log0
         ∧ Forall (λ e, e ≠ EvDeadline true) evs
         ∧ (length rxpacket = 0%nat ↔ bytes_read evs = 0%nat).

(** Two adjacent 0xFF bytes occur in [bytes]. *)
Fixpoint has_sync (bytes : list Z) : bool :=
  match bytes with
  | a :: (b :: _) as rest => (a =? 255) && (b =? 255) || has_sync rest
  | _ => false
  end.

(** [bytes] begins with a sync pair and three bytes that pass the range
    checks [rxPacket] makes on a header: address at most 0xFD, length at
    most [RXPACKET_MAX_LEN], error byte at most 0x7F. *)
Definition header_accepted (bytes : list Z) : bool :=
  match bytes with
  | h0 :: h1 :: id :: len :: err :: _ =>
      (h0 =? 255) && (h1 =? 255) && negb (253 <? id)
      && negb (RXPACKET_MAX_LEN <? len) && negb (127 <? err)
  | _ => false
  end.

(** Somewhere in [bytes], five bytes in a row are a sync pair and a header
    that [rxPacket] accepts. *)
Fixpoint has_false_header (bytes : list Z) : bool :=
  match bytes with
  | [] => false
  | _ :: rest => header_accepted bytes || has_false_header rest
  end.

(** Where the first sync pair with an accepted header begins in [bytes];
    the length of [bytes] when there is none. *)
Fixpoint first_header (bytes : list Z) : nat :=
  match bytes with
  | [] => 0
  | _ :: rest => if header_accepted bytes then 0 else S (first_header rest)
  end.

(** An adjacent pair of 0xFF bytes begins in [garbage] and ends in the
    packet that follows it, whose first byte is 0xFF: the garbage ends in
    0xFF. *)
Definition sync_spans (garbage : list Z) : bool :=
  match last garbage with
  | Some b => b =? 255
  | None => false
  end.

(** A status packet on the wire: sync bytes, address, length (parameter
    count + 2), error byte, parameters, checksum. *)
Definition status_packet (id err : Z) (params : list Z) : list Z :=
  let body := id :: Z.of_nat (length params) + 2 :: err :: params in
  255 :: 255 :: body ++ [Z.land (Z.lnot (sum_bytes body)) 255].

(** Invariant of the loop of [rxPacket] on a stream that ends in [packet]
    followed by [rest]: the buffer and the unread bytes together are what is
    left of the garbage [g], then the packet, then [rest]; the loop waits
    for the minimum envelope or, once the garbage is gone, for the packet;
    and the deadline is further away than the bursts still to land. *)
Definition resync_inv (packet rest rxpacket : list Z) (wait_length : nat)
  (p : PortHandler) : Prop :=
  ∃ g, has_false_header g = false
       ∧ rxpacket ++ pending p = g ++ packet ++ rest
       ∧ (length rxpacket <= wait_length)%nat
       ∧ (wait_length = 6%nat ∨ wait_length = length packet ∧ g = [])
       ∧ serial_fd_ p ≠ -1
       ∧ (length (rx_line p) <= deadline_polls p)%nat.

(** Invariant of the loop of [rxPacket] on a [stream] in which the first
    sync pair with an accepted header begins at [i]: the loop has discarded
    no more than the [i] bytes before it, and once it has awaited anything
    but the minimum envelope its buffer begins with that header. *)
Definition locked_inv (stream : list Z) (i : nat) (rxpacket : list Z)
  (wait_length : nat) (p : PortHandler) : Prop :=
  ∃ k, (k <= i)%nat
       ∧ rxpacket ++ pending p = drop k stream
       ∧ (6 <= wait_length ∨ k = i ∧ 5 <= length rxpacket)%nat.

(** Invariant of the loop of [rxPacket] when the device has sent the first
    [k] bytes of [packet] and sends nothing more: buffer and receive queue
    together are those bytes. *)
Definition partial_inv (packet : list Z) (k : nat) (rxpacket : list Z)
  (wait_length : nat) (p : PortHandler) : Prop :=
  rxpacket ++ rx_fifo p = take k packet
  ∧ rx_line p = []
  ∧ serial_fd_ p ≠ -1
  ∧ (length rxpacket <= wait_length)%nat
  ∧ (wait_length = 6%nat ∨ wait_length = length packet).


Fixpoint z_range (from : Z) (count : nat) : list Z :=
  match count with
  | O => []
  | S count' => from :: z_range (from + 1) count'
  end.

Definition int16_values : list Z := z_range (-32768) (Z.to_nat 65536).

(** The register value carried by a two-byte payload, once decoded, is
    [value]. *)
Definition reads_back (payload : outcome (list Z)) (decode : Z → Z)
  (value : Z) : bool :=
  match payload with
  | Ok [lo; hi] => decode (makeWord 0 lo hi) =? value
  | _ => false
  end.

(** Bounds the loop of [rxPacket] keeps: the buffer and the awaited length
    stay within a packet, and the awaited length is at least the minimum
    envelope unless the header just read declared less than the buffer
    holds. *)
Definition rx_bounds (rxpacket : list Z) (wait_length : nat) : Prop :=
  (length rxpacket <= 254)%nat ∧ (wait_length <= 254)%nat
  ∧ (6 <= wait_length ∨ wait_length < length rxpacket)%nat.

(** The codes a reception can end with. *)
Definition reception_result (result : Z) : Prop :=
  result = COMM_SUCCESS ∨ result = COMM_RX_TIMEOUT ∨ result = COMM_RX_CORRUPT.

(** What the port looks like after a transmission that went through. *)
Definition after_write (frame : list Z) (p p1 : PortHandler) : Prop :=
  serial_fd_ p1 = serial_fd_ p
  ∧ is_using_ p1 = true
  ∧ rx_fifo p1 = []
  ∧ rx_line p1 = rx_line p
  ∧ deadline_polls p1 = deadline_polls p
  ∧ timer_script p1 = timer_script p
  ∧ tx_accept p1 = tl (tx_accept p)
  ∧ io_log p1
    = EvWrite frame (Z.of_nat (length frame)) :: EvFlush :: io_log p.




(** The frame of a write instruction: sync bytes, address of the device,
    length, [INST_WRITE], register address, the data, checksum. *)
Definition write_frame (sts_id address : Z) (data : list Z) : list Z :=
  let body :=
    sts_id :: Z.of_nat (length data) + 3 :: INST_WRITE :: address :: data in
  255 :: 255 :: body ++ [Z.land (Z.lnot (sum_bytes body)) 255].

(** The parameter block of a sync write: each address followed by its
    payload. *)
Definition param_block (entries : list (Z * list Z)) : list Z :=
  flat_map (λ e, e.1 :: e.2) entries.

(** A sync header for [sts_id], 0xFF 0xFF [sts_id], occurs in [bytes]. *)
Fixpoint has_header (bytes : list Z) (sts_id : Z) : bool :=
  match bytes with
  | a :: (b :: c :: _) as rest =>
      (a =? 255) && (b =? 255) && (c =? sts_id) || has_header rest sts_id
  | _ => false
  end.

(** What [headpacket] holds in [readRx]: zeros, or the last bytes read. *)
Definition head_inv (rxpacket : list Z) (rx_index : nat) (h1 h0 : Z) : Prop :=
  (h0 = 0 ∨ (1 <= rx_index)%nat ∧ rxpacket !! (rx_index - 1)%nat = Some h0)
  ∧ (h1 = 0 ∨ (2 <= rx_index)%nat ∧ rxpacket !! (rx_index - 2)%nat = Some h1).

(** A stored reply is empty or holds the error byte and [data_length] data
    bytes. *)
Definition reply_ok (data_length : Z) (stored_data : list Z) : Prop :=
  stored_data = [] ∨ Z.of_nat (length stored_data) = data_length + 1.

Definition stored_ok (g : SyncRead.GroupSyncRead) : Prop :=
  map_Forall (λ _, reply_ok (SyncRead.data_length_ g))
             (SyncRead.data_dict_ g).

(** ** Example environments *)

(** An open, free port on a silent line. *)
Definition idle_port : PortHandler := mkPort 3 false [] [] [] 0 [] [].

(** A silent line whose deadline passes after two polls. *)
Definition silent_port : PortHandler := mkPort 3 true [] [] [] 2 [] [].

(** A device that stops after three bytes of its reply. *)
Definition stalled_port : PortHandler :=
  mkPort 3 true [] [[255; 255; 1]] [] 1 [] [].

(** Three bytes of noise, the last one 0xFF, run into the reply of device 1,
    which lands in two bursts. *)
Definition noisy_port : PortHandler :=
  mkPort 3 true [] [[1; 2; 255; 255]; [255; 1; 2; 0; 252]] [] 2 [] [].

(** A port whose next write takes only four bytes. *)
Definition reluctant_port : PortHandler := mkPort 3 false [] [] [4] 0 [] [].

(** A port in the middle of somebody else's transaction. *)
Definition busy_port : PortHandler := mkPort 3 true [] [] [] 0 [] [].

(** Device 1 answers the ping, then answers the read of its model number
    with the word 0. *)
Definition model_zero_port : PortHandler :=
  mkPort 3 false []
    [[255; 255; 1; 2; 0; 252]; [255; 255; 1; 4; 0; 0; 0; 250]]
    [] 0 [5%nat; 5%nat] [].

(** Device 1 answers the ping, then answers the read of its model number
    with the word 0x0101. *)
Definition model_0101_port : PortHandler :=
  mkPort 3 false []
    [[255; 255; 1; 2; 0; 252]; [255; 255; 1; 4; 0; 1; 1; 248]]
    [] 0 [5%nat; 5%nat] [].

(** Six bytes of noise that look like the header of a 244-byte packet,
    followed by the reply of device 1. *)
Definition false_sync_port : PortHandler :=
  mkPort 3 true [255; 255; 1; 240; 0; 0; 255; 255; 1; 2; 0; 252] [] [] 0 [] [].

(** Six bytes of noise that are a complete frame with an acceptable header
    and a wrong checksum, followed by the reply of device 1. *)
Definition false_header_port : PortHandler :=
  mkPort 3 true [255; 255; 1; 2; 0; 0; 255; 255; 1; 2; 0; 252] [] [] 0 [] [].

(** Noise that holds a sync pair with an address no device can have and
    ends in a single 0xFF, run into the reply of device 1, which lands in
    two bursts. *)
Definition rejected_header_port : PortHandler :=
  mkPort 3 true []
    [[255; 255; 254; 0; 0; 255; 255]; [255; 1; 2; 0; 252]] [] 2 [] [].



Definition ping_packet : list Z := [0; 0; 1; 2; 1; 0].

(** A vector two bytes longer than the packet its length byte declares. *)
Definition oversized_packet : list Z := [0; 0; 1; 2; 1; 0; 9; 9].
Definition broadcast_packet : list Z := [0; 0; 254; 2; 5; 0].

(** A sync-write session of two-byte payloads that holds device 1. *)
Definition two_byte_session : GroupSyncWrite :=
  mkGroupSyncWrite 42 2 false [] (<[1 := [0; 8]]> ∅).

(** Device 1 answers a two-byte read with the bytes 0 and 8, in two
    bursts; two stale bytes wait in the receive queue. *)
Definition read_reply_port : PortHandler :=
  mkPort 3 false [9; 9] [[255; 255; 1; 4; 0]; [0; 8; 242]] [] 0 [5%nat] [].

(** Device 2 answers a request that was meant for somebody else. *)
Definition other_device_port : PortHandler :=
  mkPort 3 false [] [[255; 255; 2; 2; 0; 251]] [] 0 [5%nat] [].

(** A bus on which device 1, of model 0x0101, is the only one to answer a
    scan. *)
Definition one_servo_bus : PortHandler :=
  mkPort 3 false []
    [[]; [255; 255; 1; 2; 0; 252]; [255; 255; 1; 4; 0; 1; 1; 248]]
    [] 0 [0%nat; 5%nat; 5%nat] [].

(** A sync-write session of two-byte payloads for devices 1 and 2, built
    with [addParam]. *)
Definition two_device_session : GroupSyncWrite :=
  (addParam 2 [3; 4]
     (addParam 1 [1; 2] (mkGroupSyncWrite 42 2 false [] ∅)).2).2.

(** A sync-read session of two data bytes from address 56 that holds the
    reply of device 1 and still waits for device 2. *)
Definition read_session : SyncRead.GroupSyncRead :=
  SyncRead.mkGroupSyncRead 56 2 true true []
    (<[1 := [0; 0; 8]]> (<[2 := []]> ∅)).

(** Two bytes of noise, then the reply of device 1 to a two-byte read. *)
Definition sync_read_buffer : list Z :=
  [7; 255; 255; 255; 1; 4; 0; 0; 8; 242].

Arguments at_ : simpl never.
Arguments set_at : simpl never.
Arguments readPort : simpl never.
Arguments writePort : simpl never.
Arguments clearPort : simpl never.
Arguments setUsing : simpl never.
Arguments setPacketTimeout : simpl never.
Arguments isPacketTimeout : simpl never.

(** ** Vectors, checksums and the outcome monad *)

Lemma at_Ok (v : list Z) (i : nat) (x : Z) : v !! i = Some x → at_ v i = Ok x.
Proof. intros H. unfold at_. by rewrite H. Qed.

Lemma at_Ok_inv (v : list Z) (i : nat) (x : Z) : at_ v i = Ok x → v !! i = Some x.
Proof. unfold at_. destruct (v !! i); intros; simplify_eq; done. Qed.

Lemma set_at_Ok (v : list Z) (i : nat) (x : Z) :
  (i < length v)%nat → set_at v i x = Ok (<[i := x]> v).
Proof. intros H. unfold set_at. by rewrite (proj2 (Nat.ltb_lt _ _) H). Qed.

Lemma set_at_Ok_inv (v v' : list Z) (i : nat) (x : Z) :
  set_at v i x = Ok v' → (i < length v)%nat ∧ v' = <[i := x]> v.
Proof.
  unfold set_at. destruct (Nat.ltb_spec i (length v)); intros; by simplify_eq.
Qed.

Lemma bind_Ok_inv {A B} (m : outcome A) (f : A → outcome B) (b : B) :
  m ≫= f = Ok b → ∃ a, m = Ok a ∧ f a = Ok b.
Proof. destruct m; simpl; intros; simplify_eq; eauto. Qed.

Lemma bind_fuel {A B} (m : outcome A) (f : A → outcome B) :
  m ≠ OutOfFuel → (∀ a, f a ≠ OutOfFuel) → m ≫= f ≠ OutOfFuel.
Proof. destruct m; simpl; eauto. Qed.

(** Facts of the form "this call does not run out of fuel". *)
Create HintDb fuel.

(** Peel one bind: the first computation by a known fact, the rest is left
    as the goal. *)
Ltac fuel_step := apply bind_fuel; [solve [eauto with fuel]|intros].

Lemma at_fuel (v : list Z) (i : nat) : at_ v i ≠ OutOfFuel.
Proof. unfold at_. by destruct (_ !! _). Qed.

Lemma set_at_fuel (v : list Z) (i : nat) (x : Z) : set_at v i x ≠ OutOfFuel.
Proof. unfold set_at. by destruct (_ <? _)%nat. Qed.

#[global] Hint Resolve at_fuel set_at_fuel : fuel.

(** The checksum loop adds up the bytes it is pointed at, modulo 256. *)
Lemma checksum_loop_sum (v : list Z) (count idx : nat) (c : Z) :
  (idx + count <= length v)%nat →
  0 <= c < 256 →
  checksum_loop v idx count c
  = Ok ((c + sum_bytes (take count (drop idx v))) mod 256).
Proof.
  revert idx c. induction count as [|count IH]; intros idx c Hlen Hc.
  - simpl. rewrite Z.add_0_r, Z.mod_small by lia. done.
  - destruct (lookup_lt_is_Some_2 v idx) as [b Hb]; [lia|].
    simpl. rewrite (at_Ok _ _ _ Hb). simpl.
    rewrite IH; [|lia|unfold to_uint8; apply Z.mod_pos_bound; lia].
    rewrite (drop_S _ _ _ Hb). simpl. unfold to_uint8.
    f_equal. rewrite Zplus_mod_idemp_l. f_equal. lia.
Qed.

Lemma checksum_loop_fuel (v : list Z) (count idx : nat) (c : Z) :
  checksum_loop v idx count c ≠ OutOfFuel.
Proof.
  revert idx c. induction count as [|count IH]; intros idx c; simpl; [done|].
  unfold at_. destruct (v !! idx); simpl; [apply IH|done].
Qed.

#[global] Hint Resolve checksum_loop_fuel : fuel.

(** Truncating the sum before or after complementing it gives the same
    byte. *)
Lemma lnot_land_255_mod (s : Z) :
  Z.land (Z.lnot (s mod 256)) 255 = Z.land (Z.lnot s) 255.
Proof.
  change 255 with (Z.ones 8). rewrite !Z.land_ones by lia.
  unfold Z.lnot. change (2 ^ 8) with 256.
  replace (Z.pred (- s)) with (Z.pred (- (s mod 256)) + (- (s / 256)) * 256)
    by (pose proof (Z_div_mod_eq_full s 256); lia).
  by rewrite Z_mod_plus_full.
Qed.

Lemma split_last_byte (rest : list Z) (k : nat) :
  length rest = S k → ∃ z, rest = take k rest ++ [z].
Proof.
  intros Hlen. pose proof (take_drop k rest) as Hsplit.
  pose proof (length_drop rest k) as Hd.
  destruct (drop k rest) as [|z [|z' tl]]; simpl in Hd; try lia.
  by exists z.
Qed.

Lemma insert_last_byte (rest body : list Z) (z c : Z) :
  rest = body ++ [z] → <[length body := c]> rest = body ++ [c].
Proof.
  intros ->. rewrite insert_app_r_alt by lia. by rewrite Nat.sub_diag.
Qed.

(** ** txPacket *)

(** On a free port, a vector of declared length + 4 bytes that fits the
    maximum is framed and written; the result depends only on what the
    write reports. *)
Lemma txPacket_frame (txpacket : list Z) (p : PortHandler) (len : Z) :
  txpacket !! PKT_LENGTH = Some len →
  Z.of_nat (length txpacket) = len + 4 →
  len + 4 <= TXPACKET_MAX_LEN →
  is_using_ p = false →
  txPacket txpacket p
  = let frame := instruction_frame txpacket len in
    let '(written, p1) := writePort frame (clearPort (setUsing true p)) in
    if negb (len + 4 =? written)
    then Ok (COMM_TX_FAIL, frame, setUsing false p1)
    else Ok (COMM_SUCCESS, frame, p1).
Proof.
  intros Hlen Hsize Hfit Hfree.
  assert (0 <= len) as Hlen0.
  { apply lookup_lt_Some in Hlen. unfold PKT_LENGTH in Hlen. lia. }
  destruct txpacket as [|h0 [|h1 rest]]; cbn [length] in Hsize; try lia.
  assert (length rest = S (Z.to_nat len + 1)) as Hrest by lia.
  destruct (split_last_byte rest _ Hrest) as [z Hz].
  unfold instruction_frame.
  change (drop 2 (h0 :: h1 :: rest)) with rest.
  set (body := take (Z.to_nat len + 1) rest) in *.
  assert (length body = (Z.to_nat len + 1)%nat) as Hbody.
  { unfold body. rewrite length_take. lia. }
  unfold txPacket. rewrite (at_Ok _ _ _ Hlen). simpl.
  unfold isUsing. rewrite Hfree.
  replace (TXPACKET_MAX_LEN <? Z.of_nat (Z.to_nat (len + 4))) with false
    by (symmetry; apply Z.ltb_ge; lia).
  replace (Z.to_nat (len + 4) - 1 - 2)%nat with (Z.to_nat len + 1)%nat by lia.
  rewrite checksum_loop_sum by (simpl; lia).
  change (drop 2 (255 :: 255 :: rest)) with rest. fold body. simpl.
  rewrite lnot_land_255_mod.
  replace (Z.to_nat (len + 4) - 1)%nat with (S (S (length body))) by lia.
  rewrite set_at_Ok by (simpl; lia). simpl.
  rewrite (insert_last_byte rest body z _ Hz).
  by rewrite Z2Nat.id by lia.
Qed.

Lemma instruction_frame_length (txpacket : list Z) (len : Z) :
  0 <= len →
  Z.of_nat (length txpacket) = len + 4 →
  length (instruction_frame txpacket len) = length txpacket.
Proof.
  intros H0 H. unfold instruction_frame. simpl.
  rewrite length_app, length_take, length_drop. simpl. lia.
Qed.

Lemma writePort_report (frame : list Z) (p : PortHandler) (b : bool) :
  (writePort frame (clearPort (setUsing b p))).1
  = write_report (length frame) p.
Proof.
  unfold write_report, writePort, clearPort, setUsing. simpl.
  rewrite length_replicate.
  destruct (serial_fd_ p =? -1) eqn:Hfd; simpl; rewrite Hfd; simpl; [done|].
  by destruct (length frame =? 0)%nat.
Qed.

Lemma txPacket_keeps_id (txpacket sent : list Z) (p p1 : PortHandler) :
  Forall is_byte txpacket →
  txPacket txpacket p = Ok (COMM_SUCCESS, sent, p1) →
  sent !! PKT_ID = txpacket !! PKT_ID.
Proof.
  intros Hbytes H. unfold txPacket in H.
  apply bind_Ok_inv in H as (len & Hlen & H). apply at_Ok_inv in Hlen.
  assert (0 <= len) as Hlen0.
  { rewrite Forall_lookup in Hbytes. apply (Hbytes _ _ Hlen). }
  cbv zeta in H. destruct (isUsing p); [done|].
  destruct (_ <? _); [done|].
  apply bind_Ok_inv in H as (tx1 & H1 & H). apply set_at_Ok_inv in H1 as [_ ->].
  apply bind_Ok_inv in H as (tx2 & H2 & H). apply set_at_Ok_inv in H2 as [_ ->].
  apply bind_Ok_inv in H as (c & _ & H).
  apply bind_Ok_inv in H as (tx3 & H3 & H). apply set_at_Ok_inv in H3 as [_ ->].
  destruct (writePort _ _) as [written p2].
  destruct (negb _); simplify_eq.
  unfold PKT_ID, PKT_HEADER_0, PKT_HEADER_1.
  rewrite !list_lookup_insert_ne by lia. done.
Qed.

Lemma txPacket_terminates (txpacket : list Z) (p : PortHandler) :
  txPacket txpacket p ≠ OutOfFuel.
Proof.
  unfold txPacket. fuel_step. cbv zeta.
  destruct (isUsing p); [done|]. destruct (_ <? _); [done|].
  do 4 fuel_step.
  destruct (writePort _ _). by destruct (negb _).
Qed.

#[global] Hint Resolve txPacket_terminates : fuel.

(** C1.  Wire format of a transmitted instruction packet.  Take a vector
    that is an instruction packet (its size is the declared length + 4) whose
    declared length fits [TXPACKET_MAX_LEN], on an open port that is not in
    use.  Then [txPacket] returns, the packet it hands to the port is logged
    as written, and that packet is the two sync bytes 0xFF 0xFF, then the
    bytes from the address through the last parameter unchanged, then one
    final byte: the bitwise complement of the sum of those bytes, truncated
    to 8 bits. *)
Theorem txPacket_wire_format (txpacket : list Z) (p : PortHandler) (len : Z) :
  txpacket !! PKT_LENGTH = Some len →
  Z.of_nat (length txpacket) = len + 4 →
  len + 4 <= TXPACKET_MAX_LEN →
  is_using_ p = false →
  serial_fd_ p ≠ -1 →
  let body := take (Z.to_nat len + 1) (drop 2 txpacket) in
  let frame := 255 :: 255 :: body ++ [Z.land (Z.lnot (sum_bytes body)) 255] in
  ∃ result accepted p',
    txPacket txpacket p = Ok (result, frame, p')
    ∧ io_log p' = EvWrite frame accepted :: EvFlush :: io_log p.
Proof.
  intros Hlen Hsize Hfit Hfree Hopen body frame.
  rewrite (txPacket_frame _ _ _ Hlen Hsize Hfit Hfree).
  fold body. unfold instruction_frame. fold body frame. cbv zeta.
  unfold writePort, clearPort, setUsing. simpl.
  destruct (serial_fd_ p =? -1) eqn:Hfd; [apply Z.eqb_eq in Hfd; done|].
  simpl. rewrite Hfd. simpl.
  destruct (negb _); eexists _, _, _; (split; [reflexivity|reflexivity]).
Qed.

Lemma txPacket_wire_format_witness :
  ping_packet !! PKT_LENGTH = Some 2
  ∧ Z.of_nat (length ping_packet) = 2 + 4
  ∧ is_using_ idle_port = false
  ∧ ∃ result accepted p',
      txPacket ping_packet idle_port
      = Ok (result, [255; 255; 1; 2; 1; 251], p')
      ∧ io_log p'
        = EvWrite [255; 255; 1; 2; 1; 251] accepted :: EvFlush
          :: io_log idle_port.
Proof.
  split; [reflexivity|]. split; [reflexivity|]. split; [reflexivity|].
  apply (txPacket_wire_format ping_packet idle_port 2);
    try reflexivity; vm_compute; discriminate.
Defined.

(** A vector longer than its length byte declares is written whole: the
    checksum sits where the declared length puts it, the surplus bytes follow
    it on the wire, and the byte count [write] reports is compared with the
    declared total, so the call ends in [COMM_TX_FAIL] although every byte
    was accepted. *)
Lemma txPacket_oversized_vector :
  ∃ p', txPacket oversized_packet idle_port
          = Ok (COMM_TX_FAIL, [255; 255; 1; 2; 1; 251; 9; 9], p')
        ∧ io_log p' = [EvWrite [255; 255; 1; 2; 1; 251; 9; 9] 8; EvFlush].
Proof. eexists. split; reflexivity. Qed.

(** C4.  Transmission fails closed.  For a vector with a length byte: if
    the busy flag is set when [txPacket] is called, it returns
    [COMM_PORT_BUSY] and leaves the port as it found it, so nothing is
    written and nothing is logged; and if the flag is clear, the vector is an
    instruction packet that fits the maximum, and the write reports fewer
    bytes than the packet has, it returns [COMM_TX_FAIL] with the busy flag
    cleared. *)
Theorem txPacket_fails_closed (txpacket : list Z) (p : PortHandler) (len : Z) :
  txpacket !! PKT_LENGTH = Some len →
  (is_using_ p = true →
   txPacket txpacket p = Ok (COMM_PORT_BUSY, txpacket, p))
  ∧ (is_using_ p = false →
     Z.of_nat (length txpacket) = len + 4 →
     len + 4 <= TXPACKET_MAX_LEN →
     write_report (length txpacket) p < Z.of_nat (length txpacket) →
     ∃ sent p',
       txPacket txpacket p = Ok (COMM_TX_FAIL, sent, p')
       ∧ is_using_ p' = false).
Proof.
  intros Hlen. split.
  - intros Hbusy. unfold txPacket. rewrite (at_Ok _ _ _ Hlen). simpl.
    unfold isUsing. by rewrite Hbusy.
  - intros Hfree Hsize Hfit Hshort.
    rewrite (txPacket_frame _ _ _ Hlen Hsize Hfit Hfree). cbv zeta.
    pose proof (writePort_report (instruction_frame txpacket len) p true) as Hw.
    rewrite instruction_frame_length in Hw;
      [|apply lookup_lt_Some in Hlen; unfold PKT_LENGTH in Hlen; lia|done].
    destruct (writePort _ _) as [written p1]. simpl in Hw.
    destruct (len + 4 =? written) eqn:E; [apply Z.eqb_eq in E; lia|].
    simpl. eauto.
Qed.

Lemma txPacket_fails_closed_witness :
  txPacket ping_packet busy_port = Ok (COMM_PORT_BUSY, ping_packet, busy_port)
  ∧ write_report (length ping_packet) reluctant_port = 4
  ∧ ∃ sent p',
      txPacket ping_packet reluctant_port = Ok (COMM_TX_FAIL, sent, p')
      ∧ is_using_ p' = false.
Proof.
  split.
  - apply (txPacket_fails_closed ping_packet busy_port 2); reflexivity.
  - split; [reflexivity|].
    apply (txPacket_fails_closed ping_packet reluctant_port 2);
      try reflexivity; vm_compute; (reflexivity || discriminate).
Defined.

(** ** rxPacket: one pass through the loop *)

Lemma header_scan_range (v : list Z) (count idx i : nat) :
  header_scan v idx count = Ok i → (idx <= i <= idx + count)%nat.
Proof.
  revert idx. induction count as [|count IH]; intros idx H; simpl in H.
  - simplify_eq. lia.
  - apply bind_Ok_inv in H as (a & _ & H).
    destruct (a =? 255).
    + apply bind_Ok_inv in H as (b & _ & H).
      destruct (b =? 255); [simplify_eq; lia|]. apply IH in H. lia.
    + apply IH in H. lia.
Qed.

Lemma header_scan_found (v : list Z) (count idx i : nat) :
  header_scan v idx count = Ok i → (i < idx + count)%nat →
  v !! i = Some 255 ∧ v !! S i = Some 255.
Proof.
  revert idx. induction count as [|count IH]; intros idx H Hlt; simpl in H.
  - simplify_eq. lia.
  - apply bind_Ok_inv in H as (a & Ha & H). apply at_Ok_inv in Ha.
    destruct (a =? 255) eqn:Ea.
    + apply bind_Ok_inv in H as (b & Hb & H). apply at_Ok_inv in Hb.
      destruct (b =? 255) eqn:Eb.
      * apply Z.eqb_eq in Ea, Eb. simplify_eq. done.
      * apply IH in H; [done|lia].
    + apply IH in H; [done|lia].
Qed.

Lemma header_scan_skipped (v : list Z) (count idx i j : nat) :
  header_scan v idx count = Ok i → (idx <= j < i)%nat →
  ¬ (v !! j = Some 255 ∧ v !! S j = Some 255).
Proof.
  revert idx. induction count as [|count IH]; intros idx H Hj; simpl in H.
  - simplify_eq. lia.
  - apply bind_Ok_inv in H as (a & Ha & H). apply at_Ok_inv in Ha.
    destruct (a =? 255) eqn:Ea.
    + apply bind_Ok_inv in H as (b & Hb & H). apply at_Ok_inv in Hb.
      destruct (b =? 255) eqn:Eb; [simplify_eq; lia|].
      destruct (decide (j = idx)) as [->|Hne].
      * intros [_ Hp]. rewrite Hb in Hp. apply Z.eqb_neq in Eb. congruence.
      * apply (IH _ H). lia.
    + destruct (decide (j = idx)) as [->|Hne].
      * intros [Hp _]. rewrite Ha in Hp. apply Z.eqb_neq in Ea. congruence.
      * apply (IH _ H). lia.
Qed.

Lemma header_scan_fuel (v : list Z) (count idx : nat) :
  header_scan v idx count ≠ OutOfFuel.
Proof.
  revert idx. induction count as [|count IH]; intros idx; simpl; [done|].
  unfold at_. destruct (v !! idx) as [a|]; simpl; [|done].
  destruct (a =? 255); [|apply IH].
  destruct (v !! S idx) as [b|]; simpl; [|done].
  destruct (b =? 255); [done|apply IH].
Qed.

Lemma readPort_fuel (length_ : Z) (p : PortHandler) :
  readPort length_ p ≠ OutOfFuel.
Proof.
  unfold readPort. destruct (_ <? _); [done|]. by destruct (_ && _).
Qed.

#[global] Hint Resolve header_scan_fuel readPort_fuel : fuel.

Lemma header_scan_total (v : list Z) (count idx : nat) :
  (idx + count < length v)%nat → ∃ i, header_scan v idx count = Ok i.
Proof.
  revert idx. induction count as [|count IH]; intros idx Hlen; simpl; [eauto|].
  destruct (lookup_lt_is_Some_2 v idx) as [a Ha]; [lia|].
  destruct (lookup_lt_is_Some_2 v (S idx)) as [b Hb]; [lia|].
  rewrite (at_Ok _ _ _ Ha). simpl.
  destruct (a =? 255); [|apply IH; lia].
  rewrite (at_Ok _ _ _ Hb). simpl.
  destruct (b =? 255); [eauto|apply IH; lia].
Qed.

Lemma header_locked_intro (v : list Z) (w : nat) (id len err : Z) :
  v !! 0%nat = Some 255 → v !! 1%nat = Some 255 →
  v !! PKT_ID = Some id → v !! PKT_LENGTH = Some len →
  v !! PKT_ERROR = Some err →
  (253 <? id) = false → (RXPACKET_MAX_LEN <? len) = false →
  (127 <? err) = false →
  w = Z.to_nat (len + Z.of_nat PKT_LENGTH + 1) →
  header_locked v w = true.
Proof.
  intros H0 H1 H2 H3 H4 Hid Hlen Herr ->.
  destruct v as [|b0 [|b1 [|b2 [|b3 [|b4 tl]]]]]; try done.
  unfold PKT_ID, PKT_LENGTH, PKT_ERROR in *. simpl in *. simplify_eq.
  rewrite Hid, Hlen, Herr. simpl. by rewrite Nat.eqb_refl.
Qed.

Lemma header_locked_elim (v : list Z) (w : nat) :
  header_locked v w = true →
  ∃ id len err tl,
    v = 255 :: 255 :: id :: len :: err :: tl
    ∧ id <= 253 ∧ len <= RXPACKET_MAX_LEN ∧ err <= 127
    ∧ w = Z.to_nat (len + Z.of_nat PKT_LENGTH + 1).
Proof.
  destruct v as [|b0 [|b1 [|b2 [|b3 [|b4 tl]]]]]; try done.
  simpl. rewrite !andb_true_iff, !negb_true_iff.
  intros [[[[[H0 H1] Hid] Hlen] Herr] Hw].
  apply Z.eqb_eq in H0, H1. apply Z.ltb_ge in Hid, Hlen, Herr.
  apply Nat.eqb_eq in Hw. subst. eauto 10.
Qed.

Lemma header_locked_app (v new_data : list Z) (w : nat) :
  header_locked v w = true → header_locked (v ++ new_data) w = true.
Proof.
  intros H. pose proof H as H'.
  apply header_locked_elim in H' as (id & len & err & tl & -> & _).
  exact H.
Qed.

Lemma header_locked_exact (v : list Z) (w w' : nat) :
  header_locked v w = true → header_locked v w' = true → w = w'.
Proof.
  intros H H'.
  apply header_locked_elim in H as (id & len & err & tl & -> & _ & _ & _ & ->).
  apply header_locked_elim in H' as (? & ? & ? & ? & ? & _ & _ & _ & ->).
  by simplify_eq.
Qed.

Lemma header_locked_scan (v : list Z) (w count : nat) :
  header_locked v w = true → header_scan v 0 (S count) = Ok 0%nat.
Proof.
  intros H.
  by apply header_locked_elim in H as (id & len & err & tl & -> & _).
Qed.

Lemma header_locked_length (v : list Z) (w : nat) :
  header_locked v w = true → (5 <= length v)%nat.
Proof.
  intros H.
  apply header_locked_elim in H as (id & len & err & tl & -> & _).
  simpl. lia.
Qed.

Lemma header_locked_prefix (v queue full : list Z) (w : nat) :
  v ++ queue = full → (5 <= length v)%nat →
  header_locked full w = true → header_locked v w = true.
Proof.
  intros Hfull H5 Hlock. pose proof Hlock as Hl.
  apply header_locked_elim in Hl as (id & len & err & tl & -> & _).
  destruct v as [|b0 [|b1 [|b2 [|b3 [|b4 v]]]]]; simpl in H5; try lia.
  simpl in Hfull. by simplify_eq.
Qed.

(** What a [readPort] that returns leaves behind. *)
Lemma readPort_spec (length_ : Z) (p p1 : PortHandler) (new_data : list Z) :
  readPort length_ p = Ok (new_data, p1) →
  new_data ++ pending p1 = pending p
  ∧ deadline_polls p1 = deadline_polls p
  ∧ serial_fd_ p1 = serial_fd_ p
  ∧ is_using_ p1 = is_using_ p
  ∧ tx_accept p1 = tx_accept p
  ∧ timer_script p1 = timer_script p
  ∧ (0 <= length_ → Z.of_nat (length new_data) <= length_)
  ∧ (p1 = p ∧ new_data = []
     ∨ ∃ n, io_log p1 = EvRead n new_data :: io_log p).
Proof.
  unfold readPort. intros H.
  destruct (VECTOR_MAX_SIZE <? length_); [done|].
  destruct (negb (serial_fd_ p =? -1) && (0 <? length_)) eqn:Hgo;
    simplify_eq; simpl.
  - split_and!; eauto.
    + unfold pending. simpl.
      rewrite app_assoc, take_drop.
      destruct (rx_line p); simpl; by rewrite <- ?app_assoc, ?app_nil_r.
    + intros Hl. rewrite length_take. lia.
  - split_and!; eauto.
Qed.

Lemma readPort_total (length_ : Z) (p : PortHandler) :
  length_ <= VECTOR_MAX_SIZE → ∃ new_data p1, readPort length_ p = Ok (new_data, p1).
Proof.
  intros H. unfold readPort.
  destruct (VECTOR_MAX_SIZE <? length_) eqn:E; [apply Z.ltb_lt in E; lia|].
  destruct (_ && _); eauto.
Qed.

Lemma size_sub_le (a b : nat) :
  (b <= a)%nat → Z.of_nat a < SIZE_MOD → size_sub a b = Z.of_nat (a - b).
Proof.
  intros Hle Hlt. unfold size_sub. rewrite Z.mod_small; lia.
Qed.

(** Every pass through the loop body is one of the six cases. *)
Lemma rx_body_cases (rxpacket : list Z) (wait_length : nat) (p : PortHandler)
  (step : rx_step) :
  rx_body rxpacket wait_length p = Ok step →
  rx_body_case rxpacket wait_length p step.
Proof.
  unfold rx_body. intros H.
  apply bind_Ok_inv in H as ([new_data p1] & Hread & H).
  cbv zeta in H. remember (rxpacket ++ new_data) as rx1 eqn:Hrx1.
  destruct (wait_length <=? length rx1)%nat eqn:Hw.
  - apply Nat.leb_le in Hw.
    apply bind_Ok_inv in H as (idx & Hscan & H).
    destruct (idx =? 0)%nat eqn:Hidx.
    + apply Nat.eqb_eq in Hidx. subst idx.
      apply bind_Ok_inv in H as (id & Hid & H). apply at_Ok_inv in Hid.
      apply bind_Ok_inv in H as (invalid & Hinv & H).
      assert (3 <= length rx1)%nat as Hlen3.
      { apply lookup_lt_Some in Hid. unfold PKT_ID in Hid. lia. }
      destruct (header_scan_found _ _ _ _ Hscan) as [Hh0 Hh1]; [lia|].
      destruct invalid.
      * assert (∀ w, header_locked rx1 w = false) as Hbad; last first.
        { destruct rx1 as [|h0 rest]; [done|]. simplify_eq.
          rewrite Hrx1 in *. eapply RxReject; eauto. }
        intros w. destruct (header_locked rx1 w) eqn:E; [exfalso|done].
        apply header_locked_elim in E
          as (id' & len' & err' & tl & Hv & Hid' & Hlen' & Herr' & _).
        rewrite Hv in Hid, Hinv. unfold PKT_ID in Hid. simpl in Hid.
        simplify_eq.
        destruct (253 <? id) eqn:E1; [apply Z.ltb_lt in E1; lia|].
        apply bind_Ok_inv in Hinv as (len & Hl & Hinv).
        apply at_Ok_inv in Hl. unfold PKT_LENGTH in Hl. simpl in Hl.
        simplify_eq.
        destruct (RXPACKET_MAX_LEN <? len) eqn:E2;
          [apply Z.ltb_lt in E2; lia|].
        apply bind_Ok_inv in Hinv as (err & He & Hinv).
        apply at_Ok_inv in He. unfold PKT_ERROR in He. simpl in He.
        simplify_eq. apply Z.ltb_lt in Hinv. lia.
      * destruct (253 <? id) eqn:E1; [done|].
        apply bind_Ok_inv in Hinv as (len & Hl & Hinv).
        apply at_Ok_inv in Hl.
        destruct (RXPACKET_MAX_LEN <? len) eqn:E2; [done|].
        apply bind_Ok_inv in Hinv as (err & He & Hinv).
        apply at_Ok_inv in He.
        assert ((127 <? err) = false) as E3 by (by simplify_eq).
        apply bind_Ok_inv in H as (len2 & Hl2 & H). apply at_Ok_inv in Hl2.
        simplify_eq. cbv zeta in H.
        set (exact := Z.to_nat (len + Z.of_nat PKT_LENGTH + 1)) in *.
        destruct (wait_length =? exact)%nat eqn:Hex; simpl in H.
        -- apply Nat.eqb_eq in Hex.
           destruct (length (rxpacket ++ new_data) <? wait_length)%nat eqn:Hdead.
           { apply Nat.ltb_lt in Hdead. lia. }
           apply bind_Ok_inv in H as (checksum & Hsum & H).
           apply bind_Ok_inv in H as (last_byte & Hlast & H).
           apply at_Ok_inv in Hlast. simplify_eq.
           eapply RxChecked; eauto.
           eapply header_locked_intro; eauto.
        -- apply Nat.eqb_neq in Hex. simplify_eq.
           eapply RxResize; eauto.
           eapply header_locked_intro; eauto.
    + apply Nat.eqb_neq in Hidx. simplify_eq. eapply RxSkip; eauto.
  - apply Nat.leb_gt in Hw.
    destruct (isPacketTimeout p1) as [expired p2] eqn:Hto.
    unfold isPacketTimeout in Hto.
    destruct (deadline_polls p1) as [|n] eqn:Hpolls; simplify_eq.
    + replace (mkPort _ _ _ _ _ _ _ _) with (isPacketTimeout p1).2
        by (unfold isPacketTimeout; by rewrite Hpolls).
      eapply RxDeadline; eauto.
    + replace (mkPort _ _ _ _ _ _ _ _) with (isPacketTimeout p1).2
        by (unfold isPacketTimeout; by rewrite Hpolls).
      eapply RxPoll; eauto.
Qed.

(** Case analysis of one pass through the loop body.  The names are those
    of [rx_body_case]: [new_data] and [p1] for what the read returned,
    [Hread] for the read itself. *)
Ltac rx_body_inv Hbody :=
  apply rx_body_cases in Hbody;
  inversion Hbody as
    [ new_data p1 Hread Hlt Hpolls
    | new_data p1 n Hread Hlt Hpolls
    | new_data p1 idx Hread Hle Hscan Hidx
    | new_data p1 h0 tl Hread Hle Hscan Hcons Hbad Hlen3
    | new_data p1 exact Hread Hle Hlock Hne
    | new_data p1 checksum last_byte Hread Hle Hlock Hsum Hlastb ].

Lemma rx_body_fuel (rxpacket : list Z) (wait_length : nat) (p : PortHandler) :
  rx_body rxpacket wait_length p ≠ OutOfFuel.
Proof.
  unfold rx_body. fuel_step. destruct a as [new_data p1]. cbv zeta.
  destruct (_ <=? _)%nat; [|by destruct (isPacketTimeout p1) as [[] ?]].
  fuel_step. destruct (_ =? _)%nat; [|done].
  fuel_step. apply bind_fuel.
  { destruct (253 <? _); [done|]. fuel_step.
    destruct (RXPACKET_MAX_LEN <? _); [done|]. by fuel_step. }
  intros [|].
  { by destruct (rxpacket ++ new_data). }
  fuel_step. cbv zeta. destruct (negb _); [done|].
  destruct (_ <? _)%nat; [by destruct (isPacketTimeout p1) as [[] ?]|].
  by do 2 fuel_step.
Qed.

#[global] Hint Resolve rx_body_fuel : fuel.

(** A pass that starts with no more bytes than it waits for, and waits
    for a whole envelope, neither faults nor runs out of fuel. *)
Lemma rx_body_progress (rxpacket : list Z) (wait_length : nat) (p : PortHandler) :
  (length rxpacket <= wait_length)%nat → (5 <= wait_length)%nat →
  Z.of_nat wait_length <= VECTOR_MAX_SIZE →
  ∃ step, rx_body rxpacket wait_length p = Ok step.
Proof.
  intros Hle H5 Hmax. unfold rx_body.
  rewrite size_sub_le by (unfold SIZE_MOD, VECTOR_MAX_SIZE in *; lia).
  destruct (readPort_total (Z.of_nat (wait_length - length rxpacket)) p)
    as (new_data & p1 & Hread); [lia|].
  rewrite Hread. simpl.
  destruct (wait_length <=? _)%nat eqn:Hw.
  - apply Nat.leb_le in Hw.
    destruct (header_scan_total (rxpacket ++ new_data) (length (rxpacket ++ new_data) - 1) 0)
      as [idx Hscan]; [lia|].
    rewrite Hscan. simpl.
    destruct (idx =? 0)%nat; [|eauto].
    destruct (lookup_lt_is_Some_2 (rxpacket ++ new_data) PKT_ID) as [id Hid];
      [unfold PKT_ID; lia|].
    destruct (lookup_lt_is_Some_2 (rxpacket ++ new_data) PKT_LENGTH) as [len Hlen];
      [unfold PKT_LENGTH; lia|].
    destruct (lookup_lt_is_Some_2 (rxpacket ++ new_data) PKT_ERROR) as [err Herr];
      [unfold PKT_ERROR; lia|].
    rewrite (at_Ok _ _ _ Hid). simpl.
    assert (∃ h0 tl, rxpacket ++ new_data = h0 :: tl) as (h0 & tl & Hcons).
    { destruct (rxpacket ++ new_data); simpl in *; [lia|eauto]. }
    destruct (253 <? id); simpl.
    { rewrite Hcons. eauto. }
    rewrite (at_Ok _ _ _ Hlen). simpl.
    destruct (RXPACKET_MAX_LEN <? len); simpl.
    { rewrite Hcons. eauto. }
    rewrite (at_Ok _ _ _ Herr). simpl.
    destruct (127 <? err); simpl.
    { rewrite Hcons. eauto. }
    destruct (negb _); [eauto|].
    destruct (_ <? _)%nat.
    { destruct (isPacketTimeout p1) as [[] ?]; eauto. }
    rewrite checksum_loop_sum by lia. simpl.
    destruct (lookup_lt_is_Some_2 (rxpacket ++ new_data) (wait_length - 1))
      as [last_byte Hlast]; [lia|].
    rewrite (at_Ok _ _ _ Hlast). simpl. eauto.
  - destruct (isPacketTimeout p1) as [[] ?]; eauto.
Qed.

(** ** rxPacket: termination *)

Lemma rx_body_decreases (rxpacket rxpacket' : list Z) (wait_length wait_length' : nat)
  (p p' : PortHandler) :
  rx_body rxpacket wait_length p = Ok (RxContinue rxpacket' wait_length' p') →
  (rx_measure rxpacket' wait_length' p' < rx_measure rxpacket wait_length p)%nat.
Proof.
  intros H. rx_body_inv H; subst;
    apply readPort_spec in Hread as (Hpend & Hdl & _);
    apply (f_equal length) in Hpend; rewrite length_app in Hpend;
    unfold rx_measure.
  - assert (length (pending (isPacketTimeout p1).2) = length (pending p1)) as ->.
    { unfold isPacketTimeout. by rewrite Hpolls. }
    assert (deadline_polls (isPacketTimeout p1).2 = n) as ->.
    { unfold isPacketTimeout. by rewrite Hpolls. }
    rewrite length_app.
    destruct (header_locked rxpacket wait_length') eqn:E.
    + rewrite (header_locked_app _ new_data _ E). lia.
    + destruct (header_locked (rxpacket ++ new_data) wait_length'); lia.
  - destruct (header_locked rxpacket wait_length') eqn:E.
    + pose proof (header_locked_app _ new_data _ E) as E'.
      pose proof (header_locked_length _ _ E') as Hl.
      destruct (length (rxpacket ++ new_data) - 1)%nat as [|c] eqn:Hc; [lia|].
      rewrite (header_locked_scan _ _ c E') in Hscan. by simplify_eq.
    + apply header_scan_range in Hscan.
      rewrite length_drop. rewrite length_app in *.
      destruct (header_locked (drop idx _) wait_length'); lia.
  - destruct (header_locked rxpacket wait_length') eqn:E.
    + apply (header_locked_app _ new_data) in E. by rewrite Hbad in E.
    + apply (f_equal length) in Hcons. rewrite length_app in Hcons.
      simpl in Hcons. destruct (header_locked rxpacket' wait_length'); lia.
  - rewrite Hlock. rewrite length_app.
    destruct (header_locked rxpacket wait_length) eqn:E; [|lia].
    apply (header_locked_app _ new_data) in E.
    by pose proof (header_locked_exact _ _ _ E Hlock).
Qed.

Lemma rx_loop_terminates (fuel : nat) (rxpacket : list Z) (wait_length : nat)
  (p : PortHandler) :
  (rx_measure rxpacket wait_length p < fuel)%nat →
  rx_loop fuel rxpacket wait_length p ≠ OutOfFuel.
Proof.
  revert rxpacket wait_length p.
  induction fuel as [|fuel IH]; intros rxpacket wait_length p Hfuel; [lia|].
  simpl.
  destruct (rx_body rxpacket wait_length p) as [[rx' w' p'|rx' res p']| |] eqn:Hbody;
    simpl; try done.
  - apply IH. apply rx_body_decreases in Hbody. lia.
  - by apply rx_body_fuel in Hbody.
Qed.

(** The fuel [rxPacket] hands to its loop suffices. *)
Lemma rxPacket_terminates (p : PortHandler) : rxPacket p ≠ OutOfFuel.
Proof.
  unfold rxPacket.
  destruct (rx_loop (rx_fuel p) [] 6 p) as [[[rx res] p']| |] eqn:H;
    simpl; try done.
  apply rx_loop_terminates in H; [done|].
  unfold rx_fuel, rx_measure. simpl. lia.
Qed.

#[global] Hint Resolve rxPacket_terminates : fuel.

(** ** rxPacket: the deadline *)

Lemma rx_log_inv_read (log0 : list io_event) (rxpacket new_data : list Z)
  (length_ : Z) (p p1 : PortHandler) :
  rx_log_inv log0 rxpacket p →
  readPort length_ p = Ok (new_data, p1) →
  rx_log_inv log0 (rxpacket ++ new_data) p1.
Proof.
  intros (evs & Hlog & Hev & Hiff) Hread.
  apply readPort_spec in Hread as (_ & _ & _ & _ & _ & _ & _ & Hio).
  destruct Hio as [[-> ->]|[n Hio]].
  - exists evs. by rewrite app_nil_r.
  - exists (EvRead n new_data :: evs). split_and!.
    + by rewrite Hio, Hlog.
    + by constructor.
    + rewrite length_app. simpl. lia.
Qed.

Lemma rx_log_inv_nonempty (log0 : list io_event) (rxpacket rxpacket' : list Z)
  (p : PortHandler) :
  rx_log_inv log0 rxpacket p →
  (0 < length rxpacket)%nat → (0 < length rxpacket')%nat →
  rx_log_inv log0 rxpacket' p.
Proof.
  intros (evs & Hlog & Hev & Hiff) Hpos Hpos'.
  exists evs. split_and!; [done|done|lia].
Qed.

Lemma rx_loop_deadline (fuel : nat) (log0 : list io_event)
  (rxpacket : list Z) (wait_length : nat) (p : PortHandler)
  (received : list Z) (result : Z) (p' : PortHandler) (evs : list io_event) :
  rx_log_inv log0 rxpacket p →
  rx_loop fuel rxpacket wait_length p = Ok (received, result, p') →
  io_log p' = EvDeadline true :: evs ++ log0 →
  result = (if (bytes_read evs =? 0)%nat
            then COMM_RX_TIMEOUT else COMM_RX_CORRUPT)
  ∧ (received = [] ↔ bytes_read evs = 0%nat).
Proof.
  revert rxpacket wait_length p.
  induction fuel as [|fuel IH]; intros rxpacket wait_length p Hinv Hrun Hlast;
    [done|].
  simpl in Hrun. apply bind_Ok_inv in Hrun as (step & Hbody & Hrun).
  rx_body_inv Hbody;
    subst step; pose proof (rx_log_inv_read _ _ _ _ _ _ Hinv Hread) as Hinv1.
  - simplify_eq. destruct Hinv1 as (evs1 & Hlog & Hev & Hiff).
    unfold isPacketTimeout in Hlast. rewrite Hpolls in Hlast. simpl in Hlast.
    rewrite Hlog in Hlast. simplify_eq. apply app_inv_tail in Hlast as ->.
    split.
    + destruct (Nat.eqb_spec (length (rxpacket ++ new_data)) 0),
               (Nat.eqb_spec (bytes_read evs) 0); try done; lia.
    + rewrite <- Hiff. by destruct (rxpacket ++ new_data).
  - eapply IH; [|exact Hrun|exact Hlast].
    destruct Hinv1 as (evs1 & Hlog & Hev & Hiff).
    exists (EvDeadline false :: evs1). split_and!.
    + unfold isPacketTimeout. rewrite Hpolls. simpl. by rewrite Hlog.
    + by constructor.
    + done.
  - eapply IH; [|exact Hrun|exact Hlast].
    apply header_scan_range in Hscan.
    eapply rx_log_inv_nonempty; [exact Hinv1|lia|].
    rewrite length_drop. lia.
  - eapply IH; [|exact Hrun|exact Hlast].
    apply (f_equal length) in Hcons. simpl in Hcons.
    eapply rx_log_inv_nonempty; [exact Hinv1|lia|lia].
  - eapply IH; [|exact Hrun|exact Hlast]. done.
  - simplify_eq. destruct Hinv1 as (evs1 & Hlog & Hev & Hiff).
    rewrite Hlog in Hlast.
    change (EvDeadline true :: evs ++ log0)
      with ((EvDeadline true :: evs) ++ log0) in Hlast.
    apply app_inv_tail in Hlast as ->.
    by apply Forall_cons in Hev as [? _].
Qed.

(** C3.  Results at the deadline.  Whenever a call of [rxPacket] ends on
    a poll that finds the reception deadline passed (the poll is the last
    port event of the call, [evs] are the events of the call before it), the
    result is [COMM_RX_TIMEOUT] if the reads of the call delivered no byte
    and [COMM_RX_CORRUPT] if they delivered some; and the buffer returned is
    empty exactly in the first case. *)
Theorem rxPacket_deadline (p p' : PortHandler) (received : list Z)
  (result : Z) (evs : list io_event) :
  rxPacket p = Ok (received, result, p') →
  io_log p' = EvDeadline true :: evs ++ io_log p →
  result = (if (bytes_read evs =? 0)%nat
            then COMM_RX_TIMEOUT else COMM_RX_CORRUPT)
  ∧ (received = [] ↔ bytes_read evs = 0%nat).
Proof.
  unfold rxPacket. intros Hrun Hlast.
  apply bind_Ok_inv in Hrun as ([[rx res] p1] & Hrun & Hret). simplify_eq.
  eapply (rx_loop_deadline _ (io_log p)); [|exact Hrun|exact Hlast].
  exists []. split_and!; done.
Qed.

Lemma rxPacket_deadline_witness :
  let p_silent :=
    mkPort 3 false [] [] [] 0 []
      [EvDeadline true; EvRead 6 []; EvDeadline false; EvRead 6 [];
       EvDeadline false; EvRead 6 []] in
  let evs_silent :=
    [EvRead 6 []; EvDeadline false; EvRead 6 []; EvDeadline false;
     EvRead 6 []] in
  let p_stalled :=
    mkPort 3 false [] [] [] 0 []
      [EvDeadline true; EvRead 3 []; EvDeadline false;
       EvRead 6 [255; 255; 1]] in
  let evs_stalled :=
    [EvRead 3 []; EvDeadline false; EvRead 6 [255; 255; 1]] in
  (rxPacket silent_port = Ok ([], COMM_RX_TIMEOUT, p_silent)
   ∧ io_log p_silent = EvDeadline true :: evs_silent ++ io_log silent_port
   ∧ COMM_RX_TIMEOUT
     = (if (bytes_read evs_silent =? 0)%nat
        then COMM_RX_TIMEOUT else COMM_RX_CORRUPT)
   ∧ (@nil Z = [] ↔ bytes_read evs_silent = 0%nat))
  ∧ (rxPacket stalled_port = Ok ([255; 255; 1], COMM_RX_CORRUPT, p_stalled)
     ∧ io_log p_stalled = EvDeadline true :: evs_stalled ++ io_log stalled_port
     ∧ COMM_RX_CORRUPT
       = (if (bytes_read evs_stalled =? 0)%nat
          then COMM_RX_TIMEOUT else COMM_RX_CORRUPT)
     ∧ ([255; 255; 1] = [] ↔ bytes_read evs_stalled = 0%nat)).
Proof.
  intros p_silent evs_silent p_stalled evs_stalled. split.
  - split; [reflexivity|]. split; [reflexivity|].
    apply (rxPacket_deadline silent_port p_silent [] COMM_RX_TIMEOUT evs_silent);
      reflexivity.
  - split; [reflexivity|]. split; [reflexivity|].
    apply (rxPacket_deadline stalled_port p_stalled [255; 255; 1]
             COMM_RX_CORRUPT evs_stalled); reflexivity.
Defined.

(** ** rxPacket: resynchronization *)

Lemma status_packet_length (id err : Z) (params : list Z) :
  length (status_packet id err params) = (length params + 6)%nat.
Proof. unfold status_packet. simpl. rewrite length_app. simpl. lia. Qed.

(** The receiver's checksum loop over a status packet yields the byte the
    packet ends in. *)
Lemma status_packet_checksum (id err : Z) (params : list Z) :
  let packet := status_packet id err params in
  ∃ checksum last_byte,
    checksum_loop packet 2 (length packet - 1 - 2) 0 = Ok checksum
    ∧ packet !! (length packet - 1)%nat = Some last_byte
    ∧ last_byte = Z.land (Z.lnot checksum) 255.
Proof.
  intros packet. subst packet. rewrite status_packet_length.
  unfold status_packet.
  set (body := id :: Z.of_nat (length params) + 2 :: err :: params).
  assert (length body = (length params + 3)%nat) as Hbody by (simpl; lia).
  eexists _, _. split_and!.
  - apply checksum_loop_sum; [|lia].
    simpl. rewrite length_app. simpl. lia.
  - change (255 :: 255 :: body ++ [?c]) with ((255 :: 255 :: body) ++ [c]).
    apply list_lookup_middle. simpl. lia.
  - rewrite Z.add_0_l, lnot_land_255_mod.
    change (drop 2 (255 :: 255 :: body ++ [?c])) with (body ++ [c]).
    replace (length params + 6 - 1 - 2)%nat with (length body) by lia.
    by rewrite take_app_length.
Qed.

Lemma has_false_header_tail (x : Z) (g : list Z) :
  has_false_header (x :: g) = false → has_false_header g = false.
Proof.
  cbn [has_false_header]. intros H. by apply orb_false_iff in H as [_ H].
Qed.

Lemma has_false_header_drop (g : list Z) (n : nat) :
  has_false_header g = false → has_false_header (drop n g) = false.
Proof.
  revert g. induction n as [|n IH]; intros g H; [by rewrite drop_0|].
  destruct g as [|a g]; [done|].
  cbn [drop]. apply IH. by apply has_false_header_tail in H.
Qed.

(** Noise without a sync pair holds no false header. *)
Lemma has_sync_false_header (g : list Z) :
  has_sync g = false → has_false_header g = false.
Proof.
  induction g as [|a g IH]; [done|]. intros H.
  cbn [has_false_header]. apply orb_false_iff.
  destruct g as [|b g]; [done|].
  cbn [has_sync] in H. apply orb_false_iff in H as [Hpair Hrest].
  split; [|by apply IH].
  destruct g as [|c [|d [|e g]]]; try done.
  cbn [header_accepted]. by rewrite Hpair.
Qed.

(** The read keeps the invariant, and comes back short only while a burst
    was still to land, so before the deadline. *)
Lemma resync_read (packet rest rxpacket new_data : list Z) (wait_length : nat)
  (p p1 : PortHandler) :
  (6 <= length packet <= 256)%nat →
  resync_inv packet rest rxpacket wait_length p →
  readPort (size_sub wait_length (length rxpacket)) p = Ok (new_data, p1) →
  resync_inv packet rest (rxpacket ++ new_data) wait_length p1
  ∧ deadline_polls p1 = deadline_polls p
  ∧ ((length (rxpacket ++ new_data) < wait_length)%nat →
     (S (length (rx_line p1)) <= deadline_polls p1)%nat).
Proof.
  intros Hpk (g & Hg & Hstream & Hle & Hphase & Hfd & Hline) Hread.
  assert (wait_length <= length packet)%nat as Hw
    by (destruct Hphase as [->|[-> _]]; lia).
  rewrite size_sub_le in Hread by (unfold SIZE_MOD; lia).
  unfold readPort in Hread.
  destruct (VECTOR_MAX_SIZE <? _); [done|].
  destruct (serial_fd_ p =? -1) eqn:Efd; [apply Z.eqb_eq in Efd; done|].
  destruct (0 <? Z.of_nat (wait_length - length rxpacket)) eqn:Epos;
    simpl in Hread; simplify_eq.
  - rewrite Nat2Z.id.
    set (n := (wait_length - length rxpacket)%nat).
    set (q := rx_fifo p ++ hd [] (rx_line p)).
    assert (pending p = q ++ concat (tl (rx_line p))) as Hq.
    { unfold pending, q.
      destruct (rx_line p); simpl; by rewrite <- ?app_assoc, ?app_nil_r. }
    assert (length (rxpacket ++ take n q)
            = (length rxpacket + n `min` length q)%nat)
      as Hlen1 by (by rewrite length_app, length_take).
    split_and!; simpl.
    + exists g. split_and!; simpl; try done.
      * rewrite <- Hstream, Hq. unfold pending. simpl.
        rewrite <- !app_assoc. f_equal.
        by rewrite (app_assoc (take n q)), take_drop.
      * lia.
      * destruct (rx_line p); simpl in *; lia.
    + done.
    + intros Hshort.
      destruct (rx_line p) as [|c line] eqn:Hl; simpl in *; [exfalso|lia].
      apply (f_equal length) in Hstream.
      rewrite Hq, !length_app in Hstream. simpl in Hstream. lia.
  - apply Z.ltb_ge in Epos. rewrite app_nil_r.
    split_and!; [by exists g|done|lia].
Qed.

(** The scan never runs past the sync pair of the packet. *)
Lemma resync_scan_bound (packet rest g rx1 queue : list Z) (idx : nat) :
  packet !! 0%nat = Some 255 → packet !! 1%nat = Some 255 →
  header_scan rx1 0 (length rx1 - 1) = Ok idx →
  rx1 ++ queue = g ++ packet ++ rest →
  (idx <= length g)%nat.
Proof.
  intros H0 H1 Hscan Hstream.
  destruct (decide (idx <= length g)%nat) as [|Hgt]; [done|exfalso].
  pose proof (header_scan_range _ _ _ _ Hscan) as Hrange.
  apply (header_scan_skipped _ _ _ _ (length g) Hscan); [lia|].
  assert (∀ j, (j < 2)%nat → rx1 !! (length g + j)%nat = packet !! j) as Hat.
  { intros j Hj.
    rewrite <- (lookup_app_l rx1 queue) by lia.
    rewrite Hstream, lookup_app_r by lia.
    replace (length g + j - length g)%nat with j by lia.
    apply lookup_app_l. apply lookup_lt_Some in H1. lia. }
  split.
  - rewrite <- H0, <- (Hat 0%nat) by lia. f_equal. lia.
  - rewrite <- H1, <- (Hat 1%nat) by lia. f_equal. lia.
Qed.

(** The read keeps the invariant of a line gone silent, and comes back short
    only with everything the device sent. *)
Lemma partial_read (packet rxpacket new_data : list Z) (k wait_length : nat)
  (p p1 : PortHandler) :
  (wait_length <= 256)%nat →
  partial_inv packet k rxpacket wait_length p →
  readPort (size_sub wait_length (length rxpacket)) p = Ok (new_data, p1) →
  partial_inv packet k (rxpacket ++ new_data) wait_length p1
  ∧ deadline_polls p1 = deadline_polls p
  ∧ ((length (rxpacket ++ new_data) < wait_length)%nat →
     rxpacket ++ new_data = take k packet).
Proof.
  intros Hw (Hstream & Hline & Hfd & Hle & Hphase) Hread.
  rewrite size_sub_le in Hread by (unfold SIZE_MOD; lia).
  unfold readPort in Hread.
  destruct (VECTOR_MAX_SIZE <? _); [done|].
  destruct (serial_fd_ p =? -1) eqn:Efd; [apply Z.eqb_eq in Efd; done|].
  destruct (0 <? Z.of_nat (wait_length - length rxpacket)) eqn:Epos;
    simpl in Hread; simplify_eq.
  - rewrite Nat2Z.id, Hline. simpl. rewrite app_nil_r.
    set (n := (wait_length - length rxpacket)%nat).
    split_and!; try done.
    + split_and!; simpl; try done.
      * by rewrite <- app_assoc, take_drop.
      * rewrite length_app, length_take. lia.
    + intros Hshort. rewrite length_app, length_take in Hshort.
      rewrite take_ge by lia. done.
  - apply Z.ltb_ge in Epos. rewrite app_nil_r.
    split_and!; [done|done|lia].
Qed.

Section ValidPacket.

(** A status packet whose header passes the checks of [rxPacket]. *)
Context (id err : Z) (params : list Z).
Hypothesis Hid : id <= 253.
Hypothesis Herr : err <= 127.
Hypothesis Hlen : Z.of_nat (length params) + 2 <= RXPACKET_MAX_LEN.

Local Abbreviation packet := (status_packet id err params).

Lemma status_packet_bounds : (6 <= length packet <= 256)%nat.
Proof using Hlen.
  rewrite status_packet_length. unfold RXPACKET_MAX_LEN in Hlen. lia.
Qed.

Lemma status_packet_locked (rest : list Z) :
  header_locked (packet ++ rest) (length packet) = true.
Proof using Hid Herr Hlen.
  rewrite status_packet_length. unfold status_packet. simpl.
  rewrite (proj2 (Z.ltb_ge _ _) Hid), (proj2 (Z.ltb_ge _ _) Herr),
    (proj2 (Z.ltb_ge _ _) Hlen).
  simpl. apply Nat.eqb_eq. unfold PKT_LENGTH. lia.
Qed.

(** A buffer with a settled header, read from garbage without a false
    header followed by the packet, holds no garbage, and the header is the
    packet's: of a sync pair that begins in the last four bytes of the
    garbage, the address, the length or the error byte is one of the two
    0xFF the packet begins with. *)
Lemma resync_locked (rest g rx1 queue : list Z) (exact : nat) :
  has_false_header g = false →
  header_locked rx1 exact = true →
  rx1 ++ queue = g ++ packet ++ rest →
  g = [] ∧ exact = length packet.
Proof using Type.
  intros Hg Hlock Hstream.
  apply header_locked_elim in Hlock
    as (id' & len' & err' & tl & -> & Hid' & Hlen' & Herr' & ->).
  rewrite status_packet_length. unfold RXPACKET_MAX_LEN in Hlen'.
  destruct g as [|x0 [|x1 [|x2 [|x3 [|x4 g]]]]];
    unfold status_packet in Hstream; simpl in Hstream.
  - simplify_eq. split; [done|]. unfold PKT_LENGTH. lia.
  - simplify_eq. lia.
  - simplify_eq. lia.
  - simplify_eq. lia.
  - simplify_eq. lia.
  - injection Hstream as <- <- <- <- <- _. exfalso.
    cbn [has_false_header header_accepted] in Hg.
    apply orb_false_iff in Hg as [Hg _].
    rewrite (proj2 (Z.ltb_ge _ _) Hid'), (proj2 (Z.ltb_ge 127 _) Herr') in Hg.
    replace (RXPACKET_MAX_LEN <? len') with false in Hg
      by (symmetry; apply Z.ltb_ge; unfold RXPACKET_MAX_LEN; lia).
    done.
Qed.

(** One pass keeps the invariant, and leaves the loop only with the packet
    and [COMM_SUCCESS]. *)
Lemma resync_step (rest rxpacket : list Z) (wait_length : nat)
  (p : PortHandler) (step : rx_step) :
  resync_inv packet rest rxpacket wait_length p →
  rx_body rxpacket wait_length p = Ok step →
  match step with
  | RxContinue rxpacket' wait_length' p' =>
      resync_inv packet rest rxpacket' wait_length' p'
  | RxBreak rxpacket' result p' =>
      rxpacket' = packet ∧ result = COMM_SUCCESS ∧ pending p' = rest
  end.
Proof using Hid Herr Hlen.
  intros Hinv Hbody.
  pose proof status_packet_bounds as Hpk.
  rx_body_inv Hbody;
    subst step;
    destruct (resync_read _ _ _ _ _ _ _ Hpk Hinv Hread)
      as ((g & Hg & Hstream & Hle1 & Hphase & Hfd & Hline) & Hdl & Hshort).
  - specialize (Hshort Hlt). lia.
  - specialize (Hshort Hlt).
    exists g. unfold isPacketTimeout. rewrite Hpolls. simpl.
    split_and!; try done. lia.
  - assert (idx <= length g)%nat as Hbound.
    { eapply (resync_scan_bound packet);
        [done|done|exact Hscan|exact Hstream]. }
    exists (drop idx g). split_and!; try done.
    + by apply has_false_header_drop.
    + rewrite <- (drop_app_le g) by done. rewrite <- Hstream.
      apply header_scan_range in Hscan.
      rewrite (drop_app_le (rxpacket ++ new_data)) by lia. done.
    + rewrite length_drop. lia.
    + destruct Hphase as [?|[? ->]]; [by left|right]. by rewrite drop_nil.
  - destruct g as [|x g].
    + exfalso.
      assert (5 <= length (rxpacket ++ new_data))%nat as H5
        by (destruct Hphase as [->|[-> _]]; lia).
      pose proof (header_locked_prefix _ _ _ _ Hstream H5
                    (status_packet_locked rest)) as Hgood.
      by rewrite Hbad in Hgood.
    + exists g. rewrite Hcons in Hstream. simpl in Hstream.
      injection Hstream as -> Hstream.
      apply (f_equal length) in Hcons. simpl in Hcons.
      split_and!; try done.
      * by apply has_false_header_tail in Hg.
      * lia.
      * destruct Hphase as [?|[? ?]]; [by left|done].
  - destruct (resync_locked _ _ _ _ _ Hg Hlock Hstream) as [-> ->].
    exists []. split_and!; try done.
    + destruct Hphase as [->|[-> _]]; [lia|done].
    + by right.
  - destruct (resync_locked _ _ _ _ _ Hg Hlock Hstream) as [-> ->].
    change ([] ++ ?l) with l in Hstream.
    assert (length (rxpacket ++ new_data) = length packet) as Hsame by lia.
    apply app_inj_1 in Hstream as [Hrx Hrest]; [|done].
    destruct (status_packet_checksum id err params)
      as (checksum' & last' & Hsum' & Hlast' & Heq).
    rewrite Hrx, Hsum' in Hsum. rewrite Hrx, Hlast' in Hlastb.
    simplify_eq. by rewrite Z.eqb_refl.
Qed.

Lemma rx_loop_resync (fuel : nat) (rest rxpacket : list Z)
  (wait_length : nat) (p : PortHandler) :
  resync_inv packet rest rxpacket wait_length p →
  rx_loop fuel rxpacket wait_length p ≠ OutOfFuel →
  ∃ p', rx_loop fuel rxpacket wait_length p = Ok (packet, COMM_SUCCESS, p')
        ∧ pending p' = rest.
Proof using Hid Herr Hlen.
  revert rxpacket wait_length p.
  induction fuel as [|fuel IH]; intros rxpacket wait_length p Hinv Hfuel;
    [done|].
  assert (∃ step, rx_body rxpacket wait_length p = Ok step) as [step Hbody].
  { destruct Hinv as (g & _ & _ & Hle & Hphase & _).
    pose proof status_packet_bounds as Hpk.
    apply rx_body_progress; unfold VECTOR_MAX_SIZE;
      destruct Hphase as [->|[-> _]]; lia. }
  pose proof (resync_step _ _ _ _ _ Hinv Hbody) as Hstep.
  simpl in Hfuel |- *. rewrite Hbody in Hfuel |- *. simpl in Hfuel |- *.
  destruct step as [rx' w' p'|rx' res p'].
  - by apply IH.
  - destruct Hstep as (-> & -> & Hrest). eauto.
Qed.

(** A buffer of at least five bytes read from a device that sent the first
    [k] bytes of the packet has the packet's header. *)
Lemma partial_locked (k : nat) (rxpacket queue : list Z) :
  rxpacket ++ queue = take k packet →
  (5 <= length rxpacket)%nat →
  header_locked rxpacket (length packet) = true.
Proof using Hid Herr Hlen.
  intros Hstream H5.
  eapply (header_locked_prefix _ (queue ++ drop k packet)); [|done|].
  - rewrite app_assoc, Hstream. apply take_drop.
  - rewrite <- (app_nil_r packet) at 1. apply status_packet_locked.
Qed.

Lemma rx_loop_partial (fuel k : nat) (rxpacket : list Z) (wait_length : nat)
  (p : PortHandler) :
  (0 < k < length packet)%nat →
  partial_inv packet k rxpacket wait_length p →
  rx_loop fuel rxpacket wait_length p ≠ OutOfFuel →
  ∃ p', rx_loop fuel rxpacket wait_length p
        = Ok (take k packet, COMM_RX_CORRUPT, p').
Proof using Hid Herr Hlen.
  intros Hk. revert rxpacket wait_length p.
  pose proof status_packet_bounds as Hpk.
  induction fuel as [|fuel IH]; intros rxpacket wait_length p Hinv Hfuel;
    [done|].
  assert (5 <= wait_length <= 256)%nat as Hw.
  { destruct Hinv as (_ & _ & _ & _ & [->| ->]); lia. }
  destruct (rx_body_progress rxpacket wait_length p) as [step Hbody];
    [by destruct Hinv as (_ & _ & _ & ? & _)|lia
    |unfold VECTOR_MAX_SIZE; lia|].
  simpl in Hfuel |- *. rewrite Hbody in Hfuel |- *. simpl in Hfuel |- *.
  rx_body_inv Hbody;
    subst step;
    destruct (partial_read _ _ _ _ _ _ _ (proj2 Hw) Hinv Hread)
      as ((Hstream & Hline & Hfd & Hle1 & Hphase) & Hdl & Hshort);
    try (assert (header_locked (rxpacket ++ new_data) (length packet) = true)
           as Hl by (apply (partial_locked k _ _ Hstream); lia));
    pose proof (f_equal length Hstream) as Hsize;
    rewrite (length_app (rxpacket ++ new_data)), length_take in Hsize.
  - rewrite (Hshort Hlt). rewrite length_take.
    destruct (Nat.eqb_spec (k `min` length packet) 0); [lia|eauto].
  - apply IH; [|done].
    unfold isPacketTimeout. rewrite Hpolls. done.
  - destruct (length (rxpacket ++ new_data) - 1)%nat as [|c] eqn:Hc; [lia|].
    rewrite (header_locked_scan _ _ c Hl) in Hscan. by simplify_eq.
  - by rewrite Hbad in Hl.
  - apply IH; [|done].
    rewrite <- (header_locked_exact _ _ _ Hl Hlock).
    split_and!; try done; [lia|by right].
  - pose proof (header_locked_exact _ _ _ Hl Hlock) as Hex. lia.
Qed.

End ValidPacket.

(** C2.  Resynchronization, as the code does it.  Let the bytes the port
    has received or will receive be [garbage], then a complete status packet
    with a valid header (address at most 0xFD, length at most
    [RXPACKET_MAX_LEN], error byte at most 0x7F) and the right checksum, then
    [rest]; let the port be open and the deadline not pass before the last
    burst has landed.  If nowhere in the garbage a sync pair is followed by
    three bytes that pass the header checks of [rxPacket], then [rxPacket]
    returns exactly that packet with [COMM_SUCCESS], and exactly [rest] is
    left unread: the garbage, and nothing else, was discarded.  Sync pairs in
    the garbage whose header is refused are covered, and so is a garbage
    that ends in 0xFF bytes, which form sync pairs with the first bytes of
    the packet. *)
Theorem rxPacket_resynchronizes (garbage params rest : list Z) (id err : Z)
  (p : PortHandler) :
  has_false_header garbage = false →
  id <= 253 → err <= 127 →
  Z.of_nat (length params) + 2 <= RXPACKET_MAX_LEN →
  serial_fd_ p ≠ -1 →
  pending p = garbage ++ status_packet id err params ++ rest →
  (length (rx_line p) <= deadline_polls p)%nat →
  ∃ p', rxPacket p = Ok (status_packet id err params, COMM_SUCCESS, p')
        ∧ pending p' = rest
        ∧ is_using_ p' = false.
Proof.
  intros Hg Hid Herr Hlen Hfd Hstream Hline.
  assert (resync_inv (status_packet id err params) rest [] 6 p) as Hinv.
  { exists garbage. split_and!; simpl; try done; [lia|by left]. }
  destruct (rx_loop_resync id err params Hid Herr Hlen (rx_fuel p) _ _ _ _ Hinv)
    as (p' & Hrun & Hrest).
  { apply rx_loop_terminates. unfold rx_fuel, rx_measure. simpl. lia. }
  exists (setUsing false p'). unfold rxPacket. rewrite Hrun. simpl.
  split_and!; done.
Qed.

Lemma rxPacket_resynchronizes_witness :
  has_false_header [255; 255; 254; 0; 0; 255] = false
  ∧ has_sync [255; 255; 254; 0; 0; 255] = true
  ∧ sync_spans [255; 255; 254; 0; 0; 255] = true
  ∧ pending rejected_header_port
    = [255; 255; 254; 0; 0; 255] ++ status_packet 1 0 [] ++ []
  ∧ (length (rx_line rejected_header_port)
     <= deadline_polls rejected_header_port)%nat
  ∧ ∃ p', rxPacket rejected_header_port
            = Ok (status_packet 1 0 [], COMM_SUCCESS, p')
          ∧ pending p' = []
          ∧ is_using_ p' = false.
Proof.
  split; [reflexivity|]. split; [reflexivity|]. split; [reflexivity|].
  split; [reflexivity|]. split; [vm_compute; lia|].
  apply (rxPacket_resynchronizes [255; 255; 254; 0; 0; 255] [] [] 1 0
           rejected_header_port);
    try reflexivity; vm_compute; try lia; discriminate.
Defined.

(** C2, the counterexample.  The condition of the design document, no sync
    pair that spans from the garbage into the packet, is not enough.  Here
    the garbage is 0xFF 0xFF 1 2 0 0: its sync pair lies at its beginning,
    its last byte is 0, and the frame its header declares is six bytes long
    and ends where the garbage ends.  The port is open and every byte has
    arrived.  [rxPacket] takes the garbage for a packet, finds the checksum
    wrong and returns the garbage with [COMM_RX_CORRUPT]; the valid packet
    behind it is left unread. *)
Lemma rxPacket_locks_on_false_header :
  pending false_header_port
    = [255; 255; 1; 2; 0; 0] ++ status_packet 1 0 [] ++ []
  ∧ sync_spans [255; 255; 1; 2; 0; 0] = false
  ∧ has_false_header [255; 255; 1; 2; 0; 0] = true
  ∧ serial_fd_ false_header_port = 3
  ∧ (length (rx_line false_header_port)
     <= deadline_polls false_header_port)%nat
  ∧ ∃ p', rxPacket false_header_port
            = Ok ([255; 255; 1; 2; 0; 0], COMM_RX_CORRUPT, p')
          ∧ pending p' = status_packet 1 0 [].
Proof.
  split_and!; [reflexivity..|vm_compute; lia|].
  eexists. split; reflexivity.
Qed.

(** A false header can also declare a frame that reaches into the reply:
    the receiver waits for the packet that header declares, the reply is
    read as part of it and the call ends at the deadline with
    [COMM_RX_CORRUPT]. *)
Lemma rxPacket_false_sync_swallows :
  pending false_sync_port
    = [255; 255; 1; 240; 0; 0] ++ status_packet 1 0 [] ++ []
  ∧ has_false_header [255; 255; 1; 240; 0; 0] = true
  ∧ ∃ p', rxPacket false_sync_port
            = Ok ([255; 255; 1; 240; 0; 0] ++ status_packet 1 0 [],
                  COMM_RX_CORRUPT, p')
          ∧ pending p' = [].
Proof. split_and!; [reflexivity..|]. eexists. split; reflexivity. Qed.

(** ** rxPacket: a false header in the noise *)

Lemma header_accepted_prefix (v queue : list Z) :
  (5 <= length v)%nat → header_accepted (v ++ queue) = header_accepted v.
Proof.
  intros H5.
  destruct v as [|b0 [|b1 [|b2 [|b3 [|b4 v]]]]]; simpl in H5; try lia. done.
Qed.

Lemma header_locked_accepted (v : list Z) (w : nat) :
  header_locked v w = true → header_accepted v = true.
Proof.
  destruct v as [|b0 [|b1 [|b2 [|b3 [|b4 v]]]]]; try done.
  cbn [header_locked header_accepted]. intros H.
  by apply andb_true_iff in H as [H _].
Qed.

Lemma header_accepted_locked (v : list Z) :
  header_accepted v = true → ∃ w, header_locked v w = true.
Proof.
  destruct v as [|b0 [|b1 [|b2 [|b3 [|b4 v]]]]]; try done.
  cbn [header_locked header_accepted]. intros ->.
  eexists. cbn [andb]. apply Nat.eqb_refl.
Qed.

Lemma header_accepted_sync (v : list Z) :
  header_accepted v = true → v !! 0%nat = Some 255 ∧ v !! 1%nat = Some 255.
Proof.
  destruct v as [|b0 [|b1 [|b2 [|b3 [|b4 v]]]]]; try done.
  cbn [header_accepted]. rewrite !andb_true_iff.
  intros [[[[H0 H1] _] _] _]. apply Z.eqb_eq in H0, H1. by subst.
Qed.

Lemma first_header_spec (g : list Z) :
  has_false_header g = true →
  header_accepted (drop (first_header g) g) = true
  ∧ (first_header g + 5 <= length g)%nat
  ∧ ∀ j, (j < first_header g)%nat → header_accepted (drop j g) = false.
Proof.
  induction g as [|a g IH]; [done|].
  cbn [has_false_header first_header].
  destruct (header_accepted (a :: g)) eqn:Hhere.
  - intros _. split_and!; [done| |lia].
    destruct g as [|b1 [|b2 [|b3 [|b4 g]]]]; try done. simpl. lia.
  - cbn [orb]. intros Hrest. destruct (IH Hrest) as (Hhead & Hlen & Hfirst).
    split_and!; [done|simpl; lia|].
    intros [|j] Hj; [done|]. apply Hfirst. lia.
Qed.

Lemma isPacketTimeout_pending (p : PortHandler) :
  pending (isPacketTimeout p).2 = pending p.
Proof. unfold isPacketTimeout. by destruct (deadline_polls p). Qed.

Section FalseHeader.

Context (stream : list Z) (i : nat).
Hypothesis Hhead : header_accepted (drop i stream) = true.
Hypothesis Hfirst :
  ∀ j, (j < i)%nat → header_accepted (drop j stream) = false.

Lemma locked_at_first (k : nat) (v queue : list Z) (w : nat) :
  (k <= i)%nat → v ++ queue = drop k stream →
  header_locked v w = true → k = i.
Proof using Hfirst.
  intros Hk Hstream Hlock.
  destruct (decide (k = i)) as [|Hne]; [done|exfalso].
  pose proof (header_locked_length _ _ Hlock) as H5.
  apply header_locked_accepted in Hlock.
  rewrite <- (header_accepted_prefix v queue H5), Hstream in Hlock.
  rewrite Hfirst in Hlock by lia. done.
Qed.

Lemma first_is_locked (v queue : list Z) :
  v ++ queue = drop i stream → (5 <= length v)%nat →
  ∃ w, header_locked v w = true.
Proof using Hhead.
  intros Hstream H5. apply header_accepted_locked.
  rewrite <- (header_accepted_prefix v queue H5), Hstream. done.
Qed.

(** One pass keeps the invariant, and leaves the loop with [COMM_SUCCESS]
    only with a buffer that begins at the false header. *)
Lemma locked_step (rxpacket : list Z) (wait_length : nat) (p : PortHandler)
  (step : rx_step) :
  locked_inv stream i rxpacket wait_length p →
  rx_body rxpacket wait_length p = Ok step →
  match step with
  | RxContinue rxpacket' wait_length' p' =>
      locked_inv stream i rxpacket' wait_length' p'
  | RxBreak rxpacket' result p' =>
      result = COMM_SUCCESS → rxpacket' ++ pending p' = drop i stream
  end.
Proof using Hhead Hfirst.
  intros (k & Hk & Hstream & Hphase) Hbody.
  rx_body_inv Hbody; subst step;
    apply readPort_spec in Hread as (Hpend & _);
    rewrite <- Hpend, app_assoc in Hstream.
  - unfold COMM_RX_TIMEOUT, COMM_RX_CORRUPT, COMM_SUCCESS.
    destruct (_ =? _)%nat; lia.
  - exists k. split_and!; [done| |].
    + by rewrite isPacketTimeout_pending.
    + rewrite length_app. destruct Hphase as [?|[? ?]]; [by left|right; lia].
  - pose proof (header_scan_range _ _ _ _ Hscan) as Hrange.
    assert (k + idx <= i)%nat as Hbound.
    { destruct (decide (k + idx <= i)%nat) as [|Hgt]; [done|exfalso].
      apply (header_scan_skipped _ _ _ _ (i - k) Hscan); [lia|].
      destruct (header_accepted_sync _ Hhead) as [H0 H1].
      rewrite lookup_drop in H0, H1.
      rewrite <- (lookup_app_l _ (pending p1)) by lia.
      rewrite <- (lookup_app_l _ (pending p1) (S (i - k))) by lia.
      rewrite Hstream, !lookup_drop.
      replace (k + (i - k))%nat with (i + 0)%nat by lia.
      replace (k + S (i - k))%nat with (i + 1)%nat by lia. done. }
    destruct Hphase as [Hw|[Hki H5]]; [|lia].
    exists (k + idx)%nat. split_and!; [done| |by left].
    rewrite <- drop_drop, <- Hstream.
    by rewrite (drop_app_le (rxpacket ++ new_data)) by lia.
  - assert (5 <= length (rxpacket ++ new_data))%nat as H5.
    { rewrite length_app in *. destruct Hphase as [?|[? ?]]; lia. }
    assert (k ≠ i) as Hne.
    { intros ->.
      destruct (first_is_locked _ _ Hstream H5) as [w Hl].
      by rewrite Hbad in Hl. }
    exists (S k). split_and!; [lia| |].
    + replace (S k) with (k + 1)%nat by lia.
      rewrite <- drop_drop, <- Hstream, Hcons. done.
    + destruct Hphase as [?|[? ?]]; [by left|done].
  - pose proof (locked_at_first _ _ _ _ Hk Hstream Hlock) as ->.
    exists i. split_and!; [done|done|right].
    split; [done|]. by apply header_locked_length in Hlock.
  - intros _.
    by pose proof (locked_at_first _ _ _ _ Hk Hstream Hlock) as <-.
Qed.

Lemma rx_loop_locked (fuel : nat) (rxpacket : list Z) (wait_length : nat)
  (p p' : PortHandler) (received : list Z) :
  locked_inv stream i rxpacket wait_length p →
  rx_loop fuel rxpacket wait_length p = Ok (received, COMM_SUCCESS, p') →
  received ++ pending p' = drop i stream.
Proof using Hhead Hfirst.
  revert rxpacket wait_length p.
  induction fuel as [|fuel IH]; intros rxpacket wait_length p Hinv Hrun;
    [done|].
  simpl in Hrun. apply bind_Ok_inv in Hrun as (step & Hbody & Hrun).
  pose proof (locked_step _ _ _ _ Hinv Hbody) as Hstep.
  destruct step as [rx' w' p1|rx' res p1].
  - by apply (IH _ _ _ Hstep).
  - injection Hrun as -> -> ->. by apply Hstep.
Qed.

End FalseHeader.

(** The condition on the garbage is needed in every case: when somewhere in
    the garbage a sync pair is followed by an accepted header, [rxPacket]
    never discards the first such pair, so it cannot return the packet
    behind the garbage with [COMM_SUCCESS] and leave exactly [rest]. *)
Lemma rxPacket_false_header_blocks (garbage packet rest : list Z)
  (p p' : PortHandler) :
  has_false_header garbage = true →
  pending p = garbage ++ packet ++ rest →
  rxPacket p = Ok (packet, COMM_SUCCESS, p') →
  pending p' ≠ rest.
Proof.
  intros Hg Hstream Hrun Hrest.
  destruct (first_header_spec _ Hg) as (Hhead & Hlen & Hfirst).
  set (i := first_header garbage) in *.
  unfold rxPacket in Hrun.
  apply bind_Ok_inv in Hrun as ([[rx res] p1] & Hrun & Heq).
  injection Heq as -> -> <-.
  apply (rx_loop_locked (garbage ++ packet ++ rest) i) in Hrun.
  - change (pending (setUsing false p1)) with (pending p1) in Hrest.
    rewrite Hrest in Hrun. apply (f_equal length) in Hrun.
    rewrite length_drop, !length_app in Hrun. lia.
  - rewrite drop_app_le by lia.
    rewrite header_accepted_prefix; [done|]. rewrite length_drop. lia.
  - intros j Hj. rewrite drop_app_le by lia.
    rewrite header_accepted_prefix by (rewrite length_drop; lia).
    by apply Hfirst.
  - exists 0%nat. split_and!; [lia|by rewrite drop_0|left; lia].
Qed.

(** ** rxPacket: a line that falls silent *)

Lemma rx_loop_silent (fuel : nat) (p : PortHandler) :
  pending p = [] →
  rx_loop fuel [] 6 p ≠ OutOfFuel →
  ∃ p', rx_loop fuel [] 6 p = Ok ([], COMM_RX_TIMEOUT, p').
Proof.
  revert p. induction fuel as [|fuel IH]; intros p Hquiet Hfuel; [done|].
  destruct (rx_body_progress [] 6 p) as [step Hbody];
    [simpl; lia|lia|unfold VECTOR_MAX_SIZE; lia|].
  simpl in Hfuel |- *. rewrite Hbody in Hfuel |- *. simpl in Hfuel |- *.
  rx_body_inv Hbody;
    subst step;
    apply readPort_spec in Hread as (Hpend & _);
    rewrite Hquiet in Hpend; apply app_eq_nil in Hpend as [-> Hquiet1];
    simpl in *; try lia.
  - eauto.
  - apply IH; [|done]. unfold isPacketTimeout. rewrite Hpolls. done.
Qed.

(** When the device sends nothing, [rxPacket] returns [COMM_RX_TIMEOUT] with
    an empty buffer, however many polls the deadline is away. *)
Lemma rxPacket_silent (p : PortHandler) :
  pending p = [] →
  ∃ p', rxPacket p = Ok ([], COMM_RX_TIMEOUT, p') ∧ is_using_ p' = false.
Proof.
  intros Hquiet.
  destruct (rx_loop_silent (rx_fuel p) p Hquiet) as [p' Hrun].
  { apply rx_loop_terminates. unfold rx_fuel, rx_measure. simpl. lia. }
  exists (setUsing false p'). unfold rxPacket. rewrite Hrun. done.
Qed.

(** When the device has sent the first [k] bytes of a status packet and
    sends nothing more, [rxPacket] returns those bytes with
    [COMM_RX_CORRUPT]. *)
Lemma rxPacket_partial (id err : Z) (params : list Z) (k : nat)
  (p : PortHandler) :
  id <= 253 → err <= 127 →
  Z.of_nat (length params) + 2 <= RXPACKET_MAX_LEN →
  (0 < k < length (status_packet id err params))%nat →
  serial_fd_ p ≠ -1 →
  rx_fifo p = take k (status_packet id err params) →
  rx_line p = [] →
  ∃ p', rxPacket p
        = Ok (take k (status_packet id err params), COMM_RX_CORRUPT, p')
        ∧ is_using_ p' = false.
Proof.
  intros Hid Herr Hlen Hk Hfd Hfifo Hline.
  destruct (rx_loop_partial id err params Hid Herr Hlen (rx_fuel p) k [] 6 p Hk)
    as [p' Hrun].
  { split_and!; simpl; try done; [lia|by left]. }
  { apply rx_loop_terminates. unfold rx_fuel, rx_measure. simpl. lia. }
  exists (setUsing false p'). unfold rxPacket. rewrite Hrun. done.
Qed.

(** ** txRxPacket *)

Lemma rx_loop_consumes (fuel : nat) (rxpacket : list Z) (wait_length : nat)
  (p : PortHandler) (received : list Z) (result : Z) (p' : PortHandler) :
  rx_loop fuel rxpacket wait_length p = Ok (received, result, p') →
  (length received + length (pending p')
   <= length rxpacket + length (pending p))%nat
  ∧ (result = COMM_SUCCESS → (5 <= length received)%nat).
Proof.
  revert rxpacket wait_length p.
  induction fuel as [|fuel IH]; intros rxpacket wait_length p Hrun; [done|].
  simpl in Hrun. apply bind_Ok_inv in Hrun as (step & Hbody & Hrun).
  rx_body_inv Hbody;
    subst step;
    apply readPort_spec in Hread as (Hpend & _);
    apply (f_equal length) in Hpend; rewrite length_app in Hpend.
  - simplify_eq. unfold isPacketTimeout. rewrite Hpolls. simpl.
    rewrite length_app. split; [unfold pending in *; simpl; lia|].
    unfold COMM_RX_TIMEOUT, COMM_RX_CORRUPT, COMM_SUCCESS.
    by destruct (length rxpacket + length new_data =? 0)%nat.
  - apply IH in Hrun as [Hrun ?]. split; [|done].
    revert Hrun. unfold isPacketTimeout. rewrite Hpolls.
    rewrite length_app. unfold pending in *. simpl. lia.
  - apply IH in Hrun as [Hrun ?]. split; [|done].
    revert Hrun. rewrite length_drop, length_app. lia.
  - apply IH in Hrun as [Hrun ?]. split; [|done].
    apply (f_equal length) in Hcons. rewrite length_app in Hcons.
    simpl in Hcons. lia.
  - apply IH in Hrun as [Hrun ?]. split; [|done].
    revert Hrun. rewrite length_app. lia.
  - simplify_eq. split.
    + rewrite length_app. lia.
    + intros _. by apply header_locked_length in Hlock.
Qed.

Lemma rxPacket_consumes (p p' : PortHandler) (received : list Z) (result : Z) :
  rxPacket p = Ok (received, result, p') →
  (length (pending p') <= length (pending p))%nat
  ∧ (result = COMM_SUCCESS → (length (pending p') < length (pending p))%nat).
Proof.
  unfold rxPacket. intros H.
  apply bind_Ok_inv in H as ([[rx res] p1] & Hrun & H). simplify_eq.
  apply rx_loop_consumes in Hrun as [Hle H5]. simpl in Hle.
  change (pending (setUsing false p1)) with (pending p1).
  split; [lia|]. intros Hres. specialize (H5 Hres). lia.
Qed.

Lemma txrx_loop_terminates (fuel : nat) (txpacket : list Z) (p : PortHandler) :
  (length (pending p) < fuel)%nat → txrx_loop fuel txpacket p ≠ OutOfFuel.
Proof.
  revert p. induction fuel as [|fuel IH]; intros p Hfuel; [lia|].
  simpl.
  destruct (rxPacket p) as [[[rx res] p1]| |] eqn:Hrx; simpl; try done.
  - apply rxPacket_consumes in Hrx as [_ Hlt].
    destruct (res =? COMM_SUCCESS) eqn:Hres; simpl; [|done].
    apply Z.eqb_eq in Hres. specialize (Hlt Hres).
    destruct (_ <? _)%nat; [|apply IH; lia].
    destruct (at_ txpacket PKT_ID) eqn:Ht; simpl; try done;
      [|by apply at_fuel in Ht].
    destruct (at_ rx PKT_ID) eqn:Hr; simpl; try done;
      [|by apply at_fuel in Hr].
    destruct (_ =? _); [done|apply IH; lia].
  - by apply rxPacket_terminates in Hrx.
Qed.

(** The fuel [txRxPacket] hands to its reception loop suffices. *)
Lemma txRxPacket_terminates (txpacket : list Z) (p : PortHandler) :
  txRxPacket txpacket p ≠ OutOfFuel.
Proof.
  unfold txRxPacket. fuel_step. destruct a as [[res tx] p1].
  destruct (negb _); [done|].
  fuel_step. destruct (_ =? BROADCAST_ID); [done|].
  fuel_step. apply bind_fuel.
  { destruct (_ =? INST_READ); [by fuel_step|done]. }
  intros p2.
  apply bind_fuel; [apply txrx_loop_terminates; lia|]. intros [[rx res2] p3].
  destruct (_ && _); [|done].
  do 2 fuel_step. destruct (_ =? _); [by fuel_step|done].
Qed.

#[global] Hint Resolve txRxPacket_terminates : fuel.

Lemma readTxRx_terminates (sts_id address length_ : Z) (p : PortHandler) :
  readTxRx sts_id address length_ p ≠ OutOfFuel.
Proof.
  unfold readTxRx. destruct (_ <=? _); [done|]. cbv zeta.
  fuel_step. destruct a as [[[rx res] err] p1].
  destruct (_ && _); [by fuel_step|done].
Qed.

#[global] Hint Resolve readTxRx_terminates : fuel.

Lemma ping_terminates (sts_end_ sts_id : Z) (p : PortHandler) :
  ping sts_end_ sts_id p ≠ OutOfFuel.
Proof.
  unfold ping. destruct (_ <=? _); [done|]. cbv zeta.
  fuel_step. destruct a as [[[rx res] err] p1].
  destruct (_ =? _); [|done].
  fuel_step. destruct a as [[[data res2] err2] p2].
  destruct (_ && _); [by do 2 fuel_step|done].
Qed.

#[global] Hint Resolve ping_terminates : fuel.

Lemma pingServo_terminates (sts_end_ sts_id : Z) (p : PortHandler) :
  pingServo sts_end_ sts_id p ≠ OutOfFuel.
Proof.
  unfold pingServo. fuel_step. destruct a as [[[model comm] err] p1].
  by destruct (_ || _).
Qed.

(** C5.  Broadcast instructions do not wait for a reply.  For a packet
    addressed to [BROADCAST_ID] (254) whose transmission by [txPacket]
    succeeds and leaves the port in state [p1], [txRxPacket] returns an empty
    response, [COMM_SUCCESS] and device error byte 0, in the port state [p1]
    with the busy flag cleared: no read, no poll and no timeout setting
    happen after the transmission. *)
Theorem txRxPacket_broadcast (txpacket sent : list Z) (p p1 : PortHandler) :
  Forall is_byte txpacket →
  txpacket !! PKT_ID = Some BROADCAST_ID →
  txPacket txpacket p = Ok (COMM_SUCCESS, sent, p1) →
  txRxPacket txpacket p = Ok ([], COMM_SUCCESS, 0, setUsing false p1)
  ∧ is_using_ (setUsing false p1) = false
  ∧ io_log (setUsing false p1) = io_log p1
  ∧ pending (setUsing false p1) = pending p1
  ∧ deadline_polls (setUsing false p1) = deadline_polls p1.
Proof.
  intros Hbytes Hid Htx. split; [|done].
  pose proof (txPacket_keeps_id _ _ _ _ Hbytes Htx) as Hsent.
  rewrite Hid in Hsent.
  unfold txRxPacket. rewrite Htx. simpl.
  by rewrite (at_Ok _ _ _ Hsent).
Qed.

Lemma txRxPacket_broadcast_witness :
  let p1 :=
    mkPort 3 true [] [] [] 0 []
      [EvWrite [255; 255; 254; 2; 5; 250] 6; EvFlush] in
  txPacket broadcast_packet idle_port
  = Ok (COMM_SUCCESS, [255; 255; 254; 2; 5; 250], p1)
  ∧ txRxPacket broadcast_packet idle_port
    = Ok ([], COMM_SUCCESS, 0, setUsing false p1).
Proof.
  intros p1. split; [reflexivity|].
  apply (txRxPacket_broadcast broadcast_packet [255; 255; 254; 2; 5; 250]
           idle_port p1); [|reflexivity|reflexivity].
  unfold broadcast_packet, is_byte. repeat constructor; lia.
Defined.

(** ** pingServo *)

(** C10.  Whenever [ping] returns model number, communication result and
    error byte, [pingServo] returns true if and only if the result is
    [COMM_SUCCESS], the error byte is 0 and the model number is not 0; in
    particular a device whose model number reads as 0 is reported absent even
    though the communication succeeded without a device error. *)
Theorem pingServo_iff (sts_end_ sts_id : Z) (p p' : PortHandler)
  (model comm error : Z) :
  ping sts_end_ sts_id p = Ok (model, comm, error, p') →
  ∃ present,
    pingServo sts_end_ sts_id p = Ok (present, p')
    ∧ (present = true ↔ comm = COMM_SUCCESS ∧ error = 0 ∧ model ≠ 0)
    ∧ (comm = COMM_SUCCESS → error = 0 → model = 0 → present = false).
Proof.
  intros Hping. unfold pingServo. rewrite Hping. simpl.
  destruct (comm =? COMM_SUCCESS) eqn:Ec, (model =? 0) eqn:Em,
    (error =? 0) eqn:Ee; simpl;
    rewrite ?Z.eqb_eq, ?Z.eqb_neq in *;
    eexists; (split; [reflexivity|]); split; try done; intuition congruence.
Qed.

Lemma pingServo_iff_witness :
  ∃ p',
    ping 0 1 model_zero_port = Ok (0, COMM_SUCCESS, 0, p')
    ∧ ∃ present,
        pingServo 0 1 model_zero_port = Ok (present, p')
        ∧ (present = true ↔ COMM_SUCCESS = COMM_SUCCESS ∧ 0 = 0 ∧ 0 ≠ 0)
        ∧ (COMM_SUCCESS = COMM_SUCCESS → 0 = 0 → 0 = 0 → present = false).
Proof.
  eexists. split; [vm_compute; reflexivity|].
  apply (pingServo_iff 0 1 model_zero_port). vm_compute. reflexivity.
Defined.

(** The end-to-end scenario of the design document: a device that answers
    with model 0x0101 and no error is found, and a line on which nobody
    answers gives [COMM_RX_TIMEOUT]. *)
Lemma pingServo_model_0101_present :
  ∃ p', ping 0 1 model_0101_port = Ok (257, COMM_SUCCESS, 0, p')
        ∧ pingServo 0 1 model_0101_port = Ok (true, p').
Proof. eexists. split; vm_compute; reflexivity. Qed.

Lemma pingServo_no_reply_times_out :
  ∃ p', ping 0 1 idle_port = Ok (0, COMM_RX_TIMEOUT, 0, p')
        ∧ pingServo 0 1 idle_port = Ok (false, p').
Proof. eexists. split; vm_compute; reflexivity. Qed.

(** A run of the whole exchange in which both replies are well-formed
    and the model number is 0. *)
Lemma pingServo_model_zero_absent :
  ∃ p', ping 0 1 model_zero_port = Ok (0, COMM_SUCCESS, 0, p')
        ∧ pingServo 0 1 model_zero_port = Ok (false, p').
Proof. eexists. split; vm_compute; reflexivity. Qed.

(** ** correctPosition and rotate: the payload *)

Lemma z_range_In (v from : Z) (count : nat) :
  from <= v < from + Z.of_nat count → In v (z_range from count).
Proof.
  revert from. induction count as [|count IH]; intros from H; [lia|].
  simpl. destruct (decide (v = from)) as [->|Hne]; [by left|right].
  apply IH. lia.
Qed.




(** ** GroupSyncWrite *)

(** C8.  Rejected additions leave the session alone.  For every sync-write
    session, [addParam] with an address already in the session map, or with
    a payload longer than the session's per-device data length, returns
    false and returns the session unchanged: the map, every stored payload
    and the dirty flag. *)
Theorem addParam_rejects (sts_id : Z) (data : list Z) (g : GroupSyncWrite) :
  is_Some (data_dict_ g !! sts_id)
  ∨ data_length_ g < Z.of_nat (length data) →
  addParam sts_id data g = (false, g).
Proof.
  intros [[old Hold]|Hlong]; unfold addParam.
  - by rewrite Hold.
  - destruct (data_dict_ g !! sts_id); [done|].
    by rewrite (proj2 (Z.ltb_lt _ _) Hlong).
Qed.

Lemma addParam_rejects_witness :
  addParam 1 [0; 4] two_byte_session = (false, two_byte_session)
  ∧ addParam 2 [0; 4; 9] two_byte_session = (false, two_byte_session).
Proof.
  split.
  - apply (addParam_rejects 1 [0; 4] two_byte_session).
    left. exists [0; 8]. reflexivity.
  - apply (addParam_rejects 2 [0; 4; 9] two_byte_session).
    right. vm_compute. reflexivity.
Defined.

(** ** tareServo *)

(** C7.  Range arithmetic of [tareServo].  For limit positions read as
    [uint16_t], with range size [MAX_POSITION]: the half-range distance is
    [(max - min) / 2] when [max > min] and [(MAX_POSITION - min + max) / 2]
    otherwise; the offset handed to [correctPosition] is the raw minimum when
    [min <= MAX_POSITION / 2], and [min - MAX_POSITION - 1] otherwise (for
    every minimum for which that fits an [int16_t], so for every position up
    to [MAX_POSITION]).  Divisions are integer divisions. *)
Theorem tareServo_range (min_pos max_pos : Z) :
  0 <= min_pos < 65536 → 0 <= max_pos < 65536 →
  tare_distance min_pos max_pos
  = (if min_pos <? max_pos then (max_pos - min_pos) ÷ 2
     else (MAX_POSITION - min_pos + max_pos) ÷ 2)
  ∧ (min_pos <= MAX_POSITION ÷ 2 → tare_corr min_pos = min_pos)
  ∧ (MAX_POSITION ÷ 2 < min_pos → min_pos - MAX_POSITION - 1 < 32768 →
     tare_corr min_pos = min_pos - MAX_POSITION - 1).
Proof.
  intros Hmin Hmax. split_and!.
  - unfold tare_distance.
    destruct (Z.leb_spec max_pos min_pos), (Z.ltb_spec min_pos max_pos);
      (done || lia).
  - intros Hlow. unfold tare_corr, to_int16, MAX_POSITION in *.
    change (4095 ÷ 2) with 2047 in *.
    rewrite (proj2 (Z.ltb_ge _ _) Hlow).
    rewrite Z.mod_small; lia.
  - intros Hhigh Hfit. unfold tare_corr, to_int16, MAX_POSITION in *.
    change (4095 ÷ 2) with 2047 in *.
    rewrite (proj2 (Z.ltb_lt _ _) Hhigh).
    rewrite Z.mod_small; lia.
Qed.

Lemma tareServo_range_witness :
  tare_distance 3000 1000 = (MAX_POSITION - 3000 + 1000) ÷ 2
  ∧ tare_distance 1000 3000 = (3000 - 1000) ÷ 2
  ∧ tare_corr 1000 = 1000
  ∧ tare_corr 3000 = 3000 - MAX_POSITION - 1.
Proof.
  destruct (tareServo_range 3000 1000) as (Hwrap & _ & Hhigh);
    [lia|lia|].
  destruct (tareServo_range 1000 3000) as (Hplain & Hlow & _);
    [lia|lia|].
  split; [exact Hwrap|]. split; [exact Hplain|].
  split; [apply Hlow; vm_compute; discriminate|].
  apply Hhigh; vm_compute; reflexivity.
Defined.

(** At the minimum 2048 the offset is -2048, one more than
    [correctPosition] writes: the register receives -2047. *)
Lemma tare_corr_midpoint_clamped :
  tare_corr 2048 = -2048
  ∧ correctPosition_txpacket 0 (tare_corr 2048)
    = correctPosition_txpacket 0 (-2047).
Proof. split; reflexivity. Qed.

(** ** moveTo *)

Lemma sqrt_100 : sqrt 100 = 10%R.
Proof. replace 100%R with (10 * 10)%R by lra. apply sqrt_square. lra. Qed.

(** C6.  The wait of [moveTo] at speed 3400, acceleration 1 and distance
    50, a triangular profile: the code sleeps 10 s, where the documented
    formula [sqrt (2 d / a)] with [a] the acceleration scaled to steps/s²
    gives 1 s. *)
Theorem moveTo_triangular_wait_unscaled :
  moveTo_time_wait 50 0 3400 1 = 10%R
  ∧ documented_time_wait 50 0 3400 1 = 1%R
  ∧ moveTo_time_wait 50 0 3400 1 ≠ documented_time_wait 50 0 3400 1.
Proof.
  assert (moveTo_time_wait 50 0 3400 1 = 10%R) as Hcode.
  { unfold moveTo_time_wait, moveTo_distance, to_uint16.
    change (Z.abs (50 - 0) mod 65536) with 50. cbv zeta.
    destruct (Rge_dec _ _) as [_|Hn]; [|exfalso; apply Hn; lra].
    replace (2 * 50 / 1)%R with 100%R by lra. apply sqrt_100. }
  assert (documented_time_wait 50 0 3400 1 = 1%R) as Hdoc.
  { unfold documented_time_wait, moveTo_distance, to_uint16.
    change (Z.abs (50 - 0) mod 65536) with 50. cbv zeta.
    destruct (Rge_dec _ _) as [_|Hn]; [|exfalso; apply Hn; lra].
    replace (2 * 50 / (1 * 100))%R with 1%R by lra. apply sqrt_1. }
  split; [done|]. split; [done|]. rewrite Hcode, Hdoc. lra.
Qed.

(** ** Byte order *)

Lemma lor_shiftl (n a b : Z) :
  0 <= n → 0 <= a < 2 ^ n → Z.lor a (Z.shiftl b n) = a + 2 ^ n * b.
Proof.
  intros Hn Ha.
  rewrite Z.shiftl_mul_pow2 by done.
  rewrite <- Z.add_nocarry_lor; [ring|].
  apply Z.bits_inj'. intros k Hk. rewrite Z.land_spec, Z.bits_0.
  destruct (Z.lt_ge_cases k n).
  - rewrite (Z.mul_pow2_bits_low b n k) by lia. apply andb_false_r.
  - destruct (Z.eq_dec a 0) as [->|]; [by rewrite Z.bits_0|].
    rewrite (Z.bits_above_log2 a k); [done|lia|].
    apply Z.log2_lt_pow2; [lia|].
    apply Z.lt_le_trans with (2 ^ n); [lia|].
    apply Z.pow_le_mono_r; lia.
Qed.

Lemma land_255_mod (a : Z) : Z.land a 255 = a mod 256.
Proof. apply (Z.land_ones a 8). lia. Qed.

Lemma land_65535_mod (a : Z) : Z.land a 65535 = a mod 65536.
Proof. apply (Z.land_ones a 16). lia. Qed.

Lemma shiftr_8_div (a : Z) : Z.shiftr a 8 = a / 256.
Proof. apply (Z.shiftr_div_pow2 a 8). lia. Qed.

Lemma land_255_byte (a : Z) : 0 <= a < 256 → Z.land a 255 = a.
Proof. intros Ha. rewrite land_255_mod. apply Z.mod_small. lia. Qed.

Lemma makeWord_bytes (sts_end_ a b : Z) :
  0 <= a < 256 → 0 <= b < 256 →
  makeWord sts_end_ a b = if sts_end_ =? 0 then a + 256 * b else b + 256 * a.
Proof.
  intros Ha Hb. unfold makeWord, to_uint16.
  rewrite !land_255_byte by done.
  destruct (sts_end_ =? 0); rewrite (lor_shiftl 8) by (change (2 ^ 8) with 256; lia);
    change (2 ^ 8) with 256; apply Z.mod_small; lia.
Qed.

Lemma word_split (w : Z) :
  0 <= w < 65536 →
  Z.land w 255 = w mod 256 ∧ Z.land (Z.shiftr w 8) 255 = w / 256
  ∧ 0 <= w mod 256 < 256 ∧ 0 <= w / 256 < 256.
Proof.
  intros Hw.
  assert (0 <= w / 256 < 256)
    by (split; [apply Z.div_pos|apply Z.div_lt_upper_bound]; lia).
  split_and!; try lia.
  - apply land_255_mod.
  - rewrite shiftr_8_div. by apply land_255_byte.
  - apply Z.mod_pos_bound. lia.
  - apply Z.mod_pos_bound. lia.
Qed.

Lemma byte_pair_mod (a b : Z) : 0 <= a < 256 → (a + 256 * b) mod 256 = a.
Proof.
  intros Ha. replace (a + 256 * b) with (a + b * 256) by lia.
  rewrite Z_mod_plus_full. apply Z.mod_small. lia.
Qed.

Lemma byte_pair_div (a b : Z) : 0 <= a < 256 → (a + 256 * b) / 256 = b.
Proof.
  intros Ha. replace (a + 256 * b) with (a + b * 256) by lia.
  rewrite Z.div_add by lia. rewrite Z.div_small; lia.
Qed.

(** X1.  Words and bytes round-trip in either byte order.  For every setting
    of [sts_end_]: splitting a 16-bit word with [lobyte] and [hibyte] and
    joining the halves with [makeWord] gives the word back, and splitting the
    word [makeWord] makes of two bytes gives the two bytes back.  In the
    default order (0) the first byte is the low one. *)
Theorem makeWord_lobyte_hibyte (sts_end_ w a b : Z) :
  0 <= w < 65536 → is_byte a → is_byte b →
  makeWord sts_end_ (lobyte sts_end_ w) (hibyte sts_end_ w) = w
  ∧ lobyte sts_end_ (makeWord sts_end_ a b) = a
  ∧ hibyte sts_end_ (makeWord sts_end_ a b) = b
  ∧ makeWord 0 a b = a + 256 * b.
Proof.
  intros Hw Ha Hb. unfold is_byte in *.
  destruct (word_split w Hw) as (Hlo & Hhi & Hlo' & Hhi').
  split_and!.
  - unfold lobyte, hibyte.
    destruct (sts_end_ =? 0) eqn:He; rewrite Hlo, Hhi, makeWord_bytes, He by done;
      pose proof (Z.div_mod w 256); lia.
  - rewrite makeWord_bytes by done. unfold lobyte.
    destruct (sts_end_ =? 0).
    + rewrite land_255_mod. by apply byte_pair_mod.
    + rewrite shiftr_8_div, byte_pair_div by done. by apply land_255_byte.
  - rewrite makeWord_bytes by done. unfold hibyte.
    destruct (sts_end_ =? 0).
    + rewrite shiftr_8_div, byte_pair_div by done. by apply land_255_byte.
    + rewrite land_255_mod. by apply byte_pair_mod.
  - by rewrite makeWord_bytes.
Qed.

Lemma makeWord_lobyte_hibyte_witness :
  makeWord 0 (lobyte 0 2048) (hibyte 0 2048) = 2048
  ∧ lobyte 1 (makeWord 1 7 9) = 7
  ∧ hibyte 1 (makeWord 1 7 9) = 9
  ∧ makeWord 0 7 9 = 7 + 256 * 9.
Proof.
  pose proof (makeWord_lobyte_hibyte 0 2048 7 9) as H0.
  pose proof (makeWord_lobyte_hibyte 1 2048 7 9) as H1.
  unfold is_byte in *.
  split_and!; [apply H0|apply H1|apply H1|apply H0]; lia.
Defined.

(** X2.  Byte order of a four-byte value.  The value [read4ByteTxRx] (and
    [getData] for four bytes) makes of the bytes [d0 d1 d2 d3] is
    little-endian in the default byte order; in the other order the two
    bytes of each 16-bit half are swapped but the halves are not: the first
    pair still is the low half. *)
Theorem read4Byte_byte_order (sts_end_ d0 d1 d2 d3 : Z) :
  is_byte d0 → is_byte d1 → is_byte d2 → is_byte d3 →
  makeDWord (makeWord sts_end_ d0 d1) (makeWord sts_end_ d2 d3)
  = if sts_end_ =? 0
    then d0 + 256 * d1 + 65536 * d2 + 16777216 * d3
    else d1 + 256 * d0 + 65536 * d3 + 16777216 * d2.
Proof.
  unfold is_byte. intros H0 H1 H2 H3. rewrite !makeWord_bytes by done.
  unfold makeDWord, to_uint32.
  assert (∀ x, 0 <= x < 65536 → Z.land x 65535 = x) as Hmask.
  { intros x Hx. rewrite land_65535_mod. apply Z.mod_small. lia. }
  destruct (sts_end_ =? 0); rewrite !Hmask by lia;
    rewrite (lor_shiftl 16) by (change (2 ^ 16) with 65536; lia);
    change (2 ^ 16) with 65536; rewrite Z.mod_small; lia.
Qed.

Lemma read4Byte_byte_order_witness :
  makeDWord (makeWord 0 1 2) (makeWord 0 3 4)
  = 1 + 256 * 2 + 65536 * 3 + 16777216 * 4
  ∧ makeDWord (makeWord 1 1 2) (makeWord 1 3 4)
    = 2 + 256 * 1 + 65536 * 4 + 16777216 * 3.
Proof.
  split.
  - apply (read4Byte_byte_order 0 1 2 3 4); unfold is_byte; lia.
  - apply (read4Byte_byte_order 1 1 2 3 4); unfold is_byte; lia.
Defined.

(** ** Sign-magnitude registers: what is written reads back *)

Lemma rotate_reads_back_all :
  forallb (λ v, reads_back (rotate_txpacket 0 v) (λ w, toHost w 15)
                  (Z.max (- MAX_SPEED) (Z.min v MAX_SPEED)))
          int16_values = true.
Proof. vm_compute. reflexivity. Qed.

Lemma correctPosition_reads_back_all :
  forallb (λ v, reads_back (correctPosition_txpacket 0 v) readCorrection_bits
                  (Z.max (- MAX_CORRECTION) (Z.min v MAX_CORRECTION)))
          int16_values = true.
Proof. vm_compute. reflexivity. Qed.

(** X3.  Speed round trip.  For every [int16_t] speed, the two bytes [rotate]
    writes to the goal-speed register, joined by [makeWord] and decoded by
    [toHost] with sign bit 15 as [readSpeed] decodes the present speed, give
    the speed clamped to -3400..3400 (default byte order). *)
Theorem rotate_readSpeed_round_trip (speed : Z) :
  -32768 <= speed <= 32767 →
  ∃ lo hi,
    rotate_txpacket 0 speed = Ok [lo; hi]
    ∧ toHost (makeWord 0 lo hi) 15
      = Z.max (- MAX_SPEED) (Z.min speed MAX_SPEED).
Proof.
  intros Hrange.
  assert (In speed int16_values) as Hin by (apply z_range_In; lia).
  pose proof rotate_reads_back_all as Hall.
  rewrite forallb_forall in Hall. specialize (Hall _ Hin).
  unfold reads_back in Hall.
  destruct (rotate_txpacket 0 speed) as [[|lo [|hi [|]]]| |]; try done.
  exists lo, hi. split; [done|]. by apply Z.eqb_eq in Hall.
Qed.

Lemma rotate_readSpeed_round_trip_witness :
  rotate_txpacket 0 (-5000) = Ok [72; 141]
  ∧ ∃ lo hi,
      rotate_txpacket 0 (-5000) = Ok [lo; hi]
      ∧ toHost (makeWord 0 lo hi) 15 = -3400.
Proof.
  split; [reflexivity|]. apply (rotate_readSpeed_round_trip (-5000)). lia.
Defined.

(** X4.  Correction round trip.  For every [int16_t] correction, the two
    bytes [correctPosition] writes to the offset register, decoded as
    [readCorrection] decodes that register (magnitude in bits 0..10, sign in
    bit 11), give the correction clamped to -2047..2047 (default byte
    order). *)
Theorem correctPosition_readCorrection_round_trip (correction : Z) :
  -32768 <= correction <= 32767 →
  ∃ lo hi,
    correctPosition_txpacket 0 correction = Ok [lo; hi]
    ∧ readCorrection_bits (makeWord 0 lo hi)
      = Z.max (- MAX_CORRECTION) (Z.min correction MAX_CORRECTION).
Proof.
  intros Hrange.
  assert (In correction int16_values) as Hin by (apply z_range_In; lia).
  pose proof correctPosition_reads_back_all as Hall.
  rewrite forallb_forall in Hall. specialize (Hall _ Hin).
  unfold reads_back in Hall.
  destruct (correctPosition_txpacket 0 correction) as [[|lo [|hi [|]]]| |];
    try done.
  exists lo, hi. split; [done|]. by apply Z.eqb_eq in Hall.
Qed.

Lemma correctPosition_readCorrection_round_trip_witness :
  correctPosition_txpacket 0 (-100) = Ok [100; 8]
  ∧ ∃ lo hi,
      correctPosition_txpacket 0 (-100) = Ok [lo; hi]
      ∧ readCorrection_bits (makeWord 0 lo hi) = -100.
Proof.
  split; [reflexivity|].
  apply (correctPosition_readCorrection_round_trip (-100)). lia.
Defined.

(** ** rxPacket: what success means *)

Lemma readPort_size_sub (wait_length n : nat) (p : PortHandler)
  (r : list Z * PortHandler) :
  readPort (size_sub wait_length n) p = Ok r →
  (n <= 254)%nat → (wait_length <= 254)%nat →
  (n <= wait_length)%nat ∧ (length r.1 <= wait_length - n)%nat.
Proof.
  intros Hread Hn Hw.
  assert (n <= wait_length)%nat as Hle.
  { destruct (Nat.le_gt_cases n wait_length) as [|Hgt]; [done|].
    unfold readPort in Hread.
    assert ((VECTOR_MAX_SIZE <? size_sub wait_length n) = true) as Hbig.
    { apply Z.ltb_lt. unfold size_sub, SIZE_MOD, VECTOR_MAX_SIZE.
      replace (Z.of_nat wait_length - Z.of_nat n)
        with (2 ^ 64 - (Z.of_nat n - Z.of_nat wait_length) + (-1) * 2 ^ 64)
        by lia.
      rewrite Z_mod_plus_full. rewrite Z.mod_small; lia. }
    by rewrite Hbig in Hread. }
  split; [done|]. destruct r as [new_data p1].
  apply readPort_spec in Hread as (_ & _ & _ & _ & _ & _ & Hlen & _).
  rewrite size_sub_le in Hlen by (unfold SIZE_MOD; lia).
  simpl. lia.
Qed.

Lemma rx_body_sound (rxpacket : list Z) (wait_length : nat) (p : PortHandler)
  (step : rx_step) :
  rx_bounds rxpacket wait_length →
  rx_body rxpacket wait_length p = Ok step →
  match step with
  | RxContinue rxpacket' wait_length' _ => rx_bounds rxpacket' wait_length'
  | RxBreak rxpacket' result _ =>
      result = COMM_SUCCESS →
      ∃ id err params,
        rxpacket' = status_packet id err params
        ∧ id <= 253 ∧ err <= 127 ∧ (length params <= 248)%nat
  end.
Proof.
  intros (Hrx & Hw & Hmin) Hbody.
  rx_body_inv Hbody; subst step;
    apply readPort_size_sub in Hread as [Hfit Hnew]; try done;
    simpl in Hnew;
    assert (length (rxpacket ++ new_data) <= wait_length)%nat as Hlen1
      by (rewrite length_app; lia).
  - by destruct (_ =? _)%nat.
  - split_and!; [lia|lia|left; lia].
  - split_and!; [rewrite length_drop; lia|lia|left; lia].
  - apply (f_equal length) in Hcons. simpl in Hcons.
    split_and!; [lia|lia|left; lia].
  - apply header_locked_elim in Hlock as (id & len & err & tl & _ & _ & Hl & _ & ->).
    unfold RXPACKET_MAX_LEN, PKT_LENGTH in *.
    split_and!; [lia|lia|lia].
  - intros Hres.
    destruct (last_byte =? _) eqn:Hlast; [|done]. apply Z.eqb_eq in Hlast.
    apply header_locked_elim in Hlock as (id & len & err & tl & Hshape & Hid & Hl & Herr & Hexact).
    unfold RXPACKET_MAX_LEN, PKT_LENGTH in *.
    assert (length (rxpacket ++ new_data) = wait_length) as Hlen by lia.
    rewrite Hshape in *. cbn [length] in Hlen.
    assert (∃ k, length tl = S k) as [k Hk] by (exists (length tl - 1)%nat; lia).
    destruct (split_last_byte tl k Hk) as [z Htl].
    set (params := take k tl) in *.
    assert (length params = k) as Hparams by (unfold params; rewrite length_take; lia).
    assert (len = Z.of_nat k + 2) as Hlenb by lia.
    clearbody params.
    exists id, err, params. split_and!; try done; [|lia].
    rewrite checksum_loop_sum in Hsum by (cbn [length]; lia).
    injection Hsum as <-.
    replace (wait_length - 1 - 2)%nat with (3 + length params)%nat in * by lia.
    replace (wait_length - 1)%nat with (5 + length params)%nat in Hlastb by lia.
    rewrite Htl in Hlastb, Hlast |- *.
    cbn [take Nat.add] in Hlast. rewrite take_app_length in Hlast.
    change ((params ++ [z]) !! length params = Some last_byte) in Hlastb.
    rewrite list_lookup_middle in Hlastb by done. injection Hlastb as <-.
    unfold status_packet. cbv zeta. rewrite Hlenb, Hparams.
    cbn [app]. do 7 f_equal. rewrite Hlast, Hlenb.
    by rewrite Z.add_0_l, lnot_land_255_mod.
Qed.

Lemma rx_loop_sound (fuel : nat) (rxpacket : list Z) (wait_length : nat)
  (p p' : PortHandler) (received : list Z) :
  rx_bounds rxpacket wait_length →
  rx_loop fuel rxpacket wait_length p = Ok (received, COMM_SUCCESS, p') →
  ∃ id err params,
    received = status_packet id err params
    ∧ id <= 253 ∧ err <= 127 ∧ (length params <= 248)%nat.
Proof.
  revert rxpacket wait_length p.
  induction fuel as [|fuel IH]; intros rxpacket wait_length p Hb Hrun; [done|].
  simpl in Hrun. apply bind_Ok_inv in Hrun as (step & Hbody & Hrun).
  pose proof (rx_body_sound _ _ _ _ Hb Hbody) as Hstep.
  destruct step as [rx' w' p1|rx' res p1].
  - by apply IH in Hrun.
  - injection Hrun as -> -> ->. by apply Hstep.
Qed.

(** X5.  [rxPacket] reports [COMM_SUCCESS] for nothing but a well-formed
    status packet: what it returns then is the two sync bytes, an address of
    at most 0xFD, a length byte equal to the number of parameters plus 2, an
    error byte of at most 0x7F, at most 248 parameters and the checksum of
    address, length, error and parameters. *)
Theorem rxPacket_success_sound (p p' : PortHandler) (received : list Z) :
  rxPacket p = Ok (received, COMM_SUCCESS, p') →
  ∃ id err params,
    received = status_packet id err params
    ∧ id <= 253 ∧ err <= 127 ∧ (length params <= 248)%nat.
Proof.
  unfold rxPacket. intros H.
  apply bind_Ok_inv in H as ([[rx res] p1] & Hrun & H). simplify_eq.
  apply rx_loop_sound in Hrun; [done|].
  unfold rx_bounds. simpl. lia.
Qed.

Lemma rxPacket_success_sound_witness :
  ∃ p',
    rxPacket noisy_port = Ok ([255; 255; 1; 2; 0; 252], COMM_SUCCESS, p')
    ∧ ∃ id err params,
        [255; 255; 1; 2; 0; 252] = status_packet id err params
        ∧ id <= 253 ∧ err <= 127 ∧ (length params <= 248)%nat.
Proof.
  eexists. split; [vm_compute; reflexivity|].
  eapply (rxPacket_success_sound noisy_port). vm_compute. reflexivity.
Defined.

(** ** txRxPacket: how a transaction can end *)

Lemma rx_loop_result (fuel : nat) (rxpacket : list Z) (wait_length : nat)
  (p p' : PortHandler) (received : list Z) (result : Z) :
  rx_loop fuel rxpacket wait_length p = Ok (received, result, p') →
  reception_result result.
Proof.
  revert rxpacket wait_length p.
  induction fuel as [|fuel IH]; intros rxpacket wait_length p Hrun; [done|].
  simpl in Hrun. apply bind_Ok_inv in Hrun as (step & Hbody & Hrun).
  rx_body_inv Hbody; subst step; try by (apply IH in Hrun).
  - injection Hrun as <- <- <-. unfold reception_result.
    destruct (_ =? _)%nat; auto.
  - injection Hrun as <- <- <-. unfold reception_result.
    destruct (_ =? _); auto.
Qed.

Lemma rxPacket_result (p p' : PortHandler) (received : list Z) (result : Z) :
  rxPacket p = Ok (received, result, p') →
  is_using_ p' = false ∧ reception_result result.
Proof.
  unfold rxPacket. intros H.
  apply bind_Ok_inv in H as ([[rx res] p1] & Hrun & H). simplify_eq.
  split; [done|]. by apply rx_loop_result in Hrun.
Qed.

Lemma txrx_loop_unfold (fuel : nat) (txpacket : list Z) (p : PortHandler) :
  txrx_loop (S fuel) txpacket p
  = '(rxpacket, result, p) ← rxPacket p;
    if negb (result =? COMM_SUCCESS) then Ok (rxpacket, result, p)
    else if (PKT_ID <? length rxpacket)%nat then
      tx_id ← at_ txpacket PKT_ID;
      rx_id ← at_ rxpacket PKT_ID;
      if tx_id =? rx_id then Ok (rxpacket, result, p)
      else txrx_loop fuel txpacket p
    else txrx_loop fuel txpacket p.
Proof. reflexivity. Qed.

Arguments txrx_loop : simpl never.

Lemma txrx_loop_result (fuel : nat) (txpacket : list Z) (p p' : PortHandler)
  (received : list Z) (result : Z) :
  txrx_loop fuel txpacket p = Ok (received, result, p') →
  is_using_ p' = false ∧ reception_result result
  ∧ (result = COMM_SUCCESS →
     (∃ id, txpacket !! PKT_ID = Some id ∧ received !! PKT_ID = Some id)
     ∧ ∃ id err params,
         received = status_packet id err params
         ∧ id <= 253 ∧ err <= 127 ∧ (length params <= 248)%nat).
Proof.
  revert p. induction fuel as [|fuel IH]; intros p Hrun; [done|].
  rewrite txrx_loop_unfold in Hrun.
  apply bind_Ok_inv in Hrun as ([[rx res] p1] & Hrx & Hrun).
  pose proof (rxPacket_result _ _ _ _ Hrx) as [Hfree Hres].
  destruct (res =? COMM_SUCCESS) eqn:Hok; simpl in Hrun.
  - apply Z.eqb_eq in Hok. subst res.
    destruct (_ <? _)%nat; [|by apply IH in Hrun].
    apply bind_Ok_inv in Hrun as (tx_id & Htx & Hrun).
    apply bind_Ok_inv in Hrun as (rx_id & Hrxid & Hrun).
    destruct (tx_id =? rx_id) eqn:Hid; [|by apply IH in Hrun].
    apply Z.eqb_eq in Hid. subst rx_id. injection Hrun as <- <- <-.
    apply at_Ok_inv in Htx, Hrxid.
    split_and!; try done. intros _. split; [eauto|].
    unfold rxPacket in Hrx.
    apply bind_Ok_inv in Hrx as ([[rx0 res0] p0] & Hrun & Hrx).
    injection Hrx as -> -> _.
    apply rx_loop_sound in Hrun; [done|].
    unfold rx_bounds. simpl. lia.
  - injection Hrun as <- <- <-. split_and!; try done.
    intros ->. done.
Qed.

Lemma txPacket_result (txpacket sent : list Z) (p p1 : PortHandler) (result : Z) :
  is_using_ p = false →
  txPacket txpacket p = Ok (result, sent, p1) →
  result = COMM_SUCCESS
  ∨ (result = COMM_TX_ERROR ∨ result = COMM_TX_FAIL) ∧ is_using_ p1 = false.
Proof.
  intros Hfree H. unfold txPacket in H.
  apply bind_Ok_inv in H as (len & _ & H).
  unfold isUsing in H. rewrite Hfree in H.
  destruct (_ <? _); [injection H as <- <- <-; auto|].
  apply bind_Ok_inv in H as (tx1 & _ & H).
  apply bind_Ok_inv in H as (tx2 & _ & H).
  apply bind_Ok_inv in H as (checksum & _ & H).
  apply bind_Ok_inv in H as (tx3 & _ & H).
  destruct (writePort _ _) as [written p2].
  destruct (negb _); injection H as <- <- <-; auto.
Qed.

(** X6.  A transaction releases the port.  When [txRxPacket] is called with
    the busy flag clear and returns, the flag is clear again and the result
    is one of [COMM_SUCCESS], [COMM_TX_ERROR], [COMM_TX_FAIL],
    [COMM_RX_TIMEOUT] and [COMM_RX_CORRUPT], whatever the packet and
    whatever the device sends. *)
Theorem txRxPacket_releases_port (txpacket received : list Z)
  (p p' : PortHandler) (result error : Z) :
  is_using_ p = false →
  txRxPacket txpacket p = Ok (received, result, error, p') →
  is_using_ p' = false
  ∧ (result = COMM_SUCCESS ∨ result = COMM_TX_ERROR ∨ result = COMM_TX_FAIL
     ∨ result = COMM_RX_TIMEOUT ∨ result = COMM_RX_CORRUPT).
Proof.
  intros Hfree H. unfold txRxPacket in H.
  apply bind_Ok_inv in H as ([[res sent] p1] & Htx & H).
  apply (txPacket_result _ _ _ _ _ Hfree) in Htx as [->|[Hres Hfree1]].
  - simpl in H.
    apply bind_Ok_inv in H as (id & _ & H).
    destruct (id =? BROADCAST_ID); [injection H as <- <- <- <-; auto|].
    apply bind_Ok_inv in H as (inst & _ & H).
    apply bind_Ok_inv in H as (p2 & _ & H).
    apply bind_Ok_inv in H as ([[rx res] p3] & Hloop & H).
    apply txrx_loop_result in Hloop as (Hfree3 & Hres & _).
    assert (p' = p3 ∧ result = res) as [-> ->].
    { destruct (_ && _); [|by injection H as <- <- <- <-].
      apply bind_Ok_inv in H as (? & _ & H).
      apply bind_Ok_inv in H as (? & _ & H).
      destruct (_ =? _); [|by injection H as <- <- <- <-].
      apply bind_Ok_inv in H as (? & _ & H). by injection H as <- <- <- <-. }
    split; [done|]. destruct Hres as [->|[->| ->]]; auto.
  - assert (negb (res =? COMM_SUCCESS) = true) as Hne
      by (by destruct Hres as [-> | ->]).
    rewrite Hne in H. injection H as <- <- <- <-.
    split; [done|]. destruct Hres as [-> | ->]; auto.
Qed.

Lemma txRxPacket_releases_port_witness :
  is_using_ other_device_port = false
  ∧ ∃ p',
      txRxPacket ping_packet other_device_port
      = Ok ([], COMM_RX_TIMEOUT, 0, p')
      ∧ is_using_ p' = false
      ∧ (COMM_RX_TIMEOUT = COMM_SUCCESS ∨ COMM_RX_TIMEOUT = COMM_TX_ERROR
         ∨ COMM_RX_TIMEOUT = COMM_TX_FAIL
         ∨ COMM_RX_TIMEOUT = COMM_RX_TIMEOUT
         ∨ COMM_RX_TIMEOUT = COMM_RX_CORRUPT).
Proof.
  split; [reflexivity|]. eexists. split; [vm_compute; reflexivity|].
  eapply (txRxPacket_releases_port ping_packet [] other_device_port);
    [reflexivity|vm_compute; reflexivity].
Defined.

(** X7.  A transaction never takes the reply of another device for its own.
    When [txRxPacket] returns [COMM_SUCCESS] for a packet of bytes addressed
    to [id], not the broadcast address, the reply it returns is a well-formed
    status packet that carries the address [id], and the error it returns is
    the error byte of that packet. *)
Theorem txRxPacket_reply_matches (txpacket received : list Z)
  (p p' : PortHandler) (id error : Z) :
  Forall is_byte txpacket →
  txpacket !! PKT_ID = Some id →
  id ≠ BROADCAST_ID →
  txRxPacket txpacket p = Ok (received, COMM_SUCCESS, error, p') →
  ∃ params,
    received = status_packet id error params
    ∧ id <= 253 ∧ error <= 127 ∧ (length params <= 248)%nat.
Proof.
  intros Hbytes Hid Hne H. unfold txRxPacket in H.
  apply bind_Ok_inv in H as ([[res sent] p1] & Htx & H).
  destruct (res =? COMM_SUCCESS) eqn:Hres; simpl in H;
    [|apply Z.eqb_neq in Hres; congruence].
  apply Z.eqb_eq in Hres. subst res.
  pose proof (txPacket_keeps_id _ _ _ _ Hbytes Htx) as Hsent.
  rewrite Hid in Hsent. rewrite (at_Ok _ _ _ Hsent) in H. simpl in H.
  apply Z.eqb_neq in Hne. rewrite Hne in H.
  apply bind_Ok_inv in H as (inst & _ & H).
  apply bind_Ok_inv in H as (p2 & _ & H).
  apply bind_Ok_inv in H as ([[rx res] p3] & Hloop & H).
  apply txrx_loop_result in Hloop as (_ & _ & Hok).
  destruct (res =? COMM_SUCCESS) eqn:Hres; simpl in H.
  - apply Z.eqb_eq in Hres. subst res.
    destruct Hok as [(id1 & Hid1 & Hrxid) (id2 & err & params & -> & ? & ? & ?)];
      [done|].
    rewrite Hsent in Hid1. injection Hid1 as <-.
    injection Hrxid as ->.
    rewrite status_packet_length in H.
    replace (PKT_ERROR <? length params + 6)%nat with true in H
      by (symmetry; apply Nat.ltb_lt; unfold PKT_ERROR; lia).
    rewrite (at_Ok (status_packet id err params) PKT_ID id eq_refl) in H.
    rewrite (at_Ok (status_packet id err params) PKT_ERROR err eq_refl) in H.
    simpl in H. rewrite Z.eqb_refl in H. injection H as <- <- <-. eauto.
  - apply Z.eqb_neq in Hres. congruence.
Qed.

Lemma txRxPacket_reply_matches_witness :
  ∃ p',
    txRxPacket ping_packet model_0101_port
    = Ok ([255; 255; 1; 2; 0; 252], COMM_SUCCESS, 0, p')
    ∧ ∃ params,
        [255; 255; 1; 2; 0; 252] = status_packet 1 0 params
        ∧ 1 <= 253 ∧ 0 <= 127 ∧ (length params <= 248)%nat.
Proof.
  eexists. split; [vm_compute; reflexivity|].
  eapply (txRxPacket_reply_matches ping_packet _ model_0101_port _ 1 0).
  - unfold ping_packet, is_byte. repeat constructor; lia.
  - reflexivity.
  - discriminate.
  - vm_compute. reflexivity.
Defined.

(** ** One exchange with a device *)

Lemma txPacket_sends (txpacket : list Z) (p : PortHandler) (len : Z) :
  txpacket !! PKT_LENGTH = Some len →
  Z.of_nat (length txpacket) = len + 4 →
  len + 4 <= TXPACKET_MAX_LEN →
  is_using_ p = false →
  serial_fd_ p ≠ -1 →
  write_report (length txpacket) p = Z.of_nat (length txpacket) →
  ∃ p1,
    txPacket txpacket p = Ok (COMM_SUCCESS, instruction_frame txpacket len, p1)
    ∧ after_write (instruction_frame txpacket len) p p1.
Proof.
  intros Hlen Hsize Hfit Hfree Hfd Hrep.
  assert (0 <= len) as Hlen0.
  { apply lookup_lt_Some in Hlen. unfold PKT_LENGTH in Hlen. lia. }
  rewrite (txPacket_frame _ _ _ Hlen Hsize Hfit Hfree). cbv zeta.
  pose proof (instruction_frame_length txpacket len Hlen0 Hsize) as Hflen.
  pose proof (writePort_report (instruction_frame txpacket len) p true) as Hw.
  rewrite Hflen, Hrep in Hw.
  revert Hw. unfold writePort, clearPort, setUsing.
  apply Z.eqb_neq in Hfd.
  cbn [serial_fd_]. rewrite Hfd. cbn [serial_fd_]. rewrite Hfd. cbn [orb].
  destruct (length (instruction_frame txpacket len) =? 0)%nat eqn:Hz.
  { apply Nat.eqb_eq in Hz. cbn [fst]. lia. }
  cbn [fst tx_accept is_using_ rx_fifo rx_line deadline_polls timer_script io_log].
  intros Hw. rewrite Hw.
  replace (len + 4 =? _) with true by (symmetry; apply Z.eqb_eq; lia).
  cbn [negb]. eexists. split; [reflexivity|].
  unfold after_write. cbn [serial_fd_ is_using_ rx_fifo rx_line tx_accept
    deadline_polls timer_script io_log].
  split_and!; try done.
  do 2 f_equal. rewrite Hflen in *. destruct (_ <? 0) eqn:Hneg; lia.
Qed.

(** The reception of a packet on a clean line, in the form the transactions
    use it. *)
Lemma rxPacket_receives (params rest : list Z) (id err : Z) (p : PortHandler) :
  id <= 253 → err <= 127 →
  Z.of_nat (length params) + 2 <= RXPACKET_MAX_LEN →
  serial_fd_ p ≠ -1 →
  pending p = status_packet id err params ++ rest →
  (length (rx_line p) <= deadline_polls p)%nat →
  ∃ p', rxPacket p = Ok (status_packet id err params, COMM_SUCCESS, p')
        ∧ pending p' = rest
        ∧ is_using_ p' = false.
Proof.
  intros Hid Herr Hlen Hfd Hstream Hline.
  assert (resync_inv (status_packet id err params) rest [] 6 p) as Hinv.
  { exists []. split_and!; simpl; try done; [lia|by left]. }
  destruct (rx_loop_resync id err params Hid Herr Hlen (rx_fuel p) _ _ _ _ Hinv)
    as (p' & Hrun & Hrest).
  { apply rx_loop_terminates. unfold rx_fuel, rx_measure. simpl. lia. }
  exists (setUsing false p'). unfold rxPacket. rewrite Hrun. simpl.
  split_and!; done.
Qed.

Lemma instruction_frame_lookup (txpacket : list Z) (len : Z) (i : nat) :
  Z.of_nat (length txpacket) = len + 4 →
  (2 <= i)%nat → Z.of_nat i < len + 3 →
  instruction_frame txpacket len !! i = txpacket !! i.
Proof.
  intros Hsize H2 Hi.
  destruct i as [|[|i]]; try lia.
  change (S (S i)) with (2 + i)%nat. rewrite <- !lookup_drop.
  unfold instruction_frame. cbv zeta.
  change (drop 2 (255 :: 255 :: ?l)) with l.
  rewrite lookup_app_l by (rewrite length_take, length_drop; lia).
  by rewrite lookup_take_lt by lia.
Qed.

(** One exchange on a free, open port whose write goes through: the request
    [txpacket], addressed to [id], is answered by one well-formed status
    packet from [id'] and then silence. *)
Lemma txRxPacket_exchange (txpacket params : list Z) (p : PortHandler)
  (len id inst id' err : Z) :
  Forall is_byte txpacket →
  txpacket !! PKT_LENGTH = Some len →
  txpacket !! PKT_ID = Some id →
  txpacket !! PKT_INSTRUCTION = Some inst →
  Z.of_nat (length txpacket) = len + 4 →
  len + 4 <= TXPACKET_MAX_LEN →
  2 <= len → (inst = INST_READ → 3 <= len) →
  id ≠ BROADCAST_ID →
  is_using_ p = false →
  serial_fd_ p ≠ -1 →
  write_report (length txpacket) p = Z.of_nat (length txpacket) →
  id' <= 253 → err <= 127 →
  Z.of_nat (length params) + 2 <= RXPACKET_MAX_LEN →
  concat (rx_line p) = status_packet id' err params →
  (length (rx_line p) <= hd 0%nat (timer_script p))%nat →
  ∃ p',
    txRxPacket txpacket p
    = Ok (if id =? id'
          then (status_packet id' err params, COMM_SUCCESS, err, p')
          else ([], COMM_RX_TIMEOUT, 0, p'))
    ∧ is_using_ p' = false
    ∧ pending p' = [].
Proof.
  intros Hbytes Hlen Hid Hinst Hsize Hfit Hlen2 Hread Hne Hfree Hfd Hrep
    Hid' Herr Hplen Hline Htimer.
  destruct (txPacket_sends _ _ _ Hlen Hsize Hfit Hfree Hfd Hrep)
    as (p1 & Htx & Hp1).
  destruct Hp1 as (Hfd1 & _ & Hfifo1 & Hline1 & _ & Htimer1 & _).
  pose proof (instruction_frame_length txpacket len ltac:(lia) Hsize) as Hflen.
  unfold txRxPacket. rewrite Htx. cbn [mbind outcome_bind negb].
  change (COMM_SUCCESS =? COMM_SUCCESS) with true. cbn [negb andb].
  set (sent := instruction_frame txpacket len) in *.
  assert (sent !! PKT_ID = Some id) as Hsid.
  { unfold sent. rewrite instruction_frame_lookup; [done|done|done|].
    unfold PKT_ID. lia. }
  assert (sent !! PKT_INSTRUCTION = Some inst) as Hsinst.
  { unfold sent. rewrite instruction_frame_lookup; [done|done| |];
      unfold PKT_INSTRUCTION; lia. }
  rewrite (at_Ok _ _ _ Hsid). cbn [mbind outcome_bind].
  apply Z.eqb_neq in Hne. rewrite Hne.
  rewrite (at_Ok _ _ _ Hsinst). cbn [mbind outcome_bind].
  assert (∃ n, (if inst =? INST_READ
                then n ← at_ sent (PKT_PARAMETER0 + 1);
                     Ok (setPacketTimeout (n + 6) p1)
                else Ok (setPacketTimeout 6 p1))
               = Ok (setPacketTimeout n p1)) as [n ->].
  { destruct (inst =? INST_READ) eqn:Hi; [|eauto].
    apply Z.eqb_eq in Hi. specialize (Hread Hi).
    destruct (lookup_lt_is_Some_2 sent (PKT_PARAMETER0 + 1)) as [m Hm].
    { change (PKT_PARAMETER0 + 1)%nat with 6%nat. lia. }
    rewrite (at_Ok _ _ _ Hm). cbn [mbind outcome_bind]. eauto. }
  cbn [mbind outcome_bind].
  set (p2 := setPacketTimeout n p1).
  assert (pending p2 = status_packet id' err params ++ []) as Hpend2.
  { unfold pending, p2, setPacketTimeout. cbn [rx_fifo rx_line].
    rewrite Hfifo1, Hline1, Hline. by rewrite app_nil_r. }
  destruct (rxPacket_receives params [] id' err p2) as (p3 & Hrx & Hpend3 & Hfree3);
    try done.
  { unfold p2, setPacketTimeout. cbn [serial_fd_]. congruence. }
  { unfold p2, setPacketTimeout. cbn [rx_line deadline_polls]. congruence. }
  rewrite Hpend2, app_nil_r, status_packet_length.
  rewrite txrx_loop_unfold, Hrx. cbn [mbind outcome_bind].
  change (COMM_SUCCESS =? COMM_SUCCESS) with true. cbn [negb].
  rewrite status_packet_length.
  replace (PKT_ID <? length params + 6)%nat with true
    by (symmetry; apply Nat.ltb_lt; unfold PKT_ID; lia).
  rewrite (at_Ok _ _ _ Hsid).
  rewrite (at_Ok (status_packet id' err params) PKT_ID id' eq_refl).
  cbn [mbind outcome_bind].
  destruct (id =? id') eqn:Hsame.
  - cbn [mbind outcome_bind].
    change (COMM_SUCCESS =? COMM_SUCCESS) with true. cbn [andb].
    rewrite status_packet_length.
    replace (PKT_ERROR <? length params + 6)%nat with true
      by (symmetry; apply Nat.ltb_lt; unfold PKT_ERROR; lia).
    rewrite (at_Ok (status_packet id' err params) PKT_ID id' eq_refl).
    rewrite (at_Ok (status_packet id' err params) PKT_ERROR err eq_refl).
    cbn [mbind outcome_bind]. rewrite Hsame. cbn [mbind outcome_bind].
    eauto.
  - destruct (rxPacket_silent p3 Hpend3) as (p4 & Hrx4 & Hfree4).
    replace (length params + 6)%nat with (S (length params + 5)) by lia.
    rewrite txrx_loop_unfold, Hrx4. cbn [mbind outcome_bind].
    change (COMM_RX_TIMEOUT =? COMM_SUCCESS) with false. cbn [negb andb].
    exists p4. split_and!; try done.
    apply rxPacket_consumes in Hrx4 as [Hle _].
    rewrite Hpend3 in Hle. simpl in Hle.
    destruct (pending p4); [done|simpl in Hle; lia].
Qed.

(** X8.  The reply of another device is dropped.  On a free, open port that
    takes the whole request, when the only thing that arrives before the
    deadline is a well-formed status packet from an address other than the
    one the request went to, [txRxPacket] returns no packet,
    [COMM_RX_TIMEOUT] and error 0, with the port released and nothing left
    unread. *)
Theorem txRxPacket_ignores_other_device (txpacket params : list Z)
  (p : PortHandler) (len id inst id' err : Z) :
  Forall is_byte txpacket →
  txpacket !! PKT_LENGTH = Some len →
  txpacket !! PKT_ID = Some id →
  txpacket !! PKT_INSTRUCTION = Some inst →
  Z.of_nat (length txpacket) = len + 4 →
  len + 4 <= TXPACKET_MAX_LEN →
  2 <= len → (inst = INST_READ → 3 <= len) →
  id ≠ BROADCAST_ID →
  is_using_ p = false →
  serial_fd_ p ≠ -1 →
  write_report (length txpacket) p = Z.of_nat (length txpacket) →
  id' <= 253 → err <= 127 →
  Z.of_nat (length params) + 2 <= RXPACKET_MAX_LEN →
  concat (rx_line p) = status_packet id' err params →
  (length (rx_line p) <= hd 0%nat (timer_script p))%nat →
  id' ≠ id →
  ∃ p',
    txRxPacket txpacket p = Ok ([], COMM_RX_TIMEOUT, 0, p')
    ∧ is_using_ p' = false
    ∧ pending p' = [].
Proof.
  intros Hbytes Hlen Hid Hinst Hsize Hfit Hlen2 Hread Hne Hfree Hfd Hrep
    Hid' Herr Hplen Hline Htimer Hother.
  destruct (txRxPacket_exchange txpacket params p len id inst id' err)
    as (p' & Hx & Hp'); try done.
  replace (id =? id') with false in Hx
    by (symmetry; apply Z.eqb_neq; congruence).
  eauto.
Qed.

Lemma txRxPacket_ignores_other_device_witness :
  concat (rx_line other_device_port) = status_packet 2 0 []
  ∧ ∃ p',
      txRxPacket ping_packet other_device_port
      = Ok ([], COMM_RX_TIMEOUT, 0, p')
      ∧ is_using_ p' = false
      ∧ pending p' = [].
Proof.
  split; [reflexivity|].
  apply (txRxPacket_ignores_other_device ping_packet [] other_device_port
           2 1 INST_PING 2 0);
    try reflexivity; try discriminate; try (vm_compute; lia);
    try (simpl; lia).
  unfold ping_packet, is_byte. repeat constructor; lia.
Defined.

(** ** Typed transactions *)

Lemma readTxRx_exchange (sts_id address length_ err : Z) (params : list Z)
  (p : PortHandler) :
  0 <= sts_id < 254 → is_byte address → is_byte length_ →
  is_using_ p = false → serial_fd_ p ≠ -1 →
  write_report 8 p = 8 →
  err <= 127 → (length params <= 248)%nat →
  concat (rx_line p) = status_packet sts_id err params →
  (length (rx_line p) <= hd 0%nat (timer_script p))%nat →
  ∃ p',
    readTxRx sts_id address length_ p
    = Ok (if (PKT_PARAMETER0 + Z.to_nat length_ <=? length params + 6)%nat
          then take (Z.to_nat length_)
                    (drop PKT_PARAMETER0 (status_packet sts_id err params))
          else [],
          COMM_SUCCESS, err, p')
    ∧ is_using_ p' = false.
Proof.
  intros Hid Haddr Hlen Hfree Hfd Hrep Herr Hparams Hline Htimer.
  unfold is_byte in *.
  destruct (txRxPacket_exchange
              [0; 0; sts_id; 4; INST_READ; address; length_; 0] params p
              4 sts_id INST_READ sts_id err)
    as (p' & Hx & Hfree' & _); try done.
  { repeat constructor; unfold INST_READ; lia. }
  { unfold BROADCAST_ID. lia. }
  { lia. }
  { unfold RXPACKET_MAX_LEN. lia. }
  rewrite Z.eqb_refl in Hx. exists p'. split; [|done].
  unfold readTxRx.
  replace (BROADCAST_ID <=? sts_id) with false
    by (symmetry; apply Z.leb_gt; unfold BROADCAST_ID; lia).
  cbv zeta. rewrite Hx. cbn [mbind outcome_bind].
  change (COMM_SUCCESS =? COMM_SUCCESS) with true. cbn [andb].
  rewrite status_packet_length.
  destruct (_ <=? _)%nat; [|done].
  by rewrite (at_Ok (status_packet sts_id err params) PKT_ERROR err eq_refl).
Qed.

(** X9.  What [readTxRx] makes of a reply.  On a free, open port that takes
    the request, when device [sts_id] answers with a well-formed status
    packet in time, [readTxRx] returns [COMM_SUCCESS] and the error byte of
    the reply, and as data: the first [length_] parameters when the reply
    has at least that many; the parameters followed by the checksum byte when
    the reply is one parameter short (the size test counts the checksum);
    nothing when it is shorter still.  Stale bytes in the receive queue are
    flushed before the request goes out. *)
Theorem readTxRx_reads (sts_id address length_ err : Z) (params : list Z)
  (p : PortHandler) :
  0 <= sts_id < 254 → is_byte address → is_byte length_ →
  is_using_ p = false → serial_fd_ p ≠ -1 →
  write_report 8 p = 8 →
  err <= 127 → (length params <= 248)%nat →
  concat (rx_line p) = status_packet sts_id err params →
  (length (rx_line p) <= hd 0%nat (timer_script p))%nat →
  ∃ data p',
    readTxRx sts_id address length_ p = Ok (data, COMM_SUCCESS, err, p')
    ∧ is_using_ p' = false
    ∧ (length_ <= Z.of_nat (length params) →
       data = take (Z.to_nat length_) params)
    ∧ (length_ = Z.of_nat (length params) + 1 →
       data = params
              ++ [Z.land
                    (Z.lnot
                       (sum_bytes
                          (sts_id :: Z.of_nat (length params) + 2 :: err
                           :: params))) 255])
    ∧ (Z.of_nat (length params) + 1 < length_ → data = []).
Proof.
  intros Hid Haddr Hlen Hfree Hfd Hrep Herr Hparams Hline Htimer.
  destruct (readTxRx_exchange sts_id address length_ err params p)
    as (p' & Hread & Hfree'); try done.
  unfold is_byte in Hlen.
  eexists _, p'. split; [exact Hread|]. split; [done|].
  change (drop PKT_PARAMETER0 (status_packet sts_id err params))
    with (params
          ++ [Z.land
                (Z.lnot
                   (sum_bytes
                      (sts_id :: Z.of_nat (length params) + 2 :: err
                       :: params))) 255]).
  destruct (_ <=? _)%nat eqn:Hfits;
    [apply Nat.leb_le in Hfits|apply Nat.leb_gt in Hfits];
    unfold PKT_PARAMETER0 in Hfits.
  - split_and!.
    + intros Hle. by rewrite take_app_le by lia.
    + intros Heq. rewrite take_ge; [done|]. rewrite length_app. simpl. lia.
    + lia.
  - split_and!; [lia|lia|done].
Qed.

Lemma readTxRx_reads_witness :
  concat (rx_line read_reply_port) = status_packet 1 0 [0; 8]
  ∧ ∃ data p',
      readTxRx 1 56 2 read_reply_port = Ok (data, COMM_SUCCESS, 0, p')
      ∧ is_using_ p' = false
      ∧ (2 <= Z.of_nat (length [0; 8]) → data = take (Z.to_nat 2) [0; 8])
      ∧ (2 = Z.of_nat (length [0; 8]) + 1 →
         data = [0; 8]
                ++ [Z.land (Z.lnot (sum_bytes [1; Z.of_nat 2 + 2; 0; 0; 8]))
                      255])
      ∧ (Z.of_nat (length [0; 8]) + 1 < 2 → data = []).
Proof.
  split; [reflexivity|].
  apply (readTxRx_reads 1 56 2 0 [0; 8] read_reply_port);
    try reflexivity; try (unfold is_byte; lia); try (simpl; lia);
    try discriminate.
Defined.

(** X10.  [readPosition] end to end.  Under the same conditions, with an
    error byte of 0: a reply with two or more parameters gives the word made
    of the first two; a reply with no parameter gives position 0, not
    [nullopt]; a reply with one parameter gives the word made of that byte
    and the checksum byte. *)
Theorem readPosition_reads (sts_end_ sts_id : Z) (params : list Z)
  (p : PortHandler) :
  0 <= sts_id < 254 →
  is_using_ p = false → serial_fd_ p ≠ -1 →
  write_report 8 p = 8 →
  (length params <= 248)%nat →
  concat (rx_line p) = status_packet sts_id 0 params →
  (length (rx_line p) <= hd 0%nat (timer_script p))%nat →
  ∃ p',
    readPosition sts_end_ sts_id p
    = Ok (Some
            match params with
            | d0 :: d1 :: _ => makeWord sts_end_ d0 d1
            | [d0] =>
                makeWord sts_end_ d0
                  (Z.land (Z.lnot (sum_bytes [sts_id; 3; 0; d0])) 255)
            | [] => 0
            end, p')
    ∧ is_using_ p' = false.
Proof.
  intros Hid Hfree Hfd Hrep Hparams Hline Htimer.
  destruct (readTxRx_exchange sts_id STS_PRESENT_POSITION_L 2 0 params p)
    as (p' & Hread & Hfree'); try done.
  exists p'. split; [|done].
  unfold readPosition, read2ByteTxRx. rewrite Hread.
  cbn [mbind outcome_bind].
  destruct params as [|d0 [|d1 params]]; [reflexivity..|].
  replace (PKT_PARAMETER0 + Z.to_nat 2 <=? length (d0 :: d1 :: params) + 6)%nat
    with true
    by (symmetry; apply Nat.leb_le; cbn [length]; unfold PKT_PARAMETER0; lia).
  reflexivity.
Qed.

Lemma readPosition_reads_witness :
  concat (rx_line read_reply_port) = status_packet 1 0 [0; 8]
  ∧ ∃ p',
      readPosition 0 1 read_reply_port = Ok (Some (makeWord 0 0 8), p')
      ∧ is_using_ p' = false.
Proof.
  split; [reflexivity|].
  apply (readPosition_reads 0 1 [0; 8] read_reply_port);
    try reflexivity; try lia; try (simpl; lia); try discriminate.
Defined.

Lemma copy_loop_copies (hdr data : list Z) (count i : nat) :
  length hdr = 6%nat → (i + count <= length data)%nat →
  copy_loop (hdr ++ take i data ++ replicate (count + 1) 0) data i count
  = Ok (hdr ++ take (i + count) data ++ [0]).
Proof.
  intros Hhdr. revert i. induction count as [|count IH]; intros i Hi.
  - simpl. by rewrite Nat.add_0_r.
  - destruct (lookup_lt_is_Some_2 data i) as [d Hd]; [lia|].
    cbn [copy_loop]. rewrite (at_Ok _ _ _ Hd). cbn [mbind outcome_bind].
    assert (length (take i data) = i) as Hti by (rewrite length_take; lia).
    rewrite set_at_Ok
      by (rewrite !length_app, length_replicate, Hhdr, Hti;
          unfold PKT_PARAMETER0; lia).
    cbn [mbind outcome_bind].
    replace (PKT_PARAMETER0 + 1 + i)%nat with (length hdr + (length (take i data) + 0))%nat
      by (rewrite Hhdr, Hti; unfold PKT_PARAMETER0; lia).
    rewrite insert_app_r, insert_app_r.
    change (<[0%nat:=d]> (replicate (S count + 1) 0))
      with (d :: replicate (count + 1) 0).
    replace (take i data ++ d :: replicate (count + 1) 0)
      with (take (S i) data ++ replicate (count + 1) 0).
    2:{ rewrite (take_S_r _ _ _ Hd), <- app_assoc. done. }
    rewrite IH by lia. by replace (S i + count)%nat with (i + S count)%nat by lia.
Qed.

Lemma write_packet_Ok (sts_id address length_ : Z) (data : list Z) :
  0 <= length_ → (Z.to_nat length_ <= length data)%nat →
  write_packet sts_id address length_ data
  = Ok ([0; 0; sts_id; to_uint8 (length_ + 3); INST_WRITE; address]
        ++ take (Z.to_nat length_) data ++ [0]).
Proof.
  intros H0 Hdata. unfold write_packet.
  replace (Z.to_nat (length_ + 7)) with (6 + (Z.to_nat length_ + 1))%nat by lia.
  rewrite replicate_add. cbn [replicate app].
  rewrite !set_at_Ok by (simpl; unfold PKT_ID, PKT_LENGTH, PKT_INSTRUCTION, PKT_PARAMETER0; lia).
  cbn [mbind outcome_bind insert list_insert PKT_ID PKT_LENGTH PKT_INSTRUCTION PKT_PARAMETER0].
  apply (copy_loop_copies [0; 0; sts_id; to_uint8 (length_ + 3); INST_WRITE; address] data (Z.to_nat length_) 0); [done|lia].
Qed.

Lemma write_frame_instruction (sts_id address : Z) (data : list Z) :
  instruction_frame
    ([0; 0; sts_id; Z.of_nat (length data) + 3; INST_WRITE; address]
     ++ data ++ [0])
    (Z.of_nat (length data) + 3)
  = write_frame sts_id address data.
Proof.
  unfold instruction_frame, write_frame. cbv zeta.
  change (drop 2 ([0; 0; sts_id; Z.of_nat (length data) + 3; INST_WRITE; address] ++ data ++ [0]))
    with ([sts_id; Z.of_nat (length data) + 3; INST_WRITE; address] ++ data ++ [0]).
  replace (Z.to_nat (Z.of_nat (length data) + 3) + 1)%nat
    with (length ([sts_id; Z.of_nat (length data) + 3; INST_WRITE; address] ++ data))
    by (rewrite length_app; simpl; lia).
  rewrite (app_assoc _ data [0]), take_app_length. done.
Qed.

(** X11.  Wire format of a write.  For up to 243 data bytes on a free, open
    port, [writeTxOnly] hands the port exactly 0xFF 0xFF, the address of the
    device, the number of data bytes plus 3, [INST_WRITE], the register
    address, the data and the checksum; it returns [COMM_SUCCESS] when the
    port took all of it and [COMM_TX_FAIL] otherwise, and leaves the busy
    flag clear. *)
Theorem writeTxOnly_wire_format (sts_id address : Z) (data : list Z)
  (p : PortHandler) :
  (length data <= 243)%nat →
  is_using_ p = false →
  serial_fd_ p ≠ -1 →
  ∃ accepted p',
    writeTxOnly sts_id address (Z.of_nat (length data)) data p
    = Ok (if accepted =? Z.of_nat (length data) + 7
          then COMM_SUCCESS else COMM_TX_FAIL, p')
    ∧ io_log p'
      = EvWrite (write_frame sts_id address data) accepted :: EvFlush
        :: io_log p
    ∧ is_using_ p' = false.
Proof.
  intros Hlen Hfree Hfd. unfold writeTxOnly.
  rewrite write_packet_Ok by lia. rewrite Nat2Z.id, firstn_all.
  unfold to_uint8. rewrite Z.mod_small by lia. cbn [mbind outcome_bind].
  rewrite (txPacket_frame _ _ (Z.of_nat (length data) + 3)); try done.
  2:{ rewrite !length_app. simpl. lia. }
  2:{ unfold TXPACKET_MAX_LEN. lia. }
  rewrite write_frame_instruction. cbv zeta.
  unfold writePort, clearPort, setUsing.
  apply Z.eqb_neq in Hfd.
  cbn [serial_fd_]. rewrite Hfd. cbn [serial_fd_]. rewrite Hfd. cbn [orb].
  change (length (write_frame sts_id address data) =? 0)%nat with false.
  cbn iota.
  cbn [tx_accept is_using_ rx_fifo rx_line deadline_polls timer_script io_log].
  set (size := Z.of_nat (length (write_frame sts_id address data))).
  assert (size = Z.of_nat (length data) + 7) as Hsize.
  { unfold size, write_frame. cbv zeta. cbn [length].
    rewrite length_app. simpl. lia. }
  set (accepted := Z.min (hd size (tx_accept p)) size).
  exists accepted.
  assert ((Z.of_nat (length data) + 3 + 4
           =? (if accepted <? 0 then 0 else accepted))
          = (accepted =? Z.of_nat (length data) + 7)) as ->.
  { destruct (accepted <? 0) eqn:Hneg; lia. }
  destruct (accepted =? _); cbn [negb mbind outcome_bind];
    eexists; (split; [reflexivity|done]).
Qed.

Lemma writeTxOnly_wire_format_witness :
  write_frame 1 STS_LOCK [1] = [255; 255; 1; 4; 3; 55; 1; 191]
  ∧ ∃ accepted p',
      writeTxOnly 1 STS_LOCK (Z.of_nat (length [1])) [1] idle_port
      = Ok (if accepted =? Z.of_nat (length [1]) + 7
            then COMM_SUCCESS else COMM_TX_FAIL, p')
      ∧ io_log p'
        = EvWrite (write_frame 1 STS_LOCK [1]) accepted :: EvFlush
          :: io_log idle_port
      ∧ is_using_ p' = false.
Proof.
  split; [reflexivity|].
  apply (writeTxOnly_wire_format 1 STS_LOCK [1] idle_port);
    [simpl; lia|reflexivity|vm_compute; intros [=]].
Defined.

(** X12.  [writeTxOnly] clears a busy flag it did not set.  Called while the
    port is in use, it writes nothing and returns [COMM_PORT_BUSY], but the
    busy flag is clear afterwards: the transaction that held the port has
    lost it. *)
Theorem writeTxOnly_clears_busy_flag (sts_id address length_ : Z)
  (data : list Z) (p : PortHandler) :
  0 <= length_ → (Z.to_nat length_ <= length data)%nat →
  is_using_ p = true →
  writeTxOnly sts_id address length_ data p
  = Ok (COMM_PORT_BUSY, setUsing false p)
  ∧ is_using_ (setUsing false p) = false
  ∧ io_log (setUsing false p) = io_log p.
Proof.
  intros H0 Hdata Hbusy. split; [|done]. unfold writeTxOnly.
  rewrite write_packet_Ok by done. cbn [mbind outcome_bind].
  unfold txPacket.
  rewrite (at_Ok _ PKT_LENGTH (to_uint8 (length_ + 3))) by done.
  cbn [mbind outcome_bind]. unfold isUsing. rewrite Hbusy. done.
Qed.

Lemma writeTxOnly_clears_busy_flag_witness :
  is_using_ busy_port = true
  ∧ writeTxOnly 1 STS_LOCK 1 [1] busy_port
    = Ok (COMM_PORT_BUSY, setUsing false busy_port)
  ∧ is_using_ (setUsing false busy_port) = false
  ∧ io_log (setUsing false busy_port) = io_log busy_port.
Proof.
  split; [reflexivity|].
  apply (writeTxOnly_clears_busy_flag 1 STS_LOCK 1 [1] busy_port);
    [lia|simpl; lia|reflexivity].
Defined.

(** X13.  A write of 244 to 252 bytes is refused.  [writeTxRx] then returns
    [COMM_TX_ERROR] with error 0 and leaves a free port exactly as it was:
    nothing is flushed, written or read. *)
Theorem writeTxRx_rejects_long_write (sts_id address length_ : Z)
  (data : list Z) (p : PortHandler) :
  244 <= length_ <= 252 → (Z.to_nat length_ <= length data)%nat →
  is_using_ p = false →
  writeTxRx sts_id address length_ data p = Ok (COMM_TX_ERROR, 0, p).
Proof.
  intros Hlen Hdata Hfree. unfold writeTxRx.
  rewrite write_packet_Ok by (done || lia). cbn [mbind outcome_bind].
  unfold txRxPacket, txPacket.
  rewrite (at_Ok _ PKT_LENGTH (to_uint8 (length_ + 3))) by done.
  cbn [mbind outcome_bind]. unfold isUsing. rewrite Hfree.
  unfold to_uint8. rewrite Z.mod_small by lia.
  replace (TXPACKET_MAX_LEN <? _) with true
    by (symmetry; apply Z.ltb_lt; unfold TXPACKET_MAX_LEN; lia).
  cbn [mbind outcome_bind]. change (COMM_TX_ERROR =? COMM_SUCCESS) with false.
  cbn [negb mbind outcome_bind].
  replace (setUsing false (setUsing true p)) with p; [done|].
  destruct p. simpl in *. by subst.
Qed.

Lemma writeTxRx_rejects_long_write_witness :
  writeTxRx 1 0 244 (replicate 244 0) idle_port
  = Ok (COMM_TX_ERROR, 0, idle_port).
Proof.
  apply (writeTxRx_rejects_long_write 1 0 244 (replicate 244 0) idle_port);
    [lia|rewrite length_replicate; lia|reflexivity].
Defined.

(** ** correctPosition and rotate: what reaches the port *)



















(** ** listServos *)

Lemma clearPort_pending (p : PortHandler) :
  pending p = [] → pending (clearPort p) = [].
Proof.
  unfold pending, clearPort. intros H.
  destruct (_ =? _); [done|]. by apply app_eq_nil in H as [_ H].
Qed.

Lemma writePort_pending (packet : list Z) (p : PortHandler) :
  pending (writePort packet p).2 = pending p.
Proof. unfold writePort. by destruct (_ || _). Qed.

Lemma txPacket_pending (txpacket sent : list Z) (p p1 : PortHandler)
  (result : Z) :
  txPacket txpacket p = Ok (result, sent, p1) →
  pending p = [] → pending p1 = [].
Proof.
  intros H Hquiet. unfold txPacket in H.
  apply bind_Ok_inv in H as (len & _ & H). cbv zeta in H.
  destruct (isUsing p); [by injection H as <- <- <-|].
  destruct (_ <? _); [by injection H as <- <- <-|].
  apply bind_Ok_inv in H as (tx1 & _ & H).
  apply bind_Ok_inv in H as (tx2 & _ & H).
  apply bind_Ok_inv in H as (checksum & _ & H).
  apply bind_Ok_inv in H as (tx3 & _ & H).
  pose proof (writePort_pending tx3 (clearPort (setUsing true p))) as Hw.
  destruct (writePort _ _) as [written p2]. simpl in Hw.
  assert (pending p2 = []) as Hp2.
  { rewrite Hw. by apply clearPort_pending. }
  destruct (negb _); by injection H as <- <- <-.
Qed.

Lemma txrx_loop_silent (fuel : nat) (txpacket : list Z) (p : PortHandler) :
  pending p = [] →
  ∃ p', txrx_loop (S fuel) txpacket p = Ok ([], COMM_RX_TIMEOUT, p')
        ∧ pending p' = [].
Proof.
  intros Hquiet.
  destruct (rxPacket_silent p Hquiet) as (p' & Hrx & _).
  exists p'. rewrite txrx_loop_unfold, Hrx. split; [done|].
  apply rxPacket_consumes in Hrx as [Hle _]. rewrite Hquiet in Hle.
  destruct (pending p'); [done|simpl in Hle; lia].
Qed.

Lemma ping_exchange_silent (sts_id : Z) (p : PortHandler) :
  0 <= sts_id < 254 → pending p = [] →
  ∃ result p',
    txRxPacket [0; 0; sts_id; 2; INST_PING; 0] p = Ok ([], result, 0, p')
    ∧ result ≠ COMM_SUCCESS ∧ pending p' = [].
Proof.
  intros Hid Hquiet.
  set (txpacket := [0; 0; sts_id; 2; INST_PING; 0]).
  destruct (is_using_ p) eqn:Hbusy.
  - exists COMM_PORT_BUSY, p. split; [|done].
    unfold txRxPacket, txPacket.
    rewrite (at_Ok txpacket PKT_LENGTH 2 eq_refl). cbn [mbind outcome_bind].
    unfold isUsing. by rewrite Hbusy.
  - unfold txRxPacket.
    rewrite (txPacket_frame txpacket p 2 eq_refl eq_refl ltac:(done) Hbusy).
    cbv zeta. set (sent := instruction_frame txpacket 2).
    pose proof (writePort_pending sent (clearPort (setUsing true p))) as Hw.
    rewrite (clearPort_pending (setUsing true p) Hquiet) in Hw.
    destruct (writePort _ _) as [written p1]. simpl in Hw.
    destruct (negb (2 + 4 =? written)).
    + exists COMM_TX_FAIL, (setUsing false p1). done.
    + cbn [mbind outcome_bind].
      change (COMM_SUCCESS =? COMM_SUCCESS) with true. cbn [negb andb].
      rewrite (at_Ok sent PKT_ID sts_id eq_refl). cbn [mbind outcome_bind].
      replace (sts_id =? BROADCAST_ID) with false
        by (symmetry; apply Z.eqb_neq; unfold BROADCAST_ID; lia).
      rewrite (at_Ok sent PKT_INSTRUCTION INST_PING eq_refl).
      cbn [mbind outcome_bind].
      change (INST_PING =? INST_READ) with false. cbv iota.
      cbn [mbind outcome_bind].
      assert (pending (setPacketTimeout 6 p1) = []) as Hquiet2 by done.
      rewrite Hquiet2.
      destruct (txrx_loop_silent 0 sent _ Hquiet2) as (p3 & Hloop & Hquiet3).
      simpl length. rewrite Hloop. cbn [mbind outcome_bind].
      change (COMM_RX_TIMEOUT =? COMM_SUCCESS) with false. cbn [andb].
      exists COMM_RX_TIMEOUT, p3. done.
Qed.

(** On a line that stays silent [pingServo] finds nobody, whatever the
    address and whatever state the port is in. *)
Lemma pingServo_silent (sts_end_ sts_id : Z) (p : PortHandler) :
  is_byte sts_id → pending p = [] →
  ∃ p', pingServo sts_end_ sts_id p = Ok (false, p') ∧ pending p' = [].
Proof.
  intros Hid Hquiet. unfold is_byte in Hid. unfold pingServo, ping.
  destruct (BROADCAST_ID <=? sts_id) eqn:Hb; [by exists p|].
  apply Z.leb_gt in Hb. unfold BROADCAST_ID in Hb. cbv zeta.
  destruct (ping_exchange_silent sts_id p) as (res & p' & Hx & Hres & Hquiet');
    [lia|done|].
  rewrite Hx. cbn [mbind outcome_bind].
  apply Z.eqb_neq in Hres. rewrite Hres. cbn [mbind outcome_bind negb orb].
  rewrite Hres. by exists p'.
Qed.

Lemma listServos_loop_silent (sts_end_ id : Z) (count : nat)
  (servos : list Z) (p : PortHandler) :
  pending p = [] →
  ∃ p', listServos_loop sts_end_ id count servos p = Ok (servos, p')
        ∧ pending p' = [].
Proof.
  revert id p. induction count as [|count IH]; intros id p Hquiet; [by eexists|].
  destruct (pingServo_silent sts_end_ (to_uint8 id) p) as (p1 & Hping & Hquiet1);
    [unfold is_byte, to_uint8; apply Z.mod_pos_bound; lia|done|].
  cbn [listServos_loop]. rewrite Hping. cbn [mbind outcome_bind].
  by apply IH.
Qed.

(** X14.  A scan of a silent bus lists nothing.  When no byte is waiting and
    none arrives, [listServos] returns the empty list, whatever state the
    port is in (closed, busy, refusing writes) and whatever the timer
    does. *)
Theorem listServos_silent_bus (sts_end_ : Z) (p : PortHandler) :
  pending p = [] →
  ∃ p', listServos sts_end_ p = Ok ([], p') ∧ pending p' = [].
Proof. apply listServos_loop_silent. Qed.

Lemma listServos_silent_bus_witness :
  pending silent_port = []
  ∧ ∃ p', listServos 0 silent_port = Ok ([], p') ∧ pending p' = [].
Proof.
  split; [reflexivity|].
  apply (listServos_silent_bus 0 silent_port). reflexivity.
Defined.

Lemma StronglySorted_snoc (l : list Z) (y : Z) :
  StronglySorted Z.lt l → Forall (λ x, x < y) l →
  StronglySorted Z.lt (l ++ [y]).
Proof.
  induction 1 as [|x l Hl IHl Hx]; intros Hlt; simpl.
  - repeat constructor.
  - apply Forall_cons in Hlt as [Hxy Hlt]. constructor; [by apply IHl|].
    apply Forall_app. split; [done|]. by constructor.
Qed.

Lemma listServos_loop_sorted (sts_end_ id : Z) (count : nat)
  (servos servos' : list Z) (p p' : PortHandler) :
  0 <= id → id + Z.of_nat count <= 254 →
  StronglySorted Z.lt servos → Forall (λ x, 0 <= x < id) servos →
  listServos_loop sts_end_ id count servos p = Ok (servos', p') →
  StronglySorted Z.lt servos' ∧ Forall (λ x, 0 <= x < 254) servos'.
Proof.
  revert id servos p.
  induction count as [|count IH]; intros id servos p Hid Hend Hsorted Hlt Hrun.
  - injection Hrun as <- <-. split; [done|].
    eapply Forall_impl; [done|]. simpl. lia.
  - cbn [listServos_loop] in Hrun.
    apply bind_Ok_inv in Hrun as ([present p1] & _ & Hrun). cbv zeta in Hrun.
    apply IH in Hrun; [done|lia|lia| |].
    + destruct present; [|done].
      unfold to_uint8. rewrite Z.mod_small by lia.
      apply StronglySorted_snoc; [done|].
      eapply Forall_impl; [done|]. simpl. lia.
    + assert (Forall (λ x, 0 <= x < id + 1) servos)
        by (eapply Forall_impl; [done|]; simpl; lia).
      destruct present; [|done].
      apply Forall_app. split; [done|]. constructor; [|done].
      unfold to_uint8. rewrite Z.mod_small by lia. lia.
Qed.

(** X15.  Whatever the devices do, the list [listServos] returns is in
    strictly ascending order, so it holds no address twice, and holds only
    addresses from 0 to 253. *)
Theorem listServos_ascending (sts_end_ : Z) (p p' : PortHandler)
  (servos : list Z) :
  listServos sts_end_ p = Ok (servos, p') →
  StronglySorted Z.lt servos ∧ Forall (λ id, 0 <= id < 254) servos.
Proof.
  apply listServos_loop_sorted; [done|simpl; lia|constructor|constructor].
Qed.

Lemma listServos_ascending_witness :
  ∃ p',
    listServos 0 one_servo_bus = Ok ([1], p')
    ∧ StronglySorted Z.lt [1] ∧ Forall (λ id, 0 <= id < 254) [1].
Proof.
  eexists. split; [vm_compute; reflexivity|].
  eapply (listServos_ascending 0 one_servo_bus). vm_compute. reflexivity.
Defined.

(** ** GroupSyncWrite: the session and its parameter block *)

(** X16.  [addParam] accepts an address the session does not hold with a
    payload that fits: it returns true, the session then holds that payload
    under that address, every other address is as before, the session has
    one entry more and is marked as changed; start address, data length and
    the parameter block built so far are untouched. *)
Theorem addParam_accepts (sts_id : Z) (data : list Z) (g : GroupSyncWrite) :
  data_dict_ g !! sts_id = None →
  Z.of_nat (length data) <= data_length_ g →
  ∃ g',
    addParam sts_id data g = (true, g')
    ∧ data_dict_ g' !! sts_id = Some data
    ∧ (∀ other, other ≠ sts_id →
                data_dict_ g' !! other = data_dict_ g !! other)
    ∧ size (data_dict_ g') = S (size (data_dict_ g))
    ∧ is_param_changed_ g' = true
    ∧ start_address_ g' = start_address_ g
    ∧ data_length_ g' = data_length_ g
    ∧ param_ g' = param_ g.
Proof.
  intros Hnew Hfits. unfold addParam. rewrite Hnew.
  replace (data_length_ g <? Z.of_nat (length data)) with false
    by (symmetry; apply Z.ltb_ge; lia).
  eexists. split; [reflexivity|]. simpl. split_and!; try done.
  - apply lookup_insert_eq.
  - intros other Hother. by apply lookup_insert_ne.
  - by apply map_size_insert_None.
Qed.

Lemma addParam_accepts_witness :
  ∃ g',
    addParam 2 [0; 4] two_byte_session = (true, g')
    ∧ data_dict_ g' !! 2 = Some [0; 4]
    ∧ (∀ other, other ≠ 2 →
                data_dict_ g' !! other = data_dict_ two_byte_session !! other)
    ∧ size (data_dict_ g') = S (size (data_dict_ two_byte_session))
    ∧ is_param_changed_ g' = true
    ∧ start_address_ g' = start_address_ two_byte_session
    ∧ data_length_ g' = data_length_ two_byte_session
    ∧ param_ g' = param_ two_byte_session.
Proof.
  apply (addParam_accepts 2 [0; 4] two_byte_session);
    [reflexivity|simpl; lia].
Defined.

(** X17.  [changeParam] returns true exactly when the session holds the
    address and the payload fits [data_length_]; it then replaces the
    payload of that address, touches no other address, keeps the number of
    entries and marks the session as changed.  When it returns false the
    session is unchanged. *)
Theorem changeParam_exact (sts_id : Z) (data : list Z) (g : GroupSyncWrite) :
  let '(changed, g') := changeParam sts_id data g in
  (changed = true
   ↔ is_Some (data_dict_ g !! sts_id)
     ∧ Z.of_nat (length data) <= data_length_ g)
  ∧ (changed = true →
     data_dict_ g' !! sts_id = Some data
     ∧ (∀ other, other ≠ sts_id →
                 data_dict_ g' !! other = data_dict_ g !! other)
     ∧ size (data_dict_ g') = size (data_dict_ g)
     ∧ is_param_changed_ g' = true)
  ∧ (changed = false → g' = g).
Proof.
  unfold changeParam.
  destruct (data_dict_ g !! sts_id) as [old|] eqn:Hold.
  - destruct (data_length_ g <? Z.of_nat (length data)) eqn:Hlong.
    + apply Z.ltb_lt in Hlong. split_and!; [|done|done].
      split; [done|]. intros [_ ?]. lia.
    + apply Z.ltb_ge in Hlong. split_and!; [|intros _|done].
      * split; [|done]. intros _. split; [by eexists|done].
      * simpl. split_and!; [apply lookup_insert_eq| |by apply map_size_insert_Some|done].
        intros other Hother. by apply lookup_insert_ne.
  - split_and!; [|done|done]. split; [done|]. by intros [[? [=]] _].
Qed.

(** X18.  [removeParam] undoes [addParam].  Removing an address that was
    just added gives back the map of payloads the session had; removing an
    address the session does not hold changes nothing at all; and after
    [removeParam] the session never holds the address. *)
Theorem removeParam_undoes_addParam (sts_id : Z) (data : list Z)
  (g : GroupSyncWrite) :
  data_dict_ g !! sts_id = None →
  Z.of_nat (length data) <= data_length_ g →
  data_dict_ (removeParam sts_id (addParam sts_id data g).2) = data_dict_ g
  ∧ removeParam sts_id g = g
  ∧ ∀ h, data_dict_ (removeParam sts_id h) !! sts_id = None.
Proof.
  intros Hnew Hfits. split_and!.
  - unfold addParam. rewrite Hnew.
    replace (data_length_ g <? Z.of_nat (length data)) with false
      by (symmetry; apply Z.ltb_ge; lia).
    unfold removeParam. simpl. rewrite lookup_insert_eq. simpl.
    by apply delete_insert_id.
  - unfold removeParam. by rewrite Hnew.
  - intros h. unfold removeParam.
    destruct (data_dict_ h !! sts_id) eqn:Hh; [|done]. simpl.
    apply lookup_delete_eq.
Qed.

Lemma removeParam_undoes_addParam_witness :
  data_dict_ (removeParam 2 (addParam 2 [0; 4] two_byte_session).2)
  = data_dict_ two_byte_session
  ∧ removeParam 2 two_byte_session = two_byte_session
  ∧ ∀ h, data_dict_ (removeParam 2 h) !! 2 = None.
Proof.
  apply (removeParam_undoes_addParam 2 [0; 4] two_byte_session);
    [reflexivity|simpl; lia].
Defined.

Lemma map_entries_Permutation (m : gmap Z (list Z)) :
  map_entries m ≡ₚ map_to_list m.
Proof. apply merge_sort_Permutation. Qed.

#[global] Instance key_le_total : Total key_le.
Proof. intros a b. unfold key_le. lia. Qed.

#[global] Instance key_le_trans : Transitive key_le.
Proof. intros a b c. unfold key_le. lia. Qed.

Lemma map_entries_sorted (m : gmap Z (list Z)) :
  StronglySorted key_le (map_entries m).
Proof. apply StronglySorted_merge_sort; apply _. Qed.

Lemma map_entries_lookup (m : gmap Z (list Z)) (sts_id : Z) (data : list Z) :
  (sts_id, data) ∈ map_entries m ↔ m !! sts_id = Some data.
Proof. rewrite map_entries_Permutation. apply elem_of_map_to_list. Qed.

Lemma map_entries_length (m : gmap Z (list Z)) :
  length (map_entries m) = size m.
Proof. by rewrite map_entries_Permutation, length_map_to_list. Qed.

Lemma makeParam_loop_block (entries : list (Z * list Z)) (param_ : list Z) :
  Forall (λ e, e.2 ≠ []) entries →
  makeParam_loop entries param_ = param_ ++ param_block entries.
Proof.
  revert param_. induction entries as [|[sts_id data] entries IH];
    intros param_ Hne; simpl.
  - by rewrite app_nil_r.
  - apply Forall_cons in Hne as [Hdata Hne]. simpl in Hdata.
    destruct data as [|d data]; [done|]. simpl.
    rewrite IH by done. by rewrite <- app_assoc.
Qed.

Lemma param_block_length (entries : list (Z * list Z)) (n : nat) :
  Forall (λ e, length e.2 = n) entries →
  length (param_block entries) = (length entries * (1 + n))%nat.
Proof.
  induction 1 as [|[sts_id data] entries Hdata _ IH]; [done|].
  simpl in *. rewrite length_app, IH. lia.
Qed.

(** X19.  The parameter block of a sync write.  When every payload of a
    non-empty session has exactly [data_length_] bytes (at least one) and
    the block has to be rebuilt, [txPacket] passes [syncWriteTxOnly] the
    block that lists, by ascending address, each address followed by its
    payload, and the length it declares for it, entries times
    (1 + [data_length_]), is the length the block has. *)
Theorem GroupSyncWrite_txPacket_block (g g' : GroupSyncWrite)
  (call : sync_write_call) :
  GroupSyncWrite_txPacket g = (inr call, g') →
  0 < data_length_ g →
  map_Forall (λ _ data, Z.of_nat (length data) = data_length_ g)
             (data_dict_ g) →
  is_param_changed_ g = true ∨ param_ g = [] →
  call_param call = param_block (map_entries (data_dict_ g))
  ∧ Z.of_nat (length (call_param call)) = call_param_length call
  ∧ call_start_address call = start_address_ g
  ∧ call_data_length call = data_length_ g
  ∧ data_dict_ g' = data_dict_ g.
Proof.
  unfold GroupSyncWrite_txPacket. intros H Hpos Hall Hfresh.
  destruct (size (data_dict_ g) =? 0)%nat eqn:Hsize; [done|].
  apply Nat.eqb_neq in Hsize.
  assert (is_param_changed_ g || (length (param_ g) =? 0)%nat = true) as Hmk.
  { destruct Hfresh as [-> | ->]; [done|]. apply orb_true_r. }
  rewrite Hmk in H. cbv zeta in H. injection H as <- <-.
  unfold makeParam.
  replace (size (data_dict_ g) =? 0)%nat with false
    by (symmetry; by apply Nat.eqb_neq).
  cbn [call_param call_param_length call_start_address call_data_length
       param_ data_dict_ start_address_ data_length_].
  assert (Forall (λ e, length e.2 = Z.to_nat (data_length_ g))
                 (map_entries (data_dict_ g))) as Hlen.
  { apply Forall_forall. intros [sts_id data] Hin.
    apply map_entries_lookup in Hin. apply Hall in Hin. simpl in *. lia. }
  rewrite makeParam_loop_block.
  2:{ eapply Forall_impl; [exact Hlen|]. intros [sts_id data] Hd. simpl in *.
      intros ->. simpl in Hd. lia. }
  split_and!; try done.
  rewrite app_nil_l, (param_block_length _ _ Hlen), map_entries_length. lia.
Qed.

Lemma two_device_session_payloads :
  map_Forall (λ _ data, Z.of_nat (length data) = 2)
             (data_dict_ two_device_session).
Proof.
  apply map_Forall_insert_2; [done|].
  apply map_Forall_insert_2; [done|]. apply map_Forall_empty.
Qed.

Lemma GroupSyncWrite_txPacket_block_witness :
  ∃ call g',
    GroupSyncWrite_txPacket two_device_session = (inr call, g')
    ∧ call_param call = [1; 1; 2; 2; 3; 4]
    ∧ call_param call = param_block (map_entries (data_dict_ two_device_session))
    ∧ Z.of_nat (length (call_param call)) = call_param_length call
    ∧ call_start_address call = start_address_ two_device_session
    ∧ call_data_length call = data_length_ two_device_session
    ∧ data_dict_ g' = data_dict_ two_device_session.
Proof.
  eexists _, _. split; [vm_compute; reflexivity|]. split; [reflexivity|].
  eapply (GroupSyncWrite_txPacket_block two_device_session).
  - vm_compute. reflexivity.
  - vm_compute. reflexivity.
  - apply two_device_session_payloads.
  - by left.
Defined.

(** ** GroupSyncRead: parsing the replies *)

Section SyncReadProofs.

Import SyncRead.

Lemma head_loop_range (rxpacket : list Z) (sts_id : Z) (count rx_index : nat)
  (h1 h0 : Z) :
  (rx_index + count <= length rxpacket)%nat →
  ∃ i, head_loop rxpacket sts_id count rx_index h1 h0 = Ok i
       ∧ (rx_index <= i <= rx_index + count)%nat
       ∧ (0 < count → rx_index < i)%nat.
Proof.
  revert rx_index h1 h0.
  induction count as [|count IH]; intros rx_index h1 h0 Hlen.
  - exists rx_index. simpl. split_and!; (done || lia).
  - destruct (lookup_lt_is_Some_2 rxpacket rx_index) as [b Hb]; [lia|].
    cbn [head_loop]. rewrite (at_Ok _ _ _ Hb). cbn [mbind outcome_bind].
    destruct (_ && _).
    + exists (S rx_index). split_and!; (done || lia).
    + destruct (IH (S rx_index) h0 b) as (i & -> & Hi & _); [lia|].
      exists i. split_and!; (done || lia).
Qed.

Lemma data_loop_copies (rxpacket : list Z) (count rx_index : nat)
  (data : list Z) (calSum : Z) :
  (rx_index + count <= length rxpacket)%nat →
  0 <= calSum < 256 →
  data_loop rxpacket count rx_index data calSum
  = Ok (data ++ take count (drop rx_index rxpacket),
        (calSum + sum_bytes (take count (drop rx_index rxpacket))) mod 256,
        (rx_index + count)%nat).
Proof.
  revert rx_index data calSum.
  induction count as [|count IH]; intros rx_index data calSum Hlen Hc.
  - simpl. rewrite app_nil_r, Z.add_0_r, Z.mod_small, Nat.add_0_r by done.
    done.
  - destruct (lookup_lt_is_Some_2 rxpacket rx_index) as [b Hb]; [lia|].
    cbn [data_loop]. rewrite (at_Ok _ _ _ Hb). cbn [mbind outcome_bind].
    rewrite IH by (try lia; unfold to_uint8; apply Z.mod_pos_bound; lia).
    rewrite (drop_S _ _ _ Hb). cbn [take sum_bytes foldr].
    rewrite <- app_assoc. cbn [app].
    replace (S rx_index + count)%nat with (rx_index + S count)%nat by lia.
    do 2 f_equal. unfold to_uint8.
    rewrite Z.add_mod_idemp_l by lia. unfold sum_bytes.
    by rewrite Z.add_assoc.
Qed.

Lemma readRx_loop_total (fuel : nat) (rxpacket : list Z)
  (sts_id data_length : Z) (rx_index : nat) :
  0 <= data_length →
  (length rxpacket - rx_index < fuel)%nat →
  ∃ data result,
    readRx_loop fuel rxpacket sts_id data_length rx_index = Ok (data, result)
    ∧ (result = COMM_SUCCESS ∧ Z.of_nat (length data) = data_length + 1
       ∨ result = COMM_RX_CORRUPT ∧ data = []).
Proof.
  intros Hdl. revert rx_index.
  induction fuel as [|fuel IH]; intros rx_index Hfuel; [lia|].
  cbn [readRx_loop]. cbv zeta.
  destruct (_ <=? _) eqn:Hroom; [|by eexists _, _; eauto].
  apply Z.leb_le in Hroom.
  destruct (head_loop_range rxpacket sts_id (length rxpacket - rx_index)
              rx_index 0 0) as (i & -> & Hi & Hadv); [lia|].
  cbn [mbind outcome_bind].
  destruct (_ <? _) eqn:Hshort; [by eexists _, _; eauto|].
  apply Z.ltb_ge in Hshort.
  destruct (lookup_lt_is_Some_2 rxpacket i) as [len Hlen]; [lia|].
  rewrite (at_Ok _ _ _ Hlen). cbn [mbind outcome_bind].
  destruct (negb _); [apply IH; lia|].
  destruct (lookup_lt_is_Some_2 rxpacket (S i)) as [err Herr]; [lia|].
  rewrite (at_Ok _ _ _ Herr). cbn [mbind outcome_bind].
  rewrite data_loop_copies
    by (try lia; unfold to_uint8; apply Z.mod_pos_bound; lia).
  cbn [mbind outcome_bind].
  destruct (lookup_lt_is_Some_2 rxpacket (S (S i) + Z.to_nat data_length))
    as [last Hlast]; [lia|].
  rewrite (at_Ok _ _ _ Hlast). cbn [mbind outcome_bind].
  destruct (negb _); [by eexists _, _; eauto|].
  eexists _, _. split; [done|]. left. split; [done|].
  rewrite length_app, length_take, length_drop. simpl. lia.
Qed.

(** X20.  [readRx] is memory-safe and ends.  Whatever the buffer holds,
    [readRx] never indexes outside it and returns: either [COMM_SUCCESS]
    with [data_length] + 1 bytes, or [COMM_RX_CORRUPT] with no data. *)
Theorem readRx_safe (rxpacket : list Z) (sts_id data_length : Z) :
  0 <= data_length →
  ∃ data result,
    readRx rxpacket sts_id data_length = Ok (data, result)
    ∧ (result = COMM_SUCCESS ∧ Z.of_nat (length data) = data_length + 1
       ∨ result = COMM_RX_CORRUPT ∧ data = []).
Proof. intros Hdl. apply readRx_loop_total; [done|lia]. Qed.

Lemma head_loop_found (rxpacket : list Z) (sts_id : Z) (count rx_index i : nat)
  (h1 h0 : Z) :
  head_inv rxpacket rx_index h1 h0 →
  head_loop rxpacket sts_id count rx_index h1 h0 = Ok i →
  (i < rx_index + count)%nat →
  (3 <= i)%nat
  ∧ rxpacket !! (i - 3)%nat = Some 255
  ∧ rxpacket !! (i - 2)%nat = Some 255
  ∧ rxpacket !! (i - 1)%nat = Some sts_id.
Proof.
  revert rx_index h1 h0.
  induction count as [|count IH]; intros rx_index h1 h0 [Hh0 Hh1] Hrun Hi.
  - injection Hrun as <-. lia.
  - cbn [head_loop] in Hrun.
    apply bind_Ok_inv in Hrun as (b & Hb & Hrun). apply at_Ok_inv in Hb.
    destruct ((h1 =? 255) && (h0 =? 255) && (b =? sts_id)) eqn:Hmatch.
    + injection Hrun as <-.
      apply andb_prop in Hmatch as [Hmatch Eb].
      apply andb_prop in Hmatch as [E1 E0].
      apply Z.eqb_eq in E1, E0, Eb. subst h1 h0 b.
      destruct Hh0 as [|[? Hh0]]; [done|].
      destruct Hh1 as [|[? Hh1]]; [done|].
      replace (S rx_index - 3)%nat with (rx_index - 2)%nat by lia.
      replace (S rx_index - 2)%nat with (rx_index - 1)%nat by lia.
      replace (S rx_index - 1)%nat with rx_index by lia.
      split_and!; (done || lia).
    + apply (IH (S rx_index) h0 b); [|done|lia].
      split.
      * right. split; [lia|]. by replace (S rx_index - 1)%nat with rx_index by lia.
      * destruct Hh0 as [|[? Hh0]]; [by left|right]. split; [lia|].
        by replace (S rx_index - 2)%nat with (rx_index - 1)%nat by lia.
Qed.

Lemma status_packet_at (rxpacket : list Z) (j : nat) (sts_id len err last : Z)
  (n : nat) :
  rxpacket !! j = Some 255 →
  rxpacket !! (j + 1)%nat = Some 255 →
  rxpacket !! (j + 2)%nat = Some sts_id →
  rxpacket !! (j + 3)%nat = Some len →
  rxpacket !! (j + 4)%nat = Some err →
  rxpacket !! (j + 5 + n)%nat = Some last →
  len = Z.of_nat n + 2 →
  let params := take n (drop (j + 5) rxpacket) in
  last = Z.land (Z.lnot (sum_bytes (sts_id :: len :: err :: params))) 255 →
  rxpacket
  = take j rxpacket ++ status_packet sts_id err params
    ++ drop (j + 6 + n) rxpacket
  ∧ length params = n.
Proof.
  intros H0 H1 H2 H3 H4 Hl Hlen params Hsum.
  assert (length params = n) as Hn.
  { unfold params. rewrite length_take, length_drop.
    apply lookup_lt_Some in Hl. lia. }
  split; [|done].
  rewrite <- (take_drop j rxpacket) at 1. f_equal.
  rewrite (drop_S _ _ _ H0).
  replace (S j) with (j + 1)%nat by lia. rewrite (drop_S _ _ _ H1).
  replace (S (j + 1)) with (j + 2)%nat by lia. rewrite (drop_S _ _ _ H2).
  replace (S (j + 2)) with (j + 3)%nat by lia. rewrite (drop_S _ _ _ H3).
  replace (S (j + 3)) with (j + 4)%nat by lia. rewrite (drop_S _ _ _ H4).
  replace (S (j + 4)) with (j + 5)%nat by lia.
  rewrite <- (take_drop n (drop (j + 5) rxpacket)). fold params.
  rewrite drop_drop. rewrite (drop_S _ _ _ Hl).
  unfold status_packet. cbv zeta. rewrite Hn, <- Hlen. cbn [app].
  rewrite <- app_assoc. cbn [app].
  replace (S (j + 5 + n)) with (j + 6 + n)%nat by lia.
  by rewrite Hsum.
Qed.

Lemma readRx_checksum (sts_id len err : Z) (params : list Z) :
  Z.land (Z.lnot ((to_uint8 (sts_id + len + err) + sum_bytes params) mod 256))
         255
  = Z.land (Z.lnot (sum_bytes (sts_id :: len :: err :: params))) 255.
Proof.
  unfold to_uint8. rewrite Z.add_mod_idemp_l by lia.
  rewrite lnot_land_255_mod. unfold sum_bytes. cbn [foldr].
  do 2 f_equal. lia.
Qed.

Lemma readRx_loop_sound (fuel : nat) (rxpacket : list Z)
  (sts_id data_length : Z) (rx_index : nat) (data : list Z) :
  0 <= data_length <= 253 →
  readRx_loop fuel rxpacket sts_id data_length rx_index
  = Ok (data, COMM_SUCCESS) →
  ∃ before err params after,
    rxpacket = before ++ status_packet sts_id err params ++ after
    ∧ data = err :: params
    ∧ Z.of_nat (length params) = data_length.
Proof.
  intros Hdl. revert rx_index.
  induction fuel as [|fuel IH]; intros rx_index Hrun; [done|].
  cbn [readRx_loop] in Hrun. cbv zeta in Hrun.
  destruct (_ <=? _) eqn:Hroom; [|done]. apply Z.leb_le in Hroom.
  apply bind_Ok_inv in Hrun as (i & Hhead & Hrun).
  destruct (_ <? _) eqn:Hshort; [done|]. apply Z.ltb_ge in Hshort.
  apply bind_Ok_inv in Hrun as (len & Hlen & Hrun). apply at_Ok_inv in Hlen.
  destruct (len =? to_uint8 (data_length + 2)) eqn:Hl; cbn [negb] in Hrun;
    [|by apply IH in Hrun].
  apply Z.eqb_eq in Hl. unfold to_uint8 in Hl. rewrite Z.mod_small in Hl by lia.
  apply bind_Ok_inv in Hrun as (err & Herr & Hrun). apply at_Ok_inv in Herr.
  rewrite data_loop_copies in Hrun
    by (try lia; unfold to_uint8; apply Z.mod_pos_bound; lia).
  cbn [mbind outcome_bind] in Hrun.
  apply bind_Ok_inv in Hrun as (last & Hlast & Hrun). apply at_Ok_inv in Hlast.
  destruct (_ =? last) eqn:Hsum; cbn [negb] in Hrun; [|done].
  apply Z.eqb_eq in Hsum. injection Hrun as <-.
  apply head_loop_found in Hhead as (H3 & Ha & Hb & Hc); [|by split; left|lia].
  set (j := (i - 3)%nat).
  destruct (status_packet_at rxpacket j sts_id len err last
              (Z.to_nat data_length)) as [Hsplit Hn].
  - done.
  - by replace (j + 1)%nat with (i - 2)%nat by lia.
  - by replace (j + 2)%nat with (i - 1)%nat by lia.
  - by replace (j + 3)%nat with i by lia.
  - by replace (j + 4)%nat with (S i) by lia.
  - by replace (j + 5 + Z.to_nat data_length)%nat
      with (S (S i) + Z.to_nat data_length)%nat by lia.
  - lia.
  - replace (j + 5)%nat with (S (S i)) by lia. rewrite <- Hsum.
    rewrite Hl. symmetry.
    rewrite <- readRx_checksum. repeat f_equal; lia.
  - replace (j + 5)%nat with (S (S i)) in * by lia.
    eexists _, err, _, _. split; [exact Hsplit|]. split; [done|lia].
Qed.

(** X21.  What success of [readRx] means.  When [readRx] returns
    [COMM_SUCCESS], the buffer holds a well-formed status packet of [sts_id]
    with exactly [data_length] parameters, and the data returned are the
    error byte of that packet followed by its parameters. *)
Theorem readRx_sound (rxpacket : list Z) (sts_id data_length : Z)
  (data : list Z) :
  0 <= data_length <= 253 →
  readRx rxpacket sts_id data_length = Ok (data, COMM_SUCCESS) →
  ∃ before err params after,
    rxpacket = before ++ status_packet sts_id err params ++ after
    ∧ data = err :: params
    ∧ Z.of_nat (length params) = data_length.
Proof. intros Hdl. apply readRx_loop_sound. done. Qed.

Lemma has_header_sync (garbage : list Z) (sts_id : Z) :
  has_header garbage sts_id = false → sts_id ≠ 255 →
  has_header (garbage ++ [255; 255]) sts_id = false.
Proof.
  intros Hg Hid. apply Z.eqb_neq in Hid.
  assert ((255 =? sts_id) = false) as Hid' by (by rewrite Z.eqb_sym).
  induction garbage as [|a [|b [|c garbage]] IH].
  - done.
  - change (has_header ([a] ++ [255; 255]) sts_id)
      with ((a =? 255) && (255 =? 255) && (255 =? sts_id) || false).
    by rewrite Hid', andb_false_r.
  - change (has_header ([a; b] ++ [255; 255]) sts_id)
      with ((a =? 255) && (b =? 255) && (255 =? sts_id)
            || ((b =? 255) && (255 =? 255) && (255 =? sts_id) || false)).
    by rewrite Hid', !andb_false_r.
  - change (has_header ((a :: b :: c :: garbage) ++ [255; 255]) sts_id)
      with ((a =? 255) && (b =? 255) && (c =? sts_id)
            || has_header ((b :: c :: garbage) ++ [255; 255]) sts_id).
    change (has_header (a :: b :: c :: garbage) sts_id)
      with ((a =? 255) && (b =? 255) && (c =? sts_id)
            || has_header (b :: c :: garbage) sts_id) in Hg.
    apply orb_false_elim in Hg as [-> Hg]. by apply IH.
Qed.

Lemma head_loop_garbage (before garbage tail : list Z) (sts_id h1 h0 : Z) :
  has_header (h1 :: h0 :: garbage ++ [255; 255]) sts_id = false →
  head_loop (before ++ garbage ++ 255 :: 255 :: sts_id :: tail) sts_id
            (length garbage + 3 + length tail) (length before) h1 h0
  = Ok (length before + length garbage + 3)%nat.
Proof.
  revert before h1 h0.
  induction garbage as [|a garbage IH]; intros before h1 h0 Hg.
  - cbn [app length Nat.add] in *.
    change (has_header [h1; h0; 255; 255] sts_id)
      with ((h1 =? 255) && (h0 =? 255) && (255 =? sts_id)
            || ((h0 =? 255) && (255 =? 255) && (255 =? sts_id) || false)) in Hg.
    apply orb_false_elim in Hg as [Hg1 Hg2].
    rewrite orb_false_r in Hg2.
    cbn [head_loop].
    rewrite (at_Ok _ (length before) 255) by (by rewrite list_lookup_middle).
    cbn [mbind outcome_bind]. rewrite Hg1.
    rewrite (at_Ok _ (S (length before)) 255).
    2:{ rewrite lookup_app_r by lia.
        by replace (S (length before) - length before)%nat with 1%nat by lia. }
    cbn [mbind outcome_bind]. rewrite Hg2.
    rewrite (at_Ok _ (S (S (length before))) sts_id).
    2:{ rewrite lookup_app_r by lia.
        by replace (S (S (length before)) - length before)%nat
          with 2%nat by lia. }
    cbn [mbind outcome_bind]. change (255 =? 255) with true.
    rewrite Z.eqb_refl. cbn [andb]. f_equal. lia.
  - assert (∃ b c l, garbage ++ [255; 255] = b :: c :: l) as (b & c & l & Hl).
    { destruct garbage as [|b [|c garbage]]; simpl; eauto. }
    cbn [app] in Hg. rewrite Hl in Hg.
    change (has_header (h1 :: h0 :: a :: b :: c :: l) sts_id)
      with ((h1 =? 255) && (h0 =? 255) && (a =? sts_id)
            || has_header (h0 :: a :: b :: c :: l) sts_id) in Hg.
    apply orb_false_elim in Hg as [Hg1 Hg2]. rewrite <- Hl in Hg2.
    cbn [length app Nat.add head_loop].
    rewrite (at_Ok _ (length before) a) by (by rewrite list_lookup_middle).
    cbn [mbind outcome_bind]. rewrite Hg1.
    specialize (IH (before ++ [a]) h0 a Hg2).
    rewrite <- app_assoc, length_app in IH. cbn [app length] in IH.
    replace (length before + 1)%nat with (S (length before)) in IH by lia.
    rewrite IH. f_equal. lia.
Qed.

(** X22.  [readRx] finds the reply behind noise.  When the buffer is noise
    that holds no 0xFF 0xFF [sts_id], then a well-formed status packet of
    [sts_id] with [data_length] parameters, then anything, [readRx] returns
    [COMM_SUCCESS] with the error byte and the parameters of that packet. *)
Theorem readRx_complete (garbage params after : list Z)
  (sts_id err data_length : Z) :
  has_header garbage sts_id = false →
  sts_id ≠ 255 →
  Z.of_nat (length params) = data_length →
  data_length <= 253 →
  readRx (garbage ++ status_packet sts_id err params ++ after)
         sts_id data_length
  = Ok (err :: params, COMM_SUCCESS).
Proof.
  intros Hg Hid Hparams Hdl.
  set (chk := Z.land
                (Z.lnot
                   (sum_bytes
                      (sts_id :: Z.of_nat (length params) + 2 :: err :: params)))
                255).
  assert (status_packet sts_id err params ++ after
          = 255 :: 255 :: sts_id
            :: (Z.of_nat (length params) + 2 :: err :: params ++ chk :: after))
    as Hpkt.
  { unfold status_packet. cbv zeta. cbn [app]. by rewrite <- app_assoc. }
  set (rxpacket := garbage ++ status_packet sts_id err params ++ after).
  assert (length rxpacket
          = (length garbage + 6 + length params + length after)%nat) as Hlen.
  { unfold rxpacket. rewrite !length_app, status_packet_length. lia. }
  assert (∀ k, rxpacket !! (length garbage + k)%nat
               = (status_packet sts_id err params ++ after) !! k) as Hat.
  { intros k. unfold rxpacket. rewrite lookup_app_r by lia. f_equal. lia. }
  unfold readRx. cbn [readRx_loop]. cbv zeta.
  replace (Z.of_nat 0 + 6 + data_length <=? Z.of_nat (length rxpacket))
    with true by (symmetry; apply Z.leb_le; lia).
  set (tail := Z.of_nat (length params) + 2 :: err :: params ++ chk :: after)
    in Hpkt.
  replace (length rxpacket - 0)%nat with (length garbage + 3 + length tail)%nat
    by (rewrite Hlen; unfold tail; cbn [length]; rewrite length_app;
        cbn [length]; lia).
  assert (rxpacket = garbage ++ 255 :: 255 :: sts_id :: tail) as Hrx
    by (unfold rxpacket; by rewrite Hpkt).
  pose proof (head_loop_garbage [] garbage tail sts_id 0 0) as Hhead.
  cbn [app length Nat.add] in Hhead. rewrite <- Hrx in Hhead. rewrite Hhead.
  2:{ apply (has_header_sync _ _ Hg) in Hid.
      by destruct (garbage ++ [255; 255]) as [|a [|b l]]. }
  cbn [mbind outcome_bind length Nat.add].
  replace (Z.of_nat (length rxpacket)
           <? Z.of_nat (length garbage + 3) + 3 + data_length)
    with false by (symmetry; apply Z.ltb_ge; lia).
  rewrite (at_Ok rxpacket (length garbage + 3)
             (Z.of_nat (length params) + 2)) by (by rewrite Hat, Hpkt).
  cbn [mbind outcome_bind].
  unfold to_uint8 at 1. rewrite Z.mod_small by lia.
  replace (Z.of_nat (length params) + 2 =? data_length + 2) with true
    by (symmetry; apply Z.eqb_eq; lia).
  cbn [negb].
  rewrite (at_Ok rxpacket (S (length garbage + 3)) err).
  2:{ replace (S (length garbage + 3)) with (length garbage + 4)%nat by lia.
      by rewrite Hat, Hpkt. }
  cbn [mbind outcome_bind].
  rewrite data_loop_copies
    by (try lia; unfold to_uint8; apply Z.mod_pos_bound; lia).
  cbn [mbind outcome_bind].
  assert (drop (S (S (length garbage + 3))) rxpacket
          = params ++ chk :: after) as Hdrop.
  { replace (S (S (length garbage + 3))) with (length garbage + 5)%nat by lia.
    unfold rxpacket. rewrite <- drop_drop, drop_app_length. by rewrite Hpkt. }
  rewrite Hdrop.
  replace (Z.to_nat data_length) with (length params) by lia.
  rewrite take_app_length.
  rewrite (at_Ok rxpacket (S (S (length garbage + 3)) + length params) chk).
  2:{ rewrite <- (lookup_drop rxpacket), Hdrop. by apply list_lookup_middle. }
  cbn [mbind outcome_bind].
  replace (sts_id + (data_length + 2) + err)
    with (sts_id + (Z.of_nat (length params) + 2) + err) by lia.
  rewrite readRx_checksum. fold chk. by rewrite Z.eqb_refl.
Qed.

Lemma map_entries_keys_NoDup (m : gmap Z (list Z)) :
  NoDup (map_entries m).*1.
Proof.
  rewrite map_entries_Permutation. apply NoDup_fst_map_to_list.
Qed.

Lemma store_loop_stores (entries : list (Z * list Z)) (rxpacket : list Z)
  (data_length : Z) (dict dict' : gmap Z (list Z)) (last_result last_result' : bool) :
  NoDup entries.*1 →
  store_loop entries rxpacket data_length dict last_result
  = Ok (dict', last_result') →
  (∀ k, k ∉ entries.*1 → dict' !! k = dict !! k)
  ∧ (∀ k, k ∈ entries.*1 →
          ∃ data read_result,
            readRx rxpacket k data_length = Ok (data, read_result)
            ∧ dict' !! k = Some data)
  ∧ (last_result' = true
     ↔ last_result = true
       ∧ ∀ k, k ∈ entries.*1 →
              ∃ data, readRx rxpacket k data_length = Ok (data, COMM_SUCCESS)).
Proof.
  revert dict last_result.
  induction entries as [|[sts_id old] entries IH];
    intros dict last_result Hnd Hrun.
  - injection Hrun as <- <-. split_and!; [done| |].
    + intros k Hk. by apply elem_of_nil in Hk.
    + split; [intros ->; split; [done|]|by intros [-> _]].
      intros k Hk. by apply elem_of_nil in Hk.
  - cbn [fmap list_fmap fst] in Hnd. apply NoDup_cons in Hnd as [Hnew Hnd].
    cbn [store_loop] in Hrun.
    apply bind_Ok_inv in Hrun as ([data res] & Hread & Hrun).
    apply IH in Hrun as (Hout & Hin & Hlast); [|done].
    cbn [fmap list_fmap fst].
    split_and!.
    + intros k Hk. apply not_elem_of_cons in Hk as [Hne Hk].
      rewrite (Hout k Hk). by apply lookup_insert_ne.
    + intros k Hk. apply elem_of_cons in Hk as [->|Hk]; [|by apply Hin].
      exists data, res. split; [done|].
      rewrite (Hout sts_id Hnew). apply lookup_insert_eq.
    + rewrite Hlast. clear Hlast. split.
      * intros [Hlr Hall].
        destruct (res =? COMM_SUCCESS) eqn:Hres; [|done].
        apply Z.eqb_eq in Hres. subst res. cbn [negb] in Hlr.
        split; [done|]. intros k Hk.
        apply elem_of_cons in Hk as [->|Hk]; [eauto|by apply Hall].
      * intros [-> Hall].
        destruct (Hall sts_id) as [data' Hread']; [by left|].
        rewrite Hread in Hread'. injection Hread' as _ ->.
        split; [done|]. intros k Hk. apply Hall. by right.
Qed.

(** X23.  [GroupSyncRead::rxPacket] stores what [readRx] parses.  For a
    non-empty session and a buffer of at least [data_length_] + 6 bytes,
    [rxPacket] returns the result of the handler unchanged and stores, for
    every address of the session, exactly the data [readRx] returns for that
    address; [last_result_] ends up true exactly when [readRx] succeeded for
    every address. *)
Theorem GroupSyncRead_rxPacket_stores (g g' : GroupSyncRead) (rx_result result : Z)
  (rxpacket : list Z) :
  data_length_ g + 6 <= Z.of_nat (length rxpacket) →
  size (data_dict_ g) ≠ 0%nat →
  rxPacket (rx_result, rxpacket) g = Ok (result, g') →
  result = rx_result
  ∧ (∀ sts_id, is_Some (data_dict_ g !! sts_id) →
       ∃ data read_result,
         readRx rxpacket sts_id (data_length_ g) = Ok (data, read_result)
         ∧ data_dict_ g' !! sts_id = Some data)
  ∧ (last_result_ g' = true
     ↔ ∀ sts_id, is_Some (data_dict_ g !! sts_id) →
         ∃ data,
           readRx rxpacket sts_id (data_length_ g) = Ok (data, COMM_SUCCESS)).
Proof.
  intros Hlong Hsome Hrun. unfold rxPacket in Hrun. cbv zeta in Hrun.
  cbn [data_dict_ data_length_ start_address_ last_result_ param_
       is_param_changed_] in Hrun.
  apply Nat.eqb_neq in Hsome. rewrite Hsome in Hrun.
  apply Z.leb_le in Hlong. rewrite Hlong in Hrun.
  apply bind_Ok_inv in Hrun as ([dict' lr'] & Hstore & Hrun).
  injection Hrun as <- <-.
  apply store_loop_stores in Hstore as (_ & Hin & Hlast);
    [|apply map_entries_keys_NoDup].
  assert (∀ k, k ∈ (map_entries (data_dict_ g)).*1
               ↔ is_Some (data_dict_ g !! k)) as Hkeys.
  { intros k. rewrite list_elem_of_fmap. split.
    - intros ([k' d] & -> & Hkd). apply map_entries_lookup in Hkd.
      simpl. by rewrite Hkd.
    - intros [d Hd]. exists (k, d). split; [done|].
      by apply map_entries_lookup. }
  split_and!; [done| |].
  - intros k Hk. apply Hin. by apply Hkeys.
  - cbn [last_result_]. rewrite Hlast. split.
    + intros [_ Hall] k Hk. apply Hall. by apply Hkeys.
    + intros Hall. split; [done|]. intros k Hk. apply Hall. by apply Hkeys.
Qed.

Lemma store_loop_ok (entries : list (Z * list Z)) (rxpacket : list Z)
  (data_length : Z) (dict : gmap Z (list Z)) (last_result : bool) :
  0 <= data_length →
  map_Forall (λ _, reply_ok data_length) dict →
  Forall (λ e, is_Some (dict !! e.1)) entries →
  ∃ dict' last_result',
    store_loop entries rxpacket data_length dict last_result
    = Ok (dict', last_result')
    ∧ map_Forall (λ _, reply_ok data_length) dict'
    ∧ ∀ sts_id, is_Some (dict' !! sts_id) ↔ is_Some (dict !! sts_id).
Proof.
  intros Hdl. revert dict last_result.
  induction entries as [|[sts_id old] entries IH];
    intros dict last_result Hok Hkeys.
  - by exists dict, last_result.
  - apply Forall_cons in Hkeys as [Hkey Hkeys]. simpl in Hkey.
    destruct (readRx_loop_total (S (length rxpacket)) rxpacket sts_id
                data_length 0 Hdl ltac:(lia))
      as (data & result & Hread & Hshape).
    cbn [store_loop]. unfold readRx. rewrite Hread.
    cbn [mbind outcome_bind].
    destruct (IH (<[sts_id := data]> dict)
                 (if negb (result =? COMM_SUCCESS) then false else last_result))
      as (dict' & lr' & Hrun & Hok' & Hdom).
    + apply map_Forall_insert_2; [|done].
      destruct Hshape as [[_ ?]|[_ ?]]; [by right|by left].
    + eapply Forall_impl; [exact Hkeys|]. intros e He. simpl in *.
      rewrite lookup_insert_is_Some. destruct (decide (sts_id = e.1)); auto.
    + exists dict', lr'. split_and!; try done.
      intros k. rewrite Hdom, lookup_insert_is_Some.
      split; [intros [->|[_ ?]]; done|].
      intros Hk. destruct (decide (sts_id = k)); auto.
Qed.

(** X24.  Stored replies keep their shape.  If every stored reply of a
    sync-read session is empty or holds [data_length_] + 1 bytes, the same
    is true after [addParam], [removeParam], [clearParam] and [rxPacket];
    [rxPacket] moreover always returns, and keeps the start address, the
    data length and the set of addresses. *)
Theorem stored_replies_keep_shape (g : GroupSyncRead) (sts_id : Z)
  (syncReadRx : Z * list Z) :
  0 <= data_length_ g →
  stored_ok g →
  stored_ok (addParam sts_id g).2
  ∧ stored_ok (removeParam sts_id g)
  ∧ stored_ok (clearParam g)
  ∧ ∃ result g',
      rxPacket syncReadRx g = Ok (result, g')
      ∧ stored_ok g'
      ∧ data_length_ g' = data_length_ g
      ∧ start_address_ g' = start_address_ g
      ∧ ∀ other, is_Some (data_dict_ g' !! other)
                 ↔ is_Some (data_dict_ g !! other).
Proof.
  intros Hdl Hok. unfold stored_ok in *. split_and!.
  - unfold addParam. destruct (data_dict_ g !! sts_id) eqn:Hin; [done|].
    simpl. apply map_Forall_insert_2; [by left|done].
  - unfold removeParam. destruct (data_dict_ g !! sts_id) eqn:Hin; [|done].
    simpl. by apply map_Forall_delete.
  - simpl. apply map_Forall_empty.
  - unfold rxPacket. cbv zeta.
    cbn [data_dict_ data_length_ start_address_ last_result_ param_
         is_param_changed_].
    destruct (size (data_dict_ g) =? 0)%nat; [by eexists _, _|].
    destruct syncReadRx as [rx_result rxpacket].
    destruct (_ <=? _); [|by eexists _, _].
    destruct (store_loop_ok (map_entries (data_dict_ g)) rxpacket
                (data_length_ g) (data_dict_ g) true Hdl Hok)
      as (dict' & lr' & -> & Hok' & Hdom).
    { apply Forall_forall. intros [k d] Hin. simpl.
      apply map_entries_lookup in Hin. by rewrite Hin. }
    cbn [mbind outcome_bind]. by eexists _, _.
Qed.

(** X25.  [isAvailable] guards [getData].  In a session whose stored
    replies have that shape, once [isAvailable] has answered true for an
    address, a register address and a width of 1, 2 or 4, [getData] for the
    same arguments reads inside the stored reply: it returns the byte, or the
    word made of the bytes, stored for that register, and adds no entry to
    the session; the error byte [isAvailable] returned is the first stored
    byte. *)
Theorem isAvailable_guards_getData (sts_end_ sts_id address data_length error : Z)
  (g : GroupSyncRead) :
  stored_ok g →
  is_byte (data_length_ g) →
  data_length = 1 ∨ data_length = 2 ∨ data_length = 4 →
  isAvailable sts_id address data_length g = (true, error) →
  ∃ stored_data value,
    data_dict_ g !! sts_id = Some stored_data
    ∧ stored_data !! 0%nat = Some error
    ∧ getData sts_end_ sts_id address data_length g = Ok (value, g)
    ∧ let offset := Z.to_nat (address - start_address_ g + 1) in
      (data_length = 1 → stored_data !! offset = Some value)
      ∧ (data_length = 2 →
         ∃ d0 d1,
           stored_data !! offset = Some d0
           ∧ stored_data !! (offset + 1)%nat = Some d1
           ∧ value = makeWord sts_end_ d0 d1)
      ∧ (data_length = 4 →
         ∃ d0 d1 d2 d3,
           stored_data !! offset = Some d0
           ∧ stored_data !! (offset + 1)%nat = Some d1
           ∧ stored_data !! (offset + 2)%nat = Some d2
           ∧ stored_data !! (offset + 3)%nat = Some d3
           ∧ value = makeDWord (makeWord sts_end_ d0 d1)
                               (makeWord sts_end_ d2 d3)).
Proof.
  intros Hok HL Hdl Hav. unfold is_byte in HL. unfold isAvailable in Hav.
  destruct (data_dict_ g !! sts_id) as [stored|] eqn:Hin; [|done].
  destruct (_ || _) eqn:Hwin; [done|].
  apply orb_false_elim in Hwin as [Hlo Hhi].
  apply Z.ltb_ge in Hlo, Hhi.
  destruct stored as [|first stored'] eqn:Hst; [done|]. rewrite <- Hst in *.
  destruct (_ <? _) eqn:Hshort; [done|]. apply Z.ltb_ge in Hshort.
  injection Hav as <-.
  assert (Z.of_nat (length stored) = data_length_ g + 1) as Hlen.
  { destruct (Hok _ _ Hin) as [Hnil|Hlen]; [by rewrite Hst in Hnil|done]. }
  set (offset := Z.to_nat (address - start_address_ g + 1)).
  assert (to_uint8 (address - start_address_ g + 1)
          = address - start_address_ g + 1) as Hoff
    by (unfold to_uint8; apply Z.mod_small; lia).
  unfold getData. rewrite Hin, Hoff. fold offset.
  assert (∀ k, Z.of_nat k < data_length →
               ∃ d, stored !! (offset + k)%nat = Some d) as Hget.
  { intros k Hk. apply lookup_lt_is_Some_2. unfold offset. lia. }
  exists stored. 
  destruct Hdl as [-> | [-> | ->]].
  - destruct (Hget 0%nat) as [d0 H0]; [lia|]. rewrite Nat.add_0_r in H0.
    exists d0. rewrite (at_Ok _ _ _ H0). cbn.
    split_and!; try done; try lia; by rewrite Hst.
  - destruct (Hget 0%nat) as [d0 H0]; [lia|]. rewrite Nat.add_0_r in H0.
    destruct (Hget 1%nat) as [d1 H1]; [lia|].
    exists (makeWord sts_end_ d0 d1).
    rewrite (at_Ok _ _ _ H0), (at_Ok _ _ _ H1). cbn.
    split_and!; try done; try lia; try (by rewrite Hst); eauto 10.
  - destruct (Hget 0%nat) as [d0 H0]; [lia|]. rewrite Nat.add_0_r in H0.
    destruct (Hget 1%nat) as [d1 H1]; [lia|].
    destruct (Hget 2%nat) as [d2 H2]; [lia|].
    destruct (Hget 3%nat) as [d3 H3]; [lia|].
    exists (makeDWord (makeWord sts_end_ d0 d1) (makeWord sts_end_ d2 d3)).
    rewrite (at_Ok _ _ _ H0), (at_Ok _ _ _ H1), (at_Ok _ _ _ H2),
      (at_Ok _ _ _ H3). cbn.
    split_and!; try done; try lia; try (by rewrite Hst); eauto 20.
Qed.

End SyncReadProofs.

Lemma readRx_safe_witness :
  ∃ data result,
    SyncRead.readRx [255; 255; 1; 4] 1 2 = Ok (data, result)
    ∧ (result = COMM_SUCCESS ∧ Z.of_nat (length data) = 2 + 1
       ∨ result = COMM_RX_CORRUPT ∧ data = []).
Proof. apply (readRx_safe [255; 255; 1; 4] 1 2). lia. Defined.

Lemma readRx_sound_witness :
  SyncRead.readRx sync_read_buffer 1 2 = Ok ([0; 0; 8], COMM_SUCCESS)
  ∧ ∃ before err params after,
      sync_read_buffer = before ++ status_packet 1 err params ++ after
      ∧ [0; 0; 8] = err :: params
      ∧ Z.of_nat (length params) = 2.
Proof.
  split; [reflexivity|].
  apply (readRx_sound sync_read_buffer 1 2 [0; 0; 8]); [lia|reflexivity].
Defined.

Lemma readRx_complete_witness :
  sync_read_buffer = [7; 255] ++ status_packet 1 0 [0; 8] ++ []
  ∧ has_header [7; 255] 1 = false
  ∧ SyncRead.readRx ([7; 255] ++ status_packet 1 0 [0; 8] ++ []) 1 2
    = Ok ([0; 0; 8], COMM_SUCCESS).
Proof.
  split; [reflexivity|]. split; [reflexivity|].
  apply (readRx_complete [7; 255] [0; 8] [] 1 0 2);
    [reflexivity|lia|reflexivity|lia].
Defined.

Lemma GroupSyncRead_rxPacket_stores_witness :
  ∃ g',
    SyncRead.rxPacket (COMM_SUCCESS, sync_read_buffer) read_session
    = Ok (COMM_SUCCESS, g')
    ∧ SyncRead.data_dict_ g' !! 1 = Some [0; 0; 8]
    ∧ SyncRead.data_dict_ g' !! 2 = Some []
    ∧ SyncRead.last_result_ g' = false
    ∧ COMM_SUCCESS = COMM_SUCCESS
    ∧ (∀ sts_id, is_Some (SyncRead.data_dict_ read_session !! sts_id) →
         ∃ data read_result,
           SyncRead.readRx sync_read_buffer sts_id
             (SyncRead.data_length_ read_session) = Ok (data, read_result)
           ∧ SyncRead.data_dict_ g' !! sts_id = Some data)
    ∧ (SyncRead.last_result_ g' = true
       ↔ ∀ sts_id, is_Some (SyncRead.data_dict_ read_session !! sts_id) →
           ∃ data,
             SyncRead.readRx sync_read_buffer sts_id
               (SyncRead.data_length_ read_session)
             = Ok (data, COMM_SUCCESS)).
Proof.
  eexists. split; [vm_compute; reflexivity|].
  split; [reflexivity|]. split; [reflexivity|]. split; [reflexivity|].
  eapply (GroupSyncRead_rxPacket_stores read_session _ COMM_SUCCESS COMM_SUCCESS
            sync_read_buffer);
    [simpl; lia|vm_compute; lia|vm_compute; reflexivity].
Defined.

Lemma read_session_stored_ok : stored_ok read_session.
Proof.
  unfold stored_ok, read_session. simpl.
  apply map_Forall_insert_2; [by right|].
  apply map_Forall_insert_2; [by left|]. apply map_Forall_empty.
Qed.

Lemma stored_replies_keep_shape_witness :
  stored_ok read_session
  ∧ stored_ok (SyncRead.addParam 3 read_session).2
  ∧ stored_ok (SyncRead.removeParam 3 read_session)
  ∧ stored_ok (SyncRead.clearParam read_session)
  ∧ ∃ result g',
      SyncRead.rxPacket (COMM_SUCCESS, sync_read_buffer) read_session
      = Ok (result, g')
      ∧ stored_ok g'
      ∧ SyncRead.data_length_ g' = SyncRead.data_length_ read_session
      ∧ SyncRead.start_address_ g' = SyncRead.start_address_ read_session
      ∧ ∀ other, is_Some (SyncRead.data_dict_ g' !! other)
                 ↔ is_Some (SyncRead.data_dict_ read_session !! other).
Proof.
  split; [apply read_session_stored_ok|].
  apply (stored_replies_keep_shape read_session 3
           (COMM_SUCCESS, sync_read_buffer));
    [simpl; lia|apply read_session_stored_ok].
Defined.

Lemma isAvailable_guards_getData_witness :
  SyncRead.isAvailable 1 56 2 read_session = (true, 0)
  ∧ ∃ stored_data value,
      SyncRead.data_dict_ read_session !! 1 = Some stored_data
      ∧ stored_data !! 0%nat = Some 0
      ∧ SyncRead.getData 0 1 56 2 read_session = Ok (value, read_session)
      ∧ let offset := Z.to_nat (56 - SyncRead.start_address_ read_session + 1) in
        (2 = 1 → stored_data !! offset = Some value)
        ∧ (2 = 2 →
           ∃ d0 d1,
             stored_data !! offset = Some d0
             ∧ stored_data !! (offset + 1)%nat = Some d1
             ∧ value = makeWord 0 d0 d1)
        ∧ (2 = 4 →
           ∃ d0 d1 d2 d3,
             stored_data !! offset = Some d0
             ∧ stored_data !! (offset + 1)%nat = Some d1
             ∧ stored_data !! (offset + 2)%nat = Some d2
             ∧ stored_data !! (offset + 3)%nat = Some d3
             ∧ value = makeDWord (makeWord 0 d0 d1) (makeWord 0 d2 d3)).
Proof.
  split; [reflexivity|].
  apply (isAvailable_guards_getData 0 1 56 2 0 read_session);
    [apply read_session_stored_ok|unfold is_byte; simpl; lia|auto|reflexivity].
Defined.
